(** * Meeting Insight: the persistence store, the audio normaliser and the
      analysis pipeline, embedded from the Python sources

    The development follows the source files:
    - [database.py]        -> Module [Database]
    - [audio_processor.py] -> Module [AudioProcessor]
    - [ai_analyzer.py]     -> Module [AiAnalyzer]
    - [file_upload.py]     -> Module [FileUpload]

    Python values are the inductive [pyval]; Python floats are IEEE binary64
    numbers ([PrimFloat.float]); a Python exception is a constructor of
    [pyexc] carried by the error monad [exn]; text is [string], one [ascii]
    per character (the code points below 256).  Whatever the code obtains
    from outside the repository (the JSON codec, SQLite's clock, libmagic,
    FFmpeg, the remote models, TextBlob, scikit-learn) is a field of an
    environment record or a section variable, so that every theorem holds
    for all behaviours of those collaborators. *)

From Stdlib Require Import ZArith List Bool Ascii String Floats Lia.
From stdpp Require Import base option gmap strings.

Import ListNotations.
Local Open Scope string_scope.
(* A decimal literal denotes the nearest binary64 number, as in Python. *)
#[local] Set Warnings "-inexact-float".
Local Open Scope Z_scope.

(** ** Python exceptions and the error monad *)

Inductive pyexc : Type :=
| KeyError | NameError | TypeError | ValueError | IndexError
| JSONDecodeError | OperationalError | FileNotFoundError
| Exception (msg : string).

Inductive exn (A : Type) : Type :=
| Ok (a : A)
| Raise (e : pyexc).
Arguments Ok {A} a.
Arguments Raise {A} e.

#[global] Instance exn_ret : MRet exn := fun A a => Ok a.
#[global] Instance exn_bind : MBind exn := fun A B f m =>
  match m with Ok a => f a | Raise e => Raise e end.
#[global] Instance exn_fmap : FMap exn := fun A B f m =>
  match m with Ok a => Ok (f a) | Raise e => Raise e end.

(** [try: body except Exception: return d] *)
Definition try_except {A} (body : exn A) (d : A) : A :=
  match body with Ok a => a | Raise _ => d end.

(** A [for] loop that builds a list and stops at the first exception. *)
Fixpoint mapE {A B} (f : A -> exn B) (l : list A) : exn (list B) :=
  match l with
  | [] => Ok []
  | x :: l' => y ← f x; ys ← mapE f l'; mret (y :: ys)
  end.

(** ** Python values *)

#[warnings="-register-all"]
Inductive pyval : Type :=
| PNone
| PBool (b : bool)
| PInt (z : Z)
| PFloat (f : float)
| PStr (s : string)
| PList (l : list pyval)
| PDict (d : list (string * pyval)).

(** Truth value testing, as [if v] and [v if v else ...] use it. *)
Definition truthy (v : pyval) : bool :=
  match v with
  | PNone => false
  | PBool b => b
  | PInt z => negb (z =? 0)
  | PFloat f => negb (PrimFloat.eqb f 0%float)
  | PStr s => negb (String.eqb s "")
  | PList l => match l with [] => false | _ => true end
  | PDict d => match d with [] => false | _ => true end
  end.

Fixpoint assoc (k : string) (d : list (string * pyval)) : option pyval :=
  match d with
  | [] => None
  | (k', v) :: d' => if String.eqb k k' then Some v else assoc k d'
  end.

(** [k in v] *)
Definition py_contains (k : string) (v : pyval) : exn bool :=
  match v with
  | PDict d => Ok (match assoc k d with Some _ => true | None => false end)
  | PList l => Ok (existsb (fun x => match x with PStr s => String.eqb s k | _ => false end) l)
  | PStr s => Ok (match index 0 k s with Some _ => true | None => false end)
  | _ => Raise TypeError
  end.

(** [v[k]] for a string key *)
Definition py_getitem (v : pyval) (k : string) : exn pyval :=
  match v with
  | PDict d => match assoc k d with Some x => Ok x | None => Raise KeyError end
  | _ => Raise TypeError
  end.

(** ** Text *)

Definition text := list ascii.
Definition chars (s : string) : text := list_ascii_of_string s.
Definition str (t : text) : string := string_of_list_ascii t.

Definition code (c : ascii) : N := N_of_ascii c.

(** [s[:n]] *)
Definition py_prefix (n : nat) (s : string) : string := str (firstn n (chars s)).

(** [s.split('.')[-1]]: what follows the last dot, the whole string when
    there is none. *)
Fixpoint last_segment_from (acc : text) (t : text) : text :=
  match t with
  | [] => acc
  | c :: t' => if Ascii.eqb c "." then last_segment_from t' t'
               else last_segment_from acc t'
  end.
Definition split_dot_last (s : string) : string :=
  str (last_segment_from (chars s) (chars s)).

Fixpoint starts_with (p t : text) : bool :=
  match p, t with
  | [], _ => true
  | _ :: _, [] => false
  | a :: p', b :: t' => Ascii.eqb a b && starts_with p' t'
  end.

(** [s.startswith(p)] *)
Definition py_startswith (s p : string) : bool := starts_with (chars p) (chars s).

(** [s.replace(old, new)]: every non-overlapping occurrence, left to right.
    [skip] counts the characters of a match still to be dropped.  With an
    empty [old], Python inserts [new] before every character and at the end. *)
Fixpoint replace_from (old new : text) (skip : nat) (t : text) : text :=
  match t with
  | [] => []
  | c :: t' =>
      match skip with
      | S k => replace_from old new k t'
      | O => if starts_with old t
             then (new ++ replace_from old new (List.length old - 1) t')%list
             else c :: replace_from old new 0 t'
      end
  end.

Definition py_replace (s old new : string) : string :=
  match chars old with
  | [] => str (chars new ++ flat_map (fun c => c :: chars new) (chars s))%list
  | _ => str (replace_from (chars old) (chars new) 0 (chars s))
  end.

(** [q in s] for strings: [q] occurs in [s] as a contiguous, case-sensitive
    substring. *)
Fixpoint occurs_in (q t : text) : bool :=
  starts_with q t || match t with [] => false | _ :: t' => occurs_in q t' end.

Definition is_substring (q s : string) : bool := occurs_in (chars q) (chars s).

(** ** The JSON codec

    [json.dumps] and [json.loads] belong to the Python standard library.
    [json_dumps] raises on a value that has no JSON form, [json_loads] on a
    text that is not JSON. *)

Record json_codec : Type := {
  json_dumps : pyval -> exn string;
  json_loads : string -> exn pyval
}.

(** * database.py *)

Module Database.

(** One row of the table [meetings], column by column; [None] is SQL NULL. *)
Record row : Type := {
  r_id : Z;
  r_filename : string;
  r_upload_date : string;
  r_transcription : option string;
  r_summary : option string;
  r_sentiment : option string;
  r_topics : option string;
  r_speakers : option string;
  r_knowledge_graph : option string;
  r_file_size : Z;
  r_duration : float
}.

(** The database file: the table in rowid order and the counter that
    [AUTOINCREMENT] keeps in [sqlite_sequence]. *)
Record store : Type := {
  rows : list row;
  sqlite_sequence : Z
}.

Definition empty_store : store := {| rows := []; sqlite_sequence := 0 |}.

(** The dictionary that the three readers build from a row. *)
Record meeting : Type := {
  m_id : Z;
  m_filename : string;
  m_upload_date : string;
  m_transcription : pyval;
  m_summary : pyval;
  m_sentiment : pyval;
  m_topics : pyval;
  m_speakers : pyval;
  m_knowledge_graph : pyval;
  m_file_size : Z;
  m_duration : float
}.

(** *** SQLite's LIKE

    The built-in operator, without ESCAPE: [%] stands for any run of
    characters, [_] for exactly one, and any other character for itself up to
    the case of the 26 ASCII letters.  SQLite reads the pattern and the text
    as C strings: each ends at its first NUL character, whatever follows. *)

Definition fold_case (c : ascii) : ascii :=
  if (65 <=? code c)%N && (code c <=? 90)%N
  then ascii_of_N (code c + 32) else c.

Fixpoint like (p : text) : text -> bool :=
  match p with
  | [] => fun t => match t with [] => true | _ :: _ => false end
  | x :: p' =>
      if Ascii.eqb x "%" then
        fix star (t : text) : bool :=
          like p' t || match t with [] => false | _ :: t' => star t' end
      else if Ascii.eqb x "_" then
        fun t => match t with [] => false | _ :: t' => like p' t' end
      else
        fun t => match t with
                 | [] => false
                 | c :: t' => Ascii.eqb (fold_case x) (fold_case c) && like p' t'
                 end
  end.

(** The characters before the first NUL. *)
Fixpoint c_string (t : text) : text :=
  match t with
  | [] => []
  | c :: t' => if (code c =? 0)%N then [] else c :: c_string t'
  end.

(** [col LIKE pat] as a WHERE condition: NULL is not a match, and pattern
    and text are compared up to their first NUL. *)
Definition sql_like (col : option string) (pat : string) : bool :=
  match col with
  | None => false
  | Some s => like (c_string (chars pat)) (c_string (chars s))
  end.

(** The length of a character in UTF-8, and SQLite's bound on the byte
    length of a LIKE pattern (SQLITE_MAX_LIKE_PATTERN_LENGTH), taken of the
    whole pattern, NUL characters included; a longer pattern makes the
    statement fail. *)
Definition utf8_len (c : ascii) : Z := if (code c <? 128)%N then 1 else 2.
Definition byte_length (s : string) : Z :=
  fold_right (fun c n => utf8_len c + n) 0 (chars s).
Definition SQLITE_MAX_LIKE_PATTERN_LENGTH : Z := 50000.

(** *** ORDER BY upload_date DESC

    Text compares bytewise.  The order among rows of equal date is the
    engine's; the model keeps them in rowid order. *)
Definition date_before (a b : row) : bool :=
  match String.compare (r_upload_date a) (r_upload_date b) with
  | Lt => true
  | _ => false
  end.

Fixpoint insert_desc (r : row) (l : list row) : list row :=
  match l with
  | [] => [r]
  | x :: l' => if date_before r x then x :: insert_desc r l' else r :: l
  end.

Definition order_by_upload_date_desc (l : list row) : list row :=
  fold_right insert_desc [] l.

(** *** Reading a row *)

Section Codec.
Variable J : json_codec.

(** [json.loads(col) if col else None] *)
Definition load_column (col : option string) : exn pyval :=
  match col with
  | None => Ok PNone
  | Some s => if String.eqb s "" then Ok PNone else json_loads J s
  end.

Definition row_to_dict (r : row) : exn meeting :=
  t ← load_column (r_transcription r);
  s ← load_column (r_summary r);
  se ← load_column (r_sentiment r);
  tp ← load_column (r_topics r);
  sp ← load_column (r_speakers r);
  kg ← load_column (r_knowledge_graph r);
  mret {| m_id := r_id r; m_filename := r_filename r;
          m_upload_date := r_upload_date r;
          m_transcription := t; m_summary := s; m_sentiment := se;
          m_topics := tp; m_speakers := sp; m_knowledge_graph := kg;
          m_file_size := r_file_size r; m_duration := r_duration r |}.

(** [sqlite3.connect] and the statements that follow raise when the storage
    fails; [fault] says whether that happens during the call.  A failed call
    leaves the database as it was. *)
Definition connect (fault : bool) : exn unit :=
  if fault then Raise OperationalError else Ok tt.

(** *** save_meeting_data *)

(** [json.dumps(v) if v else None] *)
Definition dump_field (v : pyval) : exn (option string) :=
  if truthy v then Some <$> json_dumps J v else Ok None.

Fixpoint max_rowid (l : list row) : Z :=
  match l with
  | [] => 0
  | r :: l' => Z.max (r_id r) (max_rowid l')
  end.

(** The rowid an [INTEGER PRIMARY KEY AUTOINCREMENT] column receives: one
    more than the largest rowid the table has ever held. *)
Definition next_rowid (db : store) : Z :=
  Z.max (sqlite_sequence db) (max_rowid (rows db)) + 1.

(** [now] is [datetime.now().strftime(...)] at the time of the call. *)
Definition save_meeting_data (fault : bool) (now : string)
    (filename : string)
    (transcription summary sentiment topics speakers knowledge_graph : pyval)
    (file_size : Z) (duration : float) (db : store) : option Z * store :=
  let body : exn (Z * store) :=
    _ ← connect fault;
    t ← dump_field transcription;
    s ← dump_field summary;
    se ← dump_field sentiment;
    tp ← dump_field topics;
    sp ← dump_field speakers;
    kg ← dump_field knowledge_graph;
    let meeting_id := next_rowid db in
    let r := {| r_id := meeting_id; r_filename := filename;
                r_upload_date := now;
                r_transcription := t; r_summary := s; r_sentiment := se;
                r_topics := tp; r_speakers := sp; r_knowledge_graph := kg;
                r_file_size := file_size; r_duration := duration |} in
    mret (meeting_id,
          {| rows := (rows db ++ [r])%list; sqlite_sequence := meeting_id |})
  in
  match body with
  | Ok (meeting_id, db') => (Some meeting_id, db')
  | Raise _ => (None, db)
  end.

(** *** get_all_meetings *)
Definition get_all_meetings (fault : bool) (db : store) : list meeting :=
  try_except
    (_ ← connect fault;
     mapE row_to_dict (order_by_upload_date_desc (rows db)))
    [].

(** *** get_meeting_by_id

    [fetchone] yields the first row with that id, in rowid order. *)
Definition get_meeting_by_id (fault : bool) (meeting_id : Z) (db : store)
  : option meeting :=
  try_except
    (_ ← connect fault;
     match find (fun r => r_id r =? meeting_id) (rows db) with
     | Some r => Some <$> row_to_dict r
     | None => Ok None
     end)
    None.

(** *** delete_meeting *)
Definition delete_meeting (fault : bool) (meeting_id : Z) (db : store)
  : bool * store :=
  match connect fault with
  | Ok _ =>
      (true, {| rows := List.filter (fun r => negb (r_id r =? meeting_id)) (rows db);
                sqlite_sequence := sqlite_sequence db |})
  | Raise _ => (false, db)
  end.

(** *** search_meetings *)
Definition matches (pat : string) (r : row) : bool :=
  sql_like (Some (r_filename r)) pat
  || sql_like (r_transcription r) pat
  || sql_like (r_summary r) pat.

Definition search_meetings (fault : bool) (query : string) (db : store)
  : list meeting :=
  let pat := "%" ++ query ++ "%" in
  try_except
    (_ ← connect fault;
     _ ← (if (SQLITE_MAX_LIKE_PATTERN_LENGTH <? byte_length pat)
              && match rows db with [] => false | _ => true end
          then Raise OperationalError else Ok tt);
     mapE row_to_dict
          (order_by_upload_date_desc (List.filter (matches pat) (rows db))))
    [].

End Codec.

End Database.

(** ** State with exceptions

    A computation that changes a state [S] and returns or raises; the state
    changes made before an exception stay. *)

Definition io (S A : Type) : Type := S -> exn A * S.

#[global] Instance io_ret {S} : MRet (io S) := fun A a σ => (Ok a, σ).
#[global] Instance io_bind {S} : MBind (io S) := fun A B f m σ =>
  match m σ with
  | (Ok a, σ') => f a σ'
  | (Raise e, σ') => (Raise e, σ')
  end.

Definition raise {S A} (e : pyexc) : io S A := fun σ => (Raise e, σ).

(** * audio_processor.py *)

Module AudioProcessor.

(** What the tools below see of an audio stream. *)
Record audio_format : Type := {
  codec : string;
  sample_rate : Z;
  channels : Z
}.

(** The contents of a file, as far as a collaborator can observe them:
    libmagic's verdict on them, the audio stream they hold if any, and its
    length in milliseconds. *)
Record media : Type := {
  magic_mime : exn string;
  stream : option audio_format;
  millis : Z
}.


(** The upload handed over by the page. *)
Record uploaded_file : Type := {
  name : string;
  contents : media;
  size : Z
}.

(** What the operating system and FFmpeg decide for one call. *)
Record host : Type := {
  (** the directory and random stem [tempfile] picks *)
  temp_stem : string;
  (** whether FFmpeg manages to read the input and write the output *)
  ffmpeg_succeeds : list string -> media -> bool;
  (** what a run that fails leaves at the output path, if anything *)
  ffmpeg_leftover : list string -> media -> option media
}.

Definition os_unlink (path : string) : io (gmap string media) unit :=
  fun σ => match σ !! path with
           | Some _ => (Ok tt, delete path σ)
           | None => (Raise FileNotFoundError, σ)
           end.

Definition os_path_exists (path : string) (σ : gmap string media) : bool :=
  match σ !! path with Some _ => true | None => false end.

(** *** detect_file_type *)
Definition detect_file_type (file_path : string) (σ : gmap string media)
  : option string :=
  try_except
    (match σ !! file_path with
     | Some m => Some <$> magic_mime m
     | None => Raise FileNotFoundError
     end)
    None.

(** *** FFmpeg's command line

    [-i input], then the output options, then the output file.  An option
    takes the argument after it, except the flag [-y].  [-acodec], [-ar] and
    [-ac] fix the codec, the sample rate and the channel count of the output;
    an option that is left out keeps the input's value. *)

Fixpoint option_value (opt : string) (args : list string) : option string :=
  match args with
  | a :: rest =>
      if String.eqb a "-y" then option_value opt rest
      else match rest with
           | v :: rest' =>
               if String.eqb a opt then Some v else option_value opt rest'
           | [] => None
           end
  | [] => None
  end.

Definition digit_value (c : ascii) : option Z :=
  if (48 <=? code c)%N && (code c <=? 57)%N
  then Some (Z.of_N (code c) - 48) else None.

Fixpoint parse_digits (acc : Z) (t : text) : option Z :=
  match t with
  | [] => Some acc
  | c :: t' => match digit_value c with
               | Some d => parse_digits (10 * acc + d) t'
               | None => None
               end
  end.

Definition parse_decimal (s : string) : option Z :=
  match chars s with
  | [] => None
  | t => parse_digits 0 t
  end.

Definition output_format (args : list string) (input : audio_format)
  : audio_format :=
  {| codec := default (codec input) (option_value "-acodec" args);
     sample_rate :=
       default (sample_rate input) (option_value "-ar" args ≫= parse_decimal);
     channels :=
       default (channels input) (option_value "-ac" args ≫= parse_decimal) |}.

(** [subprocess.run(cmd)]: the return code and the file system afterwards.
    FFmpeg does not edit a file in place: when the output is the input it
    exits with an error before it writes anything. *)
Definition ffmpeg (H : host) (cmd : list string) (σ : gmap string media)
  : Z * gmap string media :=
  match cmd with
  | prog :: args =>
      match option_value "-i" args, List.last args "" with
      | Some input, output =>
          if String.eqb input output then (1, σ) else
          match σ !! input with
          | Some m =>
              let failed :=
                match ffmpeg_leftover H cmd m with
                | Some partial => <[output := partial]> σ
                | None => σ
                end in
              match stream m with
              | Some f =>
                  if ffmpeg_succeeds H cmd m
                  then (0, <[output :=
                               {| magic_mime := Ok "audio/x-wav";
                                  stream := Some (output_format args f);
                                  millis := millis m |}]> σ)
                  else (1, failed)
              | None => (1, failed)
              end
          | None => (1, σ)
          end
      | None, _ => (1, σ)
      end
  | [] => (1, σ)
  end.

(** *** convert_to_wav *)
Definition convert_to_wav (H : host) (input_path output_path : string)
    (σ : gmap string media) : bool * gmap string media :=
  let cmd := ["ffmpeg"; "-i"; input_path;
              "-acodec"; "pcm_s16le";
              "-ar"; "16000";
              "-ac"; "1";
              "-y";
              output_path] in
  let '(returncode, σ') := ffmpeg H cmd σ in
  if negb (returncode =? 0) then (false, σ') else (true, σ').

(** *** process_audio_file *)

Definition supported_types : list string :=
  ["audio/mpeg"; "audio/wav"; "audio/mp4"; "audio/x-wav";
   "video/mp4"; "video/quicktime"; "video/x-msvideo"].

Definition mem (s : string) (l : list string) : bool :=
  existsb (String.eqb s) l.

(** The name of the scratch copy of the upload. *)
Definition temp_input_path_of (H : host) (up : uploaded_file) : string :=
  temp_stem H ++ "." ++ split_dot_last (name up).

Definition process_audio_file_body (H : host) (up : uploaded_file)
  : io (gmap string media) string :=
  let temp_input_path := temp_input_path_of H up in
  _ ← (fun σ => (Ok tt, <[temp_input_path := contents up]> σ));
  mime_type ← (fun σ => (Ok (detect_file_type temp_input_path σ), σ));
  match mime_type with
  | None =>
      _ ← os_unlink temp_input_path; raise (Exception "Unsupported file type")
  | Some mime_type =>
      if String.eqb mime_type "" || negb (mem mime_type supported_types) then
        _ ← os_unlink temp_input_path; raise (Exception "Unsupported file type")
      else
        let temp_output_path :=
          py_replace temp_input_path (split_dot_last temp_input_path) "wav" in
        temp_output_path ←
          (if py_startswith mime_type "video/"
              || negb (String.eqb mime_type "audio/wav")
           then
             success ← (fun σ => let '(ok, σ') :=
                                   convert_to_wav H temp_input_path
                                                  temp_output_path σ in
                                 (Ok ok, σ'));
             if negb success then
               _ ← os_unlink temp_input_path;
               raise (Exception "Failed to convert file to WAV format")
             else mret temp_output_path
           else mret temp_input_path);
        _ ← (if negb (String.eqb temp_input_path temp_output_path)
             then os_unlink temp_input_path else mret tt);
        mret temp_output_path
  end.

Definition process_audio_file (H : host) (up : uploaded_file)
    (σ : gmap string media) : option string * gmap string media :=
  match process_audio_file_body H up σ with
  | (Ok path, σ') => (Some path, σ')
  | (Raise _, σ') => (None, σ')
  end.

(** *** get_audio_duration

    [len(audio) / 1000.0], and 0 when pydub cannot read the file. *)
Definition get_audio_duration (file_path : string) (σ : gmap string media)
  : float :=
  match σ !! file_path with
  | Some m =>
      match stream m with
      | Some _ => (PrimFloat.of_uint63 (Uint63.of_Z (millis m)) / 1000)%float
      | None => 0%float
      end
  | None => 0%float
  end.

End AudioProcessor.

(** * ai_analyzer.py *)

Module AiAnalyzer.
Import AudioProcessor.

(** What the speech-to-text service answers: [text], and the attributes
    [segments] and [language] when the response object has them. *)
Record transcription_response : Type := {
  response_text : string;
  response_segments : option pyval;
  response_language : option pyval
}.

(** The collaborators of the analysis: the remote services and the two
    libraries that do the numerical work. *)
Record services : Type := {
  (** whether GROQ_API_KEY is set, that is, whether [groq_client] exists *)
  groq_configured : bool;
  (** [openai_client.audio.transcriptions.create(model="whisper-1", ...)] *)
  audio_transcriptions_create : media -> exn transcription_response;
  (** [client.chat.completions.create(model, [prompt])], through the Groq
      client or not, down to [response.choices[0].message.content] *)
  chat_completions_create : bool -> string -> string -> exn (option string);
  (** [TextBlob(text).sentiment]: polarity and subjectivity *)
  textblob_sentiment : string -> float * float;
  (** [TfidfVectorizer(...).fit_transform([text])], by its feature names *)
  tfidf_feature_names : string -> exn (list string);
  (** [LatentDirichletAllocation(n_components).fit(...).components_] *)
  lda_components : Z -> string -> exn (list (list float))
}.

Section Analysis.
Variable J : json_codec.
Variable S : services.

Definition analysis_model : string :=
  if groq_configured S then "llama-3.3-70b-versatile" else "gpt-4o".

(** [analysis_client.chat.completions.create(model=analysis_model, ...)] *)
Definition analysis_chat (prompt : string) : exn (option string) :=
  chat_completions_create S (groq_configured S) analysis_model prompt.

(** *** transcribe_audio *)
Definition transcribe_audio (audio_file_path : string)
    (σ : gmap string media) : pyval :=
  try_except
    (audio_file ← match σ !! audio_file_path with
                  | Some m => Ok m
                  | None => Raise FileNotFoundError
                  end;
     response ← audio_transcriptions_create S audio_file;
     mret (PDict [("text", PStr (response_text response));
                  ("segments", default (PList []) (response_segments response));
                  ("language",
                   default (PStr "unknown") (response_language response))]))
    PNone.

(** The wording of the prompts is fixed text around the interpolated
    values; it is abbreviated here to its first sentence. *)
Definition summary_prompt (transcription_text : string) : string :=
  "Analyze the following meeting transcription and provide a comprehensive summary in JSON format. Transcription: "
  ++ transcription_text.

Definition sentiment_prompt (text : string) : string :=
  "Analyze the emotional tone and sentiment of this meeting transcription. Transcription: "
  ++ py_prefix 2000 text ++ "...".

Definition knowledge_prompt (summary topics : string) : string :=
  "Based on the meeting summary and topics, identify relationships and connections between different concepts. Meeting Summary: "
  ++ summary ++ " Topics: " ++ topics.

(** [json.loads(content)] when [content] is a non-empty string *)
Definition has_content (content : option string) : option string :=
  match content with
  | Some s => if String.eqb s "" then None else Some s
  | None => None
  end.

(** *** generate_meeting_summary *)
Definition generate_meeting_summary (transcription_text : string) : pyval :=
  try_except
    (content ← analysis_chat (summary_prompt transcription_text);
     match has_content content with
     | Some s => json_loads J s
     | None => Ok PNone
     end)
    PNone.

(** *** analyze_sentiment *)

Definition sentiment_label (polarity : float) : string :=
  if (0.1 <? polarity)%float then "Positive"
  else if (polarity <? -0.1)%float then "Negative"
  else "Neutral".

(** The dictionary under the key [textblob]. *)
Definition textblob_score (text : string) : pyval :=
  let '(polarity, subjectivity) := textblob_sentiment S text in
  PDict [("polarity", PFloat polarity);
         ("subjectivity", PFloat subjectivity);
         ("label", PStr (sentiment_label polarity))].

Definition analyze_sentiment (text : string) : pyval :=
  try_except
    (let score := textblob_score text in
     content ← analysis_chat (sentiment_prompt text);
     ai_sentiment ← match has_content content with
                    | Some s => json_loads J s
                    | None => Ok (PDict [])
                    end;
     mret (PDict [("textblob", score); ("ai_analysis", ai_sentiment)]))
    PNone.

(** *** extract_topics *)

(** [str.lower] *)
Definition py_lower_char (c : ascii) : ascii :=
  let n := code c in
  if ((65 <=? n) && (n <=? 90) || (192 <=? n) && (n <=? 222) && negb (n =? 215))%N
  then ascii_of_N (n + 32) else c.

(** The characters that [[a-zA-Z\s]] accepts. *)
Definition is_alpha_or_space (c : ascii) : bool :=
  let n := code c in
  ((65 <=? n) && (n <=? 90) || (97 <=? n) && (n <=? 122)
   || (9 <=? n) && (n <=? 13) || (28 <=? n) && (n <=? 32)
   || (n =? 133) || (n =? 160))%N.

(** [re.sub(r'[^a-zA-Z\s]', '', text.lower())] *)
Definition clean_text (text : string) : string :=
  str (List.filter is_alpha_or_space (map py_lower_char (chars text))).

(** numpy's order on floats: NaN comes last. *)
Definition np_lt (a b : float) : bool :=
  (a <? b)%float || negb (PrimFloat.is_nan a) && PrimFloat.is_nan b.

Fixpoint insert_sorted (x : nat * float) (l : list (nat * float))
  : list (nat * float) :=
  match l with
  | [] => [x]
  | y :: l' => if np_lt (snd y) (snd x) then y :: insert_sorted x l'
               else x :: l
  end.

(** [topic.argsort()]: the indices of [topic] by increasing value.  numpy
    leaves the order of equal values open; the model keeps them in index
    order. *)
Definition argsort (topic : list float) : list nat :=
  map fst (fold_right insert_sorted []
             (combine (seq 0 (List.length topic)) topic)).

(** [l[-n:]] *)
Definition py_suffix {A} (n : nat) (l : list A) : list A :=
  skipn (List.length l - n) l.

(** [topic.max()]: NaN if there is one, and an error on an empty array. *)
Definition np_max2 (a b : float) : float :=
  if PrimFloat.is_nan a then a
  else if PrimFloat.is_nan b then b
  else if (a <? b)%float then b else a.

Definition np_max (topic : list float) : exn float :=
  match topic with
  | [] => Raise ValueError
  | x :: r => Ok (fold_left np_max2 r x)
  end.

Record topic_entry : Type := {
  topic_id : nat;
  keywords : list string;
  weight : float
}.

Definition topic_dict (t : topic_entry) : pyval :=
  PDict [("id", PInt (Z.of_nat (topic_id t)));
         ("keywords", PList (map PStr (keywords t)));
         ("weight", PFloat (weight t))].

(** One turn of the loop over [enumerate(lda.components_)]. *)
Definition topic_of (feature_names : list string)
    (topic_idx : nat) (topic : list float) : exn topic_entry :=
  let top_features_idx := rev (py_suffix 10 (argsort topic)) in
  top_features ← mapE (fun i => match nth_error feature_names i with
                                | Some f => Ok f
                                | None => Raise IndexError
                                end) top_features_idx;
  w ← np_max topic;
  mret {| topic_id := topic_idx;
          keywords := firstn 5 top_features;
          weight := w |}.

Fixpoint topics_from (feature_names : list string) (topic_idx : nat)
    (components : list (list float)) : exn (list topic_entry) :=
  match components with
  | [] => Ok []
  | topic :: rest =>
      t ← topic_of feature_names topic_idx topic;
      ts ← topics_from feature_names (Datatypes.S topic_idx) rest;
      mret (t :: ts)
  end.

(** The list [topics] that the loop builds, before it is returned. *)
Definition extract_topic_entries (text : string) (num_topics : Z)
  : list topic_entry :=
  try_except
    (let text_clean := clean_text text in
     feature_names ← tfidf_feature_names S text_clean;
     components ← lda_components S (Z.min num_topics 5) text_clean;
     topics_from feature_names 0 components)
    [].

Definition extract_topics (text : string) (num_topics : Z) : pyval :=
  PList (map topic_dict (extract_topic_entries text num_topics)).

(** *** identify_speakers *)

Definition single_speaker : pyval :=
  PDict [("estimated_speakers", PInt 1);
         ("speaker_segments", PList []);
         ("confidence", PFloat 0.1)].

(** [v[:n]], as the prompt takes it of the text *)
Definition py_slice_prefix (n : nat) (v : pyval) : exn pyval :=
  match v with
  | PStr s => Ok (PStr (py_prefix n s))
  | PList l => Ok (PList (firstn n l))
  | _ => Raise TypeError
  end.

Definition identify_speakers (transcription_data : pyval) : pyval :=
  try_except
    (py_contains "segments" transcription_data ≫= fun has : bool =>
     (if has then truthy <$> py_getitem transcription_data "segments"
      else Ok false) ≫= fun segments : bool =>
     if segments then
       text ← py_getitem transcription_data "text";
       _ ← py_slice_prefix 2000 text;
       (* the module defines [openai_client], [groq_client] and
          [analysis_client], and no [client] *)
       Raise NameError
     else Ok single_speaker)
    single_speaker.

(** *** generate_knowledge_connections *)

Definition empty_graph : pyval :=
  PDict [("nodes", PList []); ("edges", PList [])].

Definition generate_knowledge_connections (summary_data topics : pyval)
  : pyval :=
  try_except
    (s ← json_dumps J summary_data;
     t ← json_dumps J topics;
     content ← analysis_chat (knowledge_prompt s t);
     match has_content content with
     | Some c => json_loads J c
     | None => Ok empty_graph
     end)
    empty_graph.

End Analysis.

End AiAnalyzer.

(** * file_upload.py *)

Module FileUpload.
Import AudioProcessor AiAnalyzer.

(** What the pipeline can change: the scratch files and the database. *)
Record world : Type := {
  files : gmap string media;
  db : Database.store
}.

Section Pipeline.
Variable J : json_codec.
Variable S : services.
Variable H : host.
(** the clock at the time of the insert, and whether the storage fails *)
Variable now : string.
Variable db_fault : bool.

Definition unlink (path : string) : io world unit :=
  fun w => let '(r, σ) := os_unlink path (files w) in
           (r, {| files := σ; db := db w |}).

Definition as_str (v : pyval) : exn string :=
  match v with PStr s => Ok s | _ => Raise TypeError end.

Definition lift {A} (m : exn A) : io world A := fun w => (m, w).

(** The statements of the [try] block once [audio_path] is known to be a
    path.  The calls of [st] and the preview only draw on the page. *)
Definition pipeline_body (uploaded_file : uploaded_file) (audio_path : string)
  : io world unit :=
  duration ← (fun w => (Ok (get_audio_duration audio_path (files w)), w));
  transcription ← (fun w => (Ok (transcribe_audio S audio_path (files w)), w));
  if negb (truthy transcription) then
    unlink audio_path
  else
    text ← lift (py_getitem transcription "text" ≫= as_str);
    let summary := generate_meeting_summary J S text in
    if negb (truthy summary) then
      unlink audio_path
    else
      let sentiment := analyze_sentiment J S text in
      let topics := extract_topics S text 5 in
      let speakers := identify_speakers transcription in
      let knowledge_graph := generate_knowledge_connections J S summary topics in
      meeting_id ← (fun w =>
        let '(meeting_id, db') :=
          Database.save_meeting_data J db_fault now
            (name uploaded_file) transcription summary sentiment topics
            speakers knowledge_graph (size uploaded_file) duration (db w) in
        (Ok meeting_id, {| files := files w; db := db' |}));
      unlink audio_path.

(** *** process_meeting_file *)
Definition process_meeting_file (uploaded_file : uploaded_file) (w : world)
  : world :=
  let '(audio_path, σ) := process_audio_file H uploaded_file (files w) in
  let w1 := {| files := σ; db := db w |} in
  match audio_path with
  | None => w1
  | Some audio_path =>
      if String.eqb audio_path "" then w1
      else
        match pipeline_body uploaded_file audio_path w1 with
        | (Ok _, w') => w'
        | (Raise _, w') =>
            if os_path_exists audio_path (files w')
            then snd (unlink audio_path w') else w'
        end
  end.

End Pipeline.

End FileUpload.

(** * Properties *)

(** ** Text helpers on examples *)

Example split_dot_last_examples :
  split_dot_last "weekly.sync.mp3" = "mp3"
  /\ split_dot_last "recording" = "recording"
  /\ split_dot_last "/tmp/tmpa1b2c3d4.mp4" = "mp4".
Proof. repeat split. Qed.

Example py_replace_examples :
  py_replace "/tmp/tmpa1b2c3d4.mp4" "mp4" "wav" = "/tmp/tmpa1b2c3d4.wav"
  /\ py_replace "/tmp/tmpmp3xyz12.mp3" "mp3" "wav" = "/tmp/tmpwavxyz12.wav"
  /\ py_replace "aaa" "aa" "b" = "ba"
  /\ py_replace "ab" "" "-" = "-a-b-".
Proof. repeat split. Qed.

Example is_substring_examples :
  is_substring "budget" "Q3 budget review" = true
  /\ is_substring "Budget" "Q3 budget review" = false
  /\ is_substring "" "anything" = true.
Proof. repeat split. Qed.

(** ** The order on binary64 numbers

    Comparisons of Python floats, through the specification of the
    primitive operations. *)

Section FloatOrder.

Definition sf_nan (a : spec_float) : bool :=
  match a with S754_nan => true | _ => false end.

Ltac split_compare :=
  repeat match goal with
  | |- context [Z.compare ?x ?y] => destruct (Z.compare_spec x y)
  | H : context [Z.compare ?x ?y] |- _ => destruct (Z.compare_spec x y)
  | |- context [Pos.compare_cont Eq ?x ?y] =>
      change (Pos.compare_cont Eq x y) with (Pos.compare x y);
      destruct (Pos.compare_spec x y)
  | H : context [Pos.compare_cont Eq ?x ?y] |- _ =>
      change (Pos.compare_cont Eq x y) with (Pos.compare x y) in H;
      destruct (Pos.compare_spec x y)
  end.

Ltac by_cases_on_floats :=
  repeat match goal with s : bool |- _ => destruct s end; simpl;
  try discriminate; try reflexivity; intros;
  split_compare; subst; simpl in *; try discriminate; try reflexivity; try lia.

Lemma SFleb_trans a b c :
  SFleb a b = true -> SFleb b c = true -> SFleb a c = true.
Proof.
  unfold SFleb.
  destruct a as [sa|sa| |sa ma ea], b as [sb|sb| |sb mb eb],
           c as [sc|sc| |sc mc ec];
    simpl; try discriminate; try reflexivity; by_cases_on_floats.
Qed.

Lemma SFltb_SFleb a b : SFltb a b = true -> SFleb a b = true.
Proof.
  unfold SFltb, SFleb. destruct (SFcompare a b) as [[ | | ]|]; congruence.
Qed.

Lemma SFleb_not_SFltb a b : SFleb a b = true -> SFltb b a = false.
Proof.
  unfold SFltb, SFleb.
  destruct a as [sa|sa| |sa ma ea], b as [sb|sb| |sb mb eb];
    simpl; try discriminate; try reflexivity; by_cases_on_floats.
Qed.

Lemma SFltb_false_SFleb a b :
  sf_nan a = false -> sf_nan b = false ->
  SFltb a b = false -> SFleb b a = true.
Proof.
  unfold SFltb, SFleb.
  destruct a as [sa|sa| |sa ma ea], b as [sb|sb| |sb mb eb];
    simpl; try discriminate; try reflexivity; by_cases_on_floats.
Qed.

Lemma SFeqb_refl a : SFeqb a a = negb (sf_nan a).
Proof.
  unfold SFeqb. destruct a as [s|s| |s m e]; simpl; try reflexivity;
    try (destruct s; reflexivity).
  destruct s; rewrite Z.compare_refl;
    change (Pos.compare_cont Eq m m) with (Pos.compare m m);
    rewrite Pos.compare_refl; reflexivity.
Qed.

Lemma is_nan_spec (x : float) : PrimFloat.is_nan x = sf_nan (Prim2SF x).
Proof.
  unfold PrimFloat.is_nan. rewrite FloatAxioms.eqb_spec, SFeqb_refl.
  apply negb_involutive.
Qed.

Lemma float_leb_trans (x y z : float) :
  (x <=? y)%float = true -> (y <=? z)%float = true -> (x <=? z)%float = true.
Proof. rewrite !FloatAxioms.leb_spec. apply SFleb_trans. Qed.

Lemma float_ltb_leb (x y : float) :
  (x <? y)%float = true -> (x <=? y)%float = true.
Proof. rewrite FloatAxioms.ltb_spec, FloatAxioms.leb_spec. apply SFltb_SFleb. Qed.

Lemma float_leb_not_ltb (x y : float) :
  (x <=? y)%float = true -> (y <? x)%float = false.
Proof. rewrite FloatAxioms.ltb_spec, FloatAxioms.leb_spec. apply SFleb_not_SFltb. Qed.

Lemma float_ltb_false_leb (x y : float) :
  PrimFloat.is_nan x = false -> PrimFloat.is_nan y = false ->
  (x <? y)%float = false -> (y <=? x)%float = true.
Proof. rewrite !is_nan_spec, FloatAxioms.ltb_spec, FloatAxioms.leb_spec. apply SFltb_false_SFleb. Qed.

Lemma float_leb_refl (x : float) :
  PrimFloat.is_nan x = false -> (x <=? x)%float = true.
Proof.
  intros Hx. apply float_ltb_false_leb; auto.
  rewrite is_nan_spec in Hx. rewrite FloatAxioms.ltb_spec. unfold SFltb.
  pose proof (SFeqb_refl (Prim2SF x)) as E. unfold SFeqb in E.
  rewrite Hx in E. destruct (SFcompare (Prim2SF x) (Prim2SF x)) as [[ | | ]|];
    simpl in E; congruence.
Qed.

End FloatOrder.

(** ** The sentiment stage *)

Section Sentiment.
Import AiAnalyzer.

(** C7.  The label depends on the polarity alone: above 0.1 it is Positive,
    below -0.1 it is Negative, and from -0.1 to 0.1, both included, it is
    Neutral; the score that the sentiment stage reports carries the polarity
    TextBlob computed and the label of that polarity. *)
Theorem sentiment_label_thresholds :
  (forall polarity : float,
     ((0.1 <? polarity)%float = true -> sentiment_label polarity = "Positive")
     /\ ((polarity <? -0.1)%float = true ->
         sentiment_label polarity = "Negative")
     /\ ((-0.1 <=? polarity)%float = true -> (polarity <=? 0.1)%float = true ->
         sentiment_label polarity = "Neutral"))
  /\ (forall (S : services) (text : string),
        py_getitem (textblob_score S text) "polarity"
        = Ok (PFloat (fst (textblob_sentiment S text)))
        /\ py_getitem (textblob_score S text) "label"
           = Ok (PStr (sentiment_label (fst (textblob_sentiment S text))))).
Proof.
  split.
  - intros p. unfold sentiment_label. split; [|split].
    + intros ->. reflexivity.
    + intros Hneg.
      assert ((0.1 <? p)%float = false) as ->.
      { apply float_leb_not_ltb.
        apply float_leb_trans with (y := (-0.1)%float).
        - now apply float_ltb_leb.
        - vm_compute. reflexivity. }
      now rewrite Hneg.
    + intros Hlo Hhi.
      rewrite (float_leb_not_ltb _ _ Hhi), (float_leb_not_ltb _ _ Hlo).
      reflexivity.
  - intros S text. unfold textblob_score.
    destruct (textblob_sentiment S text) as [p q]. split; reflexivity.
Qed.

Lemma sentiment_label_thresholds_witness :
  sentiment_label 0.15 = "Positive"
  /\ sentiment_label (-0.2) = "Negative"
  /\ sentiment_label 0 = "Neutral"
  /\ sentiment_label 0.1 = "Neutral"
  /\ sentiment_label (-0.1) = "Neutral".
Proof.
  pose proof (proj1 sentiment_label_thresholds) as T.
  split; [apply (T 0.15%float); vm_compute; reflexivity|].
  split; [apply (T (-0.2)%float); vm_compute; reflexivity|].
  split; [apply (T 0%float); vm_compute; reflexivity|].
  split; [apply (T 0.1%float); vm_compute; reflexivity|].
  apply (T (-0.1)%float); vm_compute; reflexivity.
Defined.

(** Collaborators for the examples: a codec that knows a handful of texts,
    a TextBlob that scores every text alike, and a remote model that is
    down, silent, or answers with a fixed text. *)
Definition table_codec : json_codec :=
  {| json_dumps := fun v =>
       match v with
       | PInt 1 => Ok "1"
       | PList [PInt 1] => Ok "[1]"
       | PDict [] => Ok "{}"
       | PList [] => Ok "[]"
       | _ => Raise TypeError
       end;
     json_loads := fun s =>
       if String.eqb s "1" then Ok (PInt 1)
       else if String.eqb s "[1]" then Ok (PList [PInt 1])
       else if String.eqb s "{}" then Ok (PDict [])
       else if String.eqb s "[]" then Ok (PList [])
       else Raise JSONDecodeError |}.

Definition services_answering (reply : exn (option string)) : services :=
  {| groq_configured := false;
     audio_transcriptions_create := fun _ =>
       Ok {| response_text := "We shipped the release.";
             response_segments := None; response_language := None |};
     chat_completions_create := fun _ _ _ => reply;
     textblob_sentiment := fun _ => (0.5%float, 0.5%float);
     tfidf_feature_names := fun _ => Ok ["release"; "shipped"];
     lda_components := fun n _ =>
       if n <? 1 then Raise ValueError
       else Ok (repeat [0.75%float; 0.5%float] (Z.to_nat n)) |}.

(** C3, as the claim states it, fails: with the remote model down the
    stage returns None, and the lexical score with it. *)
Lemma analyze_sentiment_remote_down :
  analysis_chat (services_answering (Raise (Exception "timeout")))
                (sentiment_prompt "We shipped the release.")
  = Raise (Exception "timeout")
  /\ analyze_sentiment table_codec
       (services_answering (Raise (Exception "timeout")))
       "We shipped the release." = PNone
  /\ py_getitem (analyze_sentiment table_codec
                   (services_answering (Raise (Exception "timeout")))
                   "We shipped the release.") "textblob"
     = Raise TypeError.
Proof. repeat split. Qed.

(** C3, amended.  When the remote call raises, or answers with a text that
    is not JSON, the sentiment stage returns None.  When the answer has no
    content the stage returns the lexical score with an empty model
    analysis, and when the answer parses, the lexical score with the parsed
    analysis. *)
Theorem analyze_sentiment_outcomes :
  forall (J : json_codec) (S : services) (text : string),
    (forall e, analysis_chat S (sentiment_prompt text) = Raise e ->
               analyze_sentiment J S text = PNone)
    /\ (forall content s e,
          analysis_chat S (sentiment_prompt text) = Ok content ->
          has_content content = Some s -> json_loads J s = Raise e ->
          analyze_sentiment J S text = PNone)
    /\ (forall content,
          analysis_chat S (sentiment_prompt text) = Ok content ->
          has_content content = None ->
          analyze_sentiment J S text
          = PDict [("textblob", textblob_score S text);
                   ("ai_analysis", PDict [])])
    /\ (forall content s v,
          analysis_chat S (sentiment_prompt text) = Ok content ->
          has_content content = Some s -> json_loads J s = Ok v ->
          analyze_sentiment J S text
          = PDict [("textblob", textblob_score S text);
                   ("ai_analysis", v)]).
Proof.
  intros J S text. unfold analyze_sentiment.
  split; [|split; [|split]].
  - intros e ->. reflexivity.
  - intros content s e -> E1 E2. simpl. now rewrite E1, E2.
  - intros content -> E1. simpl. now rewrite E1.
  - intros content s v -> E1 E2. simpl. now rewrite E1, E2.
Qed.

Lemma analyze_sentiment_outcomes_witness :
  analyze_sentiment table_codec
    (services_answering (Raise (Exception "timeout"))) "fine" = PNone
  /\ analyze_sentiment table_codec
       (services_answering (Ok (Some "not json"))) "fine" = PNone
  /\ analyze_sentiment table_codec (services_answering (Ok None)) "fine"
     = PDict [("textblob", textblob_score (services_answering (Ok None)) "fine");
              ("ai_analysis", PDict [])]
  /\ analyze_sentiment table_codec (services_answering (Ok (Some "[1]"))) "fine"
     = PDict [("textblob",
               textblob_score (services_answering (Ok (Some "[1]"))) "fine");
              ("ai_analysis", PList [PInt 1])].
Proof.
  split; [|split; [|split]].
  - apply (analyze_sentiment_outcomes table_codec
             (services_answering (Raise (Exception "timeout"))) "fine")
      with (e := Exception "timeout").
    reflexivity.
  - apply (analyze_sentiment_outcomes table_codec
             (services_answering (Ok (Some "not json"))) "fine")
      with (content := Some "not json") (s := "not json") (e := JSONDecodeError);
      reflexivity.
  - apply (analyze_sentiment_outcomes table_codec
             (services_answering (Ok None)) "fine") with (content := None);
      reflexivity.
  - apply (analyze_sentiment_outcomes table_codec
             (services_answering (Ok (Some "[1]"))) "fine")
      with (content := Some "[1]") (s := "[1]"); reflexivity.
Defined.

End Sentiment.

(** ** Speaker identification *)

Section Speakers.
Import AiAnalyzer.

(** The input has no segment data: no key [segments], or an empty value
    under it. *)
Definition lacks_segments (transcription_data : pyval) : Prop :=
  match transcription_data with
  | PDict d => match assoc "segments" d with
               | None => True
               | Some v => truthy v = false
               end
  | _ => False
  end.

(** C4, as the claim states it, fails: the confidence of the canned result
    is 0.1, which is not zero. *)
Lemma identify_speakers_confidence_not_zero :
  lacks_segments (PDict [("text", PStr "Hello."); ("segments", PList [])])
  /\ py_getitem (identify_speakers
                   (PDict [("text", PStr "Hello."); ("segments", PList [])]))
                "confidence" = Ok (PFloat 0.1)
  /\ (0.1 =? 0)%float = false
  /\ PFloat 0.1 <> PFloat 0.
Proof.
  repeat split.
  intros E.
  apply (f_equal (fun v => match v with
                           | PFloat f => (0 <? f)%float
                           | _ => false
                           end)) in E.
  vm_compute in E. discriminate.
Qed.

(** C4, amended.  For every input without segment data the result is the
    canned one: one estimated speaker, no speaker segments, and a confidence
    of 0.1. *)
Theorem identify_speakers_without_segments :
  forall transcription_data : pyval,
    lacks_segments transcription_data ->
    identify_speakers transcription_data
    = PDict [("estimated_speakers", PInt 1);
             ("speaker_segments", PList []);
             ("confidence", PFloat 0.1)].
Proof.
  intros td Hno. destruct td as [ | | | | | |d]; try contradiction.
  unfold identify_speakers; simpl in *.
  destruct (assoc "segments" d) as [v|]; simpl.
  - rewrite Hno. reflexivity.
  - reflexivity.
Qed.

Lemma identify_speakers_without_segments_witness :
  identify_speakers (PDict [("text", PStr "Hello."); ("segments", PList [])])
  = PDict [("estimated_speakers", PInt 1);
           ("speaker_segments", PList []);
           ("confidence", PFloat 0.1)].
Proof.
  apply (identify_speakers_without_segments
           (PDict [("text", PStr "Hello."); ("segments", PList [])])).
  reflexivity.
Defined.

(** The branch for inputs with segment data refers to a name the module
    does not define, so the canned result is all the function returns. *)
Lemma identify_speakers_constant (transcription_data : pyval) :
  identify_speakers transcription_data = single_speaker.
Proof.
  unfold identify_speakers.
  destruct (py_contains "segments" transcription_data) as [[|]|]; simpl;
    try reflexivity.
  destruct (py_getitem transcription_data "segments") as [v|]; simpl;
    try reflexivity.
  destruct (truthy v); try reflexivity.
  destruct (py_getitem transcription_data "text") as [t|]; simpl;
    try reflexivity.
  destruct (py_slice_prefix 2000 t); reflexivity.
Qed.

End Speakers.

(** ** The persistence store *)

Section Store.
Import Database.

(** *** Loops, sorting and lookups *)

Lemma mapE_In {A B} (f : A -> exn B) (l : list A) (l' : list B) :
  mapE f l = Ok l' ->
  forall y, In y l' <-> exists x, In x l /\ f x = Ok y.
Proof.
  revert l'. induction l as [|x l IH]; simpl; intros l' E y.
  - injection E as <-. simpl. split; [tauto | intros (x & [] & _)].
  - destruct (f x) as [b|] eqn:Fx; simpl in E; [|discriminate].
    destruct (mapE f l) as [bs|] eqn:Fl; simpl in E; [|discriminate].
    injection E as <-. simpl. rewrite (IH bs eq_refl y). split.
    + intros [<- | (x' & Hin & Hx')]; [exists x | exists x']; auto.
    + intros (x' & [<- | Hin] & Hx').
      * left. congruence.
      * right. exists x'. auto.
Qed.

Lemma mapE_all_ok {A B} (f : A -> exn B) (l : list A) :
  (forall x, In x l -> exists y, f x = Ok y) -> exists l', mapE f l = Ok l'.
Proof.
  induction l as [|x l IH]; simpl; intros Hall.
  - eauto.
  - destruct (Hall x (or_introl eq_refl)) as [y ->].
    destruct IH as [l' ->]; [intros; apply Hall; auto|]. simpl. eauto.
Qed.

Lemma insert_desc_In (r x : row) (l : list row) :
  In x (insert_desc r l) <-> x = r \/ In x l.
Proof.
  induction l as [|a l IH]; simpl.
  - intuition.
  - destruct (date_before r a); simpl; [|intuition].
    rewrite IH. intuition.
Qed.

Lemma order_by_upload_date_desc_In (x : row) (l : list row) :
  In x (order_by_upload_date_desc l) <-> In x l.
Proof.
  unfold order_by_upload_date_desc.
  induction l as [|a l IH]; simpl; [tauto|].
  rewrite insert_desc_In, IH. intuition.
Qed.

Lemma max_rowid_bound (l : list row) (r : row) :
  In r l -> r_id r <= max_rowid l.
Proof.
  induction l as [|a l IH]; simpl; [tauto|].
  intros [<- | Hin]; [|specialize (IH Hin)]; lia.
Qed.

Lemma next_rowid_fresh (db : store) (r : row) :
  In r (rows db) -> r_id r < next_rowid db.
Proof.
  intros Hin. apply max_rowid_bound in Hin. unfold next_rowid. lia.
Qed.

Lemma find_id_filter_same (k : Z) (l : list row) :
  find (fun r => r_id r =? k) (List.filter (fun r => negb (r_id r =? k)) l) = None.
Proof.
  induction l as [|a l IH]; simpl; [reflexivity|].
  destruct (r_id a =? k) eqn:E; simpl; [assumption|]. now rewrite E.
Qed.

Lemma find_id_filter_other (j k : Z) (l : list row) :
  j <> k ->
  find (fun r => r_id r =? j) (List.filter (fun r => negb (r_id r =? k)) l)
  = find (fun r => r_id r =? j) l.
Proof.
  intros Hjk. induction l as [|a l IH]; simpl; [reflexivity|].
  destruct (r_id a =? k) eqn:E; simpl.
  - apply Z.eqb_eq in E. destruct (r_id a =? j) eqn:E'; [|assumption].
    apply Z.eqb_eq in E'. congruence.
  - destruct (r_id a =? j); [reflexivity | assumption].
Qed.

Lemma find_id_app_fresh (k : Z) (l : list row) (r : row) :
  (forall x, In x l -> r_id x <> k) -> r_id r = k ->
  find (fun r => r_id r =? k) (l ++ [r])%list = Some r.
Proof.
  intros Hfresh Hk. induction l as [|a l IH]; simpl.
  - now rewrite (proj2 (Z.eqb_eq _ _) Hk).
  - destruct (r_id a =? k) eqn:E.
    + apply Z.eqb_eq in E. exfalso. apply (Hfresh a); simpl; auto.
    + apply IH. intros x Hx. apply Hfresh. simpl. auto.
Qed.

Definition demo_row (id : Z) (filename date : string) : row :=
  {| r_id := id; r_filename := filename; r_upload_date := date;
     r_transcription := None; r_summary := None; r_sentiment := None;
     r_topics := None; r_speakers := None; r_knowledge_graph := None;
     r_file_size := 1024; r_duration := 180%float |}.

Definition demo_store : store :=
  {| rows := [demo_row 1 "standup.mp4" "2024-05-01 09:00:00";
              demo_row 2 "budget.wav" "2024-05-02 09:00:00";
              demo_row 3 "retro.mp3" "2024-05-03 09:00:00"];
     sqlite_sequence := 3 |}.

Example get_all_meetings_newest_first :
  map m_id (get_all_meetings table_codec false demo_store) = [3; 2; 1]
  /\ get_all_meetings table_codec true demo_store = [].
Proof. split; reflexivity. Qed.

(** *** delete_meeting *)

(** C5, as the claim states it, fails: on a store with no row, deleting
    id 7 reports success although nothing was removed. *)
Lemma delete_meeting_absent_id_succeeds :
  find (fun r => r_id r =? 7) (rows empty_store) = None
  /\ delete_meeting false 7 empty_store = (true, empty_store).
Proof. split; reflexivity. Qed.

(** C5, amended.  [delete_meeting] returns the failure signal exactly when
    the storage fails, and then the store is as before; when the storage
    works it returns success whether or not a row had the id, and no row with
    the id is left. *)
Theorem delete_meeting_result :
  forall (fault : bool) (meeting_id : Z) (db : store),
    fst (delete_meeting fault meeting_id db) = negb fault
    /\ (fault = true -> snd (delete_meeting fault meeting_id db) = db)
    /\ (fault = false ->
        forall r, In r (rows (snd (delete_meeting fault meeting_id db))) ->
                  r_id r <> meeting_id).
Proof.
  intros [|] k db; simpl; repeat split; try discriminate.
  intros _ r Hin. apply filter_In in Hin as [_ Hne].
  intros E. apply Z.eqb_eq in E. rewrite E in Hne. discriminate.
Qed.

Lemma delete_meeting_result_witness :
  fst (delete_meeting true 2 demo_store) = false
  /\ snd (delete_meeting true 2 demo_store) = demo_store
  /\ fst (delete_meeting false 9 demo_store) = true
  /\ r_id (demo_row 3 "retro.mp3" "2024-05-03 09:00:00") <> 2.
Proof.
  split; [apply (delete_meeting_result true 2 demo_store)|].
  split; [apply (delete_meeting_result true 2 demo_store); reflexivity|].
  split; [apply (delete_meeting_result false 9 demo_store)|].
  apply (delete_meeting_result false 2 demo_store); [reflexivity|].
  simpl. auto.
Defined.

(** C9.  When the store holds a row with id [k] and [delete_meeting k]
    succeeds, the rows left are exactly the rows whose id is not [k], each as
    it was and in the same order; [get_meeting_by_id k] then finds nothing,
    and every other id reads as before. *)
Theorem delete_meeting_removes_exactly :
  forall (J : json_codec) (fault : bool) (k : Z) (db : store),
    (exists r, In r (rows db) /\ r_id r = k) ->
    fst (delete_meeting fault k db) = true ->
    let db' := snd (delete_meeting fault k db) in
    (forall r, In r (rows db') <-> In r (rows db) /\ r_id r <> k)
    /\ rows db' = List.filter (fun r => negb (r_id r =? k)) (rows db)
    /\ (forall fault', get_meeting_by_id J fault' k db' = None)
    /\ (forall fault' j, j <> k ->
          get_meeting_by_id J fault' j db' = get_meeting_by_id J fault' j db).
Proof.
  intros J fault k db _ Hok. destruct fault; [discriminate|]. simpl.
  split; [|split; [reflexivity|split]].
  - intros r. rewrite filter_In, negb_true_iff, Z.eqb_neq. tauto.
  - intros fault'. unfold get_meeting_by_id. destruct fault'; [reflexivity|].
    simpl. now rewrite find_id_filter_same.
  - intros fault' j Hj. unfold get_meeting_by_id. destruct fault'; [reflexivity|].
    simpl. now rewrite find_id_filter_other.
Qed.

Lemma delete_meeting_removes_exactly_witness :
  rows (snd (delete_meeting false 2 demo_store))
  = [demo_row 1 "standup.mp4" "2024-05-01 09:00:00";
     demo_row 3 "retro.mp3" "2024-05-03 09:00:00"]
  /\ get_meeting_by_id table_codec false 2
       (snd (delete_meeting false 2 demo_store)) = None
  /\ get_meeting_by_id table_codec false 3
       (snd (delete_meeting false 2 demo_store))
     = get_meeting_by_id table_codec false 3 demo_store.
Proof.
  assert (exists r, In r (rows demo_store) /\ r_id r = 2) as Hrow.
  { exists (demo_row 2 "budget.wav" "2024-05-02 09:00:00"). simpl. auto. }
  pose proof (delete_meeting_removes_exactly table_codec false 2 demo_store
                Hrow eq_refl) as (_ & Hrows & Hgone & Hothers).
  split; [exact Hrows|]. split; [apply Hgone|].
  apply Hothers. discriminate.
Defined.

(** *** save_meeting_data and the readers *)

(** What a reader returns for a field that was saved as [v]. *)
Definition read_back (v : pyval) : pyval := if truthy v then v else PNone.

(** The codec takes [v] to a JSON text from which it gets [v] back; asked
    only of values that are encoded at all. *)
Definition round_trips (J : json_codec) (v : pyval) : Prop :=
  truthy v = true ->
  exists s, json_dumps J v = Ok s /\ s <> "" /\ json_loads J s = Ok v.

Lemma dump_then_load (J : json_codec) (v : pyval) :
  round_trips J v ->
  exists col, dump_field J v = Ok col /\ load_column J col = Ok (read_back v).
Proof.
  unfold round_trips, dump_field, read_back. intros Hrt.
  destruct (truthy v).
  - destruct (Hrt eq_refl) as (s & -> & Hne & Hload). exists (Some s).
    split; [reflexivity|]. simpl.
    destruct (String.eqb_spec s ""); [contradiction | assumption].
  - exists None. split; reflexivity.
Qed.

Lemma row_to_dict_id (J : json_codec) (r : row) (m : meeting) :
  row_to_dict J r = Ok m -> m_id m = r_id r.
Proof.
  unfold row_to_dict.
  destruct (load_column J (r_transcription r)); simpl; [|discriminate].
  destruct (load_column J (r_summary r)); simpl; [|discriminate].
  destruct (load_column J (r_sentiment r)); simpl; [|discriminate].
  destruct (load_column J (r_topics r)); simpl; [|discriminate].
  destruct (load_column J (r_speakers r)); simpl; [|discriminate].
  destruct (load_column J (r_knowledge_graph r)); simpl; [|discriminate].
  intros E. injection E as <-. reflexivity.
Qed.

(** C10.  A field whose argument is falsy is stored as NULL and read back
    as None; a field whose argument is truthy is read back as it was, given
    that the codec round-trips it.  So the record that [get_meeting_by_id]
    and [get_all_meetings] return for a saved meeting holds [read_back v]
    for every structured field [v]: the round trip is the identity on
    non-empty values and sends an empty list, dictionary or string to None. *)
Theorem save_then_read :
  forall (J : json_codec) (now filename : string)
         (transcription summary sentiment topics speakers knowledge_graph : pyval)
         (file_size : Z) (duration : float) (db : store),
    round_trips J transcription -> round_trips J summary ->
    round_trips J sentiment -> round_trips J topics ->
    round_trips J speakers -> round_trips J knowledge_graph ->
    let saved := save_meeting_data J false now filename transcription summary
                   sentiment topics speakers knowledge_graph file_size duration
                   db in
    (forall v, truthy v = false ->
               dump_field J v = Ok None /\ read_back v = PNone
               /\ (v <> PNone -> read_back v <> v))
    /\ (forall v, truthy v = true -> read_back v = v)
    /\ exists k,
         fst saved = Some k
         /\ let record :=
              {| m_id := k; m_filename := filename; m_upload_date := now;
                 m_transcription := read_back transcription;
                 m_summary := read_back summary;
                 m_sentiment := read_back sentiment;
                 m_topics := read_back topics;
                 m_speakers := read_back speakers;
                 m_knowledge_graph := read_back knowledge_graph;
                 m_file_size := file_size; m_duration := duration |} in
            get_meeting_by_id J false k (snd saved) = Some record
            /\ (forall m, In m (get_all_meetings J false (snd saved)) ->
                          m_id m = k -> m = record)
            /\ ((forall r, In r (rows db) -> exists m, row_to_dict J r = Ok m) ->
                In record (get_all_meetings J false (snd saved))).
Proof.
  intros J now filename t s se tp sp kg file_size duration db Ht Hs Hse Htp Hsp Hkg.
  split; [|split].
  { intros v Hv. unfold dump_field, read_back. rewrite Hv.
    split; [reflexivity|]. split; [reflexivity | congruence]. }
  { intros v Hv. unfold read_back. now rewrite Hv. }
  destruct (dump_then_load J t Ht) as (ct & Dt & Lt).
  destruct (dump_then_load J s Hs) as (cs & Ds & Ls).
  destruct (dump_then_load J se Hse) as (cse & Dse & Lse).
  destruct (dump_then_load J tp Htp) as (ctp & Dtp & Ltp).
  destruct (dump_then_load J sp Hsp) as (csp & Dsp & Lsp).
  destruct (dump_then_load J kg Hkg) as (ckg & Dkg & Lkg).
  exists (next_rowid db).
  unfold save_meeting_data. simpl.
  rewrite Dt; simpl. rewrite Ds; simpl. rewrite Dse; simpl.
  rewrite Dtp; simpl. rewrite Dsp; simpl. rewrite Dkg; simpl.
  set (new := {| r_id := next_rowid db; r_filename := filename;
                 r_upload_date := now; r_transcription := ct;
                 r_summary := cs; r_sentiment := cse; r_topics := ctp;
                 r_speakers := csp; r_knowledge_graph := ckg;
                 r_file_size := file_size; r_duration := duration |}).
  set (record := {| m_id := next_rowid db; m_filename := filename;
                    m_upload_date := now;
                    m_transcription := read_back t; m_summary := read_back s;
                    m_sentiment := read_back se; m_topics := read_back tp;
                    m_speakers := read_back sp;
                    m_knowledge_graph := read_back kg;
                    m_file_size := file_size; m_duration := duration |}).
  assert (row_to_dict J new = Ok record) as Hnew.
  { unfold row_to_dict, new; simpl.
    rewrite Lt; simpl. rewrite Ls; simpl. rewrite Lse; simpl.
    rewrite Ltp; simpl. rewrite Lsp; simpl. rewrite Lkg; simpl. reflexivity. }
  assert (forall x, In x (rows db) -> r_id x <> next_rowid db) as Hfresh.
  { intros x Hx. apply next_rowid_fresh in Hx. lia. }
  split; [reflexivity|]. split; [|split].
  - unfold get_meeting_by_id. simpl.
    rewrite (find_id_app_fresh (next_rowid db) (rows db) new Hfresh eq_refl).
    now rewrite Hnew.
  - unfold get_all_meetings. simpl.
    destruct (mapE (row_to_dict J)
                (order_by_upload_date_desc (rows db ++ [new])%list))
      as [l|] eqn:E; simpl; [|tauto].
    intros m Hm Hid.
    apply (mapE_In _ _ _ E) in Hm as (x & Hx & Hxm).
    apply order_by_upload_date_desc_In, in_app_or in Hx.
    pose proof (row_to_dict_id J x m Hxm) as Hidx.
    destruct Hx as [Hx | [<- | []]].
    + exfalso. apply (Hfresh x Hx). congruence.
    + congruence.
  - intros Hall. unfold get_all_meetings. simpl.
    destruct (mapE_all_ok (row_to_dict J)
                (order_by_upload_date_desc (rows db ++ [new])%list))
      as [l E].
    { intros x Hx. apply order_by_upload_date_desc_In, in_app_or in Hx.
      destruct Hx as [Hx | [<- | []]]; [auto | eauto]. }
    rewrite E. simpl. apply (mapE_In _ _ _ E). exists new.
    split; [|assumption].
    apply order_by_upload_date_desc_In, in_or_app. right. simpl. auto.
Qed.

Lemma save_then_read_witness :
  let saved := save_meeting_data table_codec false "2024-05-04 10:00:00"
                 "planning.mp3" (PList [PInt 1]) (PInt 1) (PStr "") (PList [])
                 PNone (PDict []) 2048 60%float demo_store in
  fst saved = Some 4
  /\ get_meeting_by_id table_codec false 4 (snd saved)
     = Some {| m_id := 4; m_filename := "planning.mp3";
               m_upload_date := "2024-05-04 10:00:00";
               m_transcription := PList [PInt 1]; m_summary := PInt 1;
               m_sentiment := PNone; m_topics := PNone; m_speakers := PNone;
               m_knowledge_graph := PNone;
               m_file_size := 2048; m_duration := 60%float |}
  /\ In {| m_id := 4; m_filename := "planning.mp3";
           m_upload_date := "2024-05-04 10:00:00";
           m_transcription := PList [PInt 1]; m_summary := PInt 1;
           m_sentiment := PNone; m_topics := PNone; m_speakers := PNone;
           m_knowledge_graph := PNone;
           m_file_size := 2048; m_duration := 60%float |}
        (get_all_meetings table_codec false (snd saved)).
Proof.
  assert (forall v, In v [PList [PInt 1]; PInt 1; PStr ""; PList []; PNone;
                          PDict []] -> round_trips table_codec v) as Hrt.
  { intros v Hv. simpl in Hv.
    destruct Hv as [<-|[<-|[<-|[<-|[<-|[<-|[]]]]]]]; intros Htruthy;
      try discriminate.
    - exists "[1]". repeat split. discriminate.
    - exists "1". repeat split. discriminate. }
  destruct (save_then_read table_codec "2024-05-04 10:00:00" "planning.mp3"
              (PList [PInt 1]) (PInt 1) (PStr "") (PList []) PNone (PDict [])
              2048 60%float demo_store)
    as (_ & _ & k & Hk & Hget & _ & Hall);
    try (apply Hrt; simpl; tauto).
  simpl in Hk. injection Hk as <-.
  split; [reflexivity|]. split; [exact Hget|].
  apply Hall. intros r Hr. simpl in Hr.
  destruct Hr as [<-|[<-|[<-|[]]]]; eexists; reflexivity.
Defined.

(** *** LIKE and search_meetings *)

Definition is_wildcard (c : ascii) : bool := Ascii.eqb c "%" || Ascii.eqb c "_".

Definition no_wildcard (query : string) : bool :=
  forallb (fun c => negb (is_wildcard c)) (chars query).

(** [query] occurs in [s] up to the case of ASCII letters. *)
Definition contains_ignoring_case (query s : string) : bool :=
  occurs_in (map fold_case (chars query)) (map fold_case (chars s)).

Definition is_nul (c : ascii) : bool := (code c =? 0)%N.

Definition no_nul (s : string) : bool :=
  forallb (fun c => negb (is_nul c)) (chars s).

(** The text up to its first NUL: what LIKE compares. *)
Definition up_to_nul (s : string) : string := str (c_string (chars s)).

Fixpoint equal_text (q t : text) : bool :=
  match q, t with
  | [], [] => true
  | a :: q', b :: t' => Ascii.eqb a b && equal_text q' t'
  | _, _ => false
  end.

Fixpoint ends_with (q t : text) : bool :=
  equal_text q t || match t with [] => false | _ :: t' => ends_with q t' end.

(** [s] ends with [query] up to the case of ASCII letters. *)
Definition ends_ignoring_case (query s : string) : bool :=
  ends_with (map fold_case (chars query)) (map fold_case (chars s)).

Lemma chars_append (a b : string) : chars (a ++ b) = (chars a ++ chars b)%list.
Proof. induction a as [|c a IH]; simpl; [reflexivity|]. now rewrite <- IH. Qed.

Lemma chars_str (t : text) : chars (str t) = t.
Proof. apply list_ascii_of_string_of_list_ascii. Qed.

Lemma str_chars (s : string) : str (chars s) = s.
Proof. apply string_of_list_ascii_of_string. Qed.

Lemma like_percent (p t : text) :
  like ("%"%char :: p) t
  = like p t || match t with [] => false | _ :: t' => like ("%"%char :: p) t' end.
Proof. destruct t; reflexivity. Qed.

Lemma like_percent_only (t : text) : like ["%"%char] t = true.
Proof.
  induction t as [|c t IH]; rewrite like_percent; [reflexivity|].
  rewrite IH. apply orb_true_r.
Qed.

Lemma like_literal (x : ascii) (p t : text) :
  is_wildcard x = false ->
  like (x :: p) t
  = match t with
    | [] => false
    | c :: t' => Ascii.eqb (fold_case x) (fold_case c) && like p t'
    end.
Proof.
  unfold is_wildcard. intros Hx. apply orb_false_elim in Hx as [H1 H2].
  simpl. rewrite H1, H2. reflexivity.
Qed.

Lemma like_literal_prefix (q t : text) :
  forallb (fun c => negb (is_wildcard c)) q = true ->
  like (q ++ ["%"%char])%list t = starts_with (map fold_case q) (map fold_case t).
Proof.
  revert t. induction q as [|x q IH]; intros t Hq.
  - apply like_percent_only.
  - simpl in Hq. apply andb_prop in Hq as [Hx Hq].
    apply negb_true_iff in Hx.
    change ((x :: q) ++ ["%"%char])%list with (x :: (q ++ ["%"%char]))%list.
    rewrite (like_literal _ _ _ Hx). destruct t as [|c t]; [reflexivity|].
    simpl. now rewrite IH.
Qed.

Lemma like_contains (q t : text) :
  forallb (fun c => negb (is_wildcard c)) q = true ->
  like ("%"%char :: q ++ ["%"%char])%list t
  = occurs_in (map fold_case q) (map fold_case t).
Proof.
  intros Hq. induction t as [|c t IH].
  - rewrite like_percent, (like_literal_prefix _ _ Hq). simpl.
    now rewrite orb_false_r.
  - rewrite like_percent, (like_literal_prefix _ _ Hq), IH. reflexivity.
Qed.

Lemma like_own_prefix (q rest : text) :
  like (q ++ ["%"%char])%list (q ++ rest)%list = true.
Proof.
  induction q as [|x q IH].
  - apply like_percent_only.
  - change (like (x :: (q ++ ["%"%char]))%list (x :: (q ++ rest))%list = true).
    destruct (is_wildcard x) eqn:Hx.
    + unfold is_wildcard in Hx. destruct (Ascii.eqb_spec x "%") as [->|Hp].
      * rewrite like_percent. rewrite (like_percent _ (q ++ rest)%list), IH.
        apply orb_true_r.
      * simpl in Hx. apply Ascii.eqb_eq in Hx as ->. simpl. exact IH.
    + rewrite (like_literal _ _ _ Hx), Ascii.eqb_refl, IH. reflexivity.
Qed.

Lemma starts_with_split (q t : text) :
  starts_with q t = true -> exists rest, t = (q ++ rest)%list.
Proof.
  revert t. induction q as [|x q IH]; intros t H.
  - exists t. reflexivity.
  - destruct t as [|c t]; [discriminate|]. simpl in H.
    apply andb_prop in H as [Hx Hq]. apply Ascii.eqb_eq in Hx as ->.
    destruct (IH t Hq) as [rest ->]. exists rest. reflexivity.
Qed.

Lemma like_written_prefix (q t : text) :
  starts_with q t = true -> like (q ++ ["%"%char])%list t = true.
Proof.
  intros H. destruct (starts_with_split _ _ H) as [rest E]. subst t.
  apply like_own_prefix.
Qed.

Lemma like_substring (q t : text) :
  occurs_in q t = true -> like ("%"%char :: q ++ ["%"%char])%list t = true.
Proof.
  induction t as [|c t IH]; intros H; rewrite like_percent; simpl in H;
    apply orb_prop in H as [H | H]; try discriminate.
  - now rewrite (like_written_prefix _ _ H).
  - now rewrite (like_written_prefix _ _ H).
  - rewrite (IH H). apply orb_true_r.
Qed.

Lemma chars_pattern (query : string) :
  chars ("%" ++ query ++ "%") = ("%"%char :: chars query ++ ["%"%char])%list.
Proof.
  change (chars ("%" ++ query ++ "%"))
    with ("%"%char :: chars (query ++ "%"))%list.
  now rewrite chars_append.
Qed.

(** C1, as the claim states it, fails: the query BUDGET returns the
    meeting whose file is budget.wav, and the query b_dget does too, although
    neither text occurs in the file name and the row has no transcription and
    no summary. *)
Lemma search_meetings_not_case_sensitive :
  search_meetings table_codec false "BUDGET" demo_store
  = [{| m_id := 2; m_filename := "budget.wav";
        m_upload_date := "2024-05-02 09:00:00";
        m_transcription := PNone; m_summary := PNone; m_sentiment := PNone;
        m_topics := PNone; m_speakers := PNone; m_knowledge_graph := PNone;
        m_file_size := 1024; m_duration := 180%float |}]
  /\ is_substring "BUDGET" "budget.wav" = false
  /\ search_meetings table_codec false "b_dget" demo_store
     = search_meetings table_codec false "BUDGET" demo_store
  /\ is_substring "b_dget" "budget.wav" = false
  /\ r_transcription (demo_row 2 "budget.wav" "2024-05-02 09:00:00") = None
  /\ r_summary (demo_row 2 "budget.wav" "2024-05-02 09:00:00") = None.
Proof. repeat split. Qed.

Lemma c_string_app_no_nul (q r : text) :
  forallb (fun c => negb (is_nul c)) q = true ->
  c_string (q ++ r)%list = (q ++ c_string r)%list.
Proof.
  induction q as [|c q IH]; simpl; [reflexivity|]. intros Hq.
  apply andb_prop in Hq as [Hc Hq]. unfold is_nul in Hc.
  apply negb_true_iff in Hc. rewrite Hc. now rewrite IH.
Qed.

Lemma c_string_app_nul (q r : text) :
  forallb (fun c => negb (is_nul c)) q = false ->
  c_string (q ++ r)%list = c_string q.
Proof.
  induction q as [|c q IH]; simpl; [discriminate|]. unfold is_nul at 1.
  destruct (code c =? 0)%N; simpl; [reflexivity|]. intros Hq. now rewrite IH.
Qed.

Lemma c_string_no_nul (q : text) :
  forallb (fun c => negb (is_nul c)) q = true -> c_string q = q.
Proof.
  intros Hq. rewrite <- (app_nil_r q) at 1.
  rewrite (c_string_app_no_nul _ _ Hq). apply app_nil_r.
Qed.

(** The pattern [%query%] as LIKE reads it: cut at the first NUL of the
    query, and then without the closing [%]. *)
Lemma c_string_pattern (query : string) :
  c_string (chars ("%" ++ query ++ "%"))
  = if no_nul query then ("%"%char :: chars query ++ ["%"%char])%list
    else ("%"%char :: c_string (chars query))%list.
Proof.
  rewrite chars_pattern. change (c_string ("%"%char :: ?l))
    with ("%"%char :: c_string l). unfold no_nul.
  destruct (forallb (fun c => negb (is_nul c)) (chars query)) eqn:Hq.
  - now rewrite (c_string_app_no_nul _ _ Hq).
  - now rewrite (c_string_app_nul _ _ Hq).
Qed.

Lemma like_literal_exact (q t : text) :
  forallb (fun c => negb (is_wildcard c)) q = true ->
  like q t = equal_text (map fold_case q) (map fold_case t).
Proof.
  revert t. induction q as [|x q IH]; intros t Hq.
  - destruct t; reflexivity.
  - simpl in Hq. apply andb_prop in Hq as [Hx Hq].
    apply negb_true_iff in Hx. rewrite (like_literal _ _ _ Hx).
    destruct t as [|c t]; [reflexivity|]. simpl. now rewrite IH.
Qed.

Lemma like_ends (q t : text) :
  forallb (fun c => negb (is_wildcard c)) q = true ->
  like ("%"%char :: q) t = ends_with (map fold_case q) (map fold_case t).
Proof.
  intros Hq. induction t as [|c t IH].
  - rewrite like_percent, (like_literal_exact _ _ Hq). simpl.
    now rewrite orb_false_r.
  - rewrite like_percent, (like_literal_exact _ _ Hq), IH. reflexivity.
Qed.

(** C1, amended.  For a query whose pattern is within SQLite's length
    bound, and a store whose matching rows hold JSON, [search_meetings]
    returns exactly the records of the rows whose filename, stored
    transcription or stored summary is LIKE [%query%]; a NULL column never
    matches.  LIKE reads a text up to its first NUL.  For a query without
    NUL, a text that contains the query as it is written always matches,
    and if the query has no [%] and [_] either, matching is containing the
    query up to the case of ASCII letters.  A query with a NUL is cut there
    and loses the closing [%]: if what is left has no [%] and [_], matching
    is ending with it, up to the case of ASCII letters. *)
Theorem search_meetings_like :
  forall (J : json_codec) (query : string) (db : store),
    byte_length ("%" ++ query ++ "%") <= SQLITE_MAX_LIKE_PATTERN_LENGTH ->
    (forall r, In r (rows db) -> matches ("%" ++ query ++ "%") r = true ->
               exists m, row_to_dict J r = Ok m) ->
    (forall m, In m (search_meetings J false query db) <->
               exists r, In r (rows db)
                         /\ (sql_like (Some (r_filename r)) ("%" ++ query ++ "%")
                             || sql_like (r_transcription r) ("%" ++ query ++ "%")
                             || sql_like (r_summary r) ("%" ++ query ++ "%")) = true
                         /\ row_to_dict J r = Ok m)
    /\ sql_like None ("%" ++ query ++ "%") = false
    /\ (no_nul query = true ->
        (forall s, is_substring query (up_to_nul s) = true ->
                   sql_like (Some s) ("%" ++ query ++ "%") = true)
        /\ (no_wildcard query = true ->
            forall s, sql_like (Some s) ("%" ++ query ++ "%")
                      = contains_ignoring_case query (up_to_nul s)))
    /\ (no_nul query = false ->
        no_wildcard (up_to_nul query) = true ->
        forall s, sql_like (Some s) ("%" ++ query ++ "%")
                  = ends_ignoring_case (up_to_nul query) (up_to_nul s)).
Proof.
  intros J query db Hlen Hjson. split; [|split; [reflexivity|split]].
  - unfold search_meetings. simpl.
    apply Z.ltb_ge in Hlen. rewrite Hlen. simpl.
    set (pat := "%" ++ query ++ "%") in *.
    destruct (mapE_all_ok (row_to_dict J)
                (order_by_upload_date_desc (List.filter (matches pat) (rows db))))
      as [l E].
    { intros x Hx. apply order_by_upload_date_desc_In, filter_In in Hx as [Hx Hm].
      auto. }
    rewrite E. simpl. intros m. rewrite (mapE_In _ _ _ E). split.
    + intros (r & Hr & Hm).
      apply order_by_upload_date_desc_In, filter_In in Hr as [Hr Hmatch].
      exists r. auto.
    + intros (r & Hr & Hmatch & Hm). exists r. split; [|assumption].
      apply order_by_upload_date_desc_In, filter_In. auto.
  - intros Hnul. split.
    + intros s Hsub. unfold sql_like. rewrite c_string_pattern, Hnul.
      unfold is_substring, up_to_nul in Hsub. rewrite chars_str in Hsub.
      now apply like_substring.
    + intros Hq s. unfold sql_like, contains_ignoring_case, up_to_nul.
      rewrite c_string_pattern, Hnul, chars_str. now apply like_contains.
  - intros Hnul Hq s. unfold sql_like, ends_ignoring_case, up_to_nul.
    rewrite c_string_pattern, Hnul, !chars_str.
    unfold no_wildcard, up_to_nul in Hq. rewrite chars_str in Hq.
    now apply like_ends.
Qed.

Lemma search_meetings_like_witness :
  (In {| m_id := 2; m_filename := "budget.wav";
         m_upload_date := "2024-05-02 09:00:00";
         m_transcription := PNone; m_summary := PNone; m_sentiment := PNone;
         m_topics := PNone; m_speakers := PNone; m_knowledge_graph := PNone;
         m_file_size := 1024; m_duration := 180%float |}
      (search_meetings table_codec false "Budget" demo_store))
  /\ sql_like (Some "Q3 budget review") "%Budget%" = true.
Proof.
  assert (byte_length ("%" ++ "Budget" ++ "%") <= SQLITE_MAX_LIKE_PATTERN_LENGTH)
    as Hlen by (vm_compute; discriminate).
  assert (forall r, In r (rows demo_store) ->
                    matches ("%" ++ "Budget" ++ "%") r = true ->
                    exists m, row_to_dict table_codec r = Ok m) as Hjson.
  { intros r Hr _. simpl in Hr.
    destruct Hr as [<-|[<-|[<-|[]]]]; eexists; reflexivity. }
  pose proof (search_meetings_like table_codec "Budget" demo_store Hlen Hjson)
    as (Hin & _ & Hnn & _).
  destruct (Hnn eq_refl) as [_ Hci].
  split.
  - apply Hin. exists (demo_row 2 "budget.wav" "2024-05-02 09:00:00").
    repeat split. simpl. auto.
  - change (sql_like (Some "Q3 budget review") ("%" ++ "Budget" ++ "%") = true).
    rewrite (Hci eq_refl "Q3 budget review"). reflexivity.
Defined.

(** A NUL in the query or in the text: the query NUL zzz is read as [%] and
    returns every row; the query bud NUL get is read as [%bud], which
    budget.wav does not end with; and tail is not found in a name that holds
    it behind a NUL. *)
Example search_meetings_cut_at_nul :
  List.length (search_meetings table_codec false (String "000" "zzz") demo_store)
  = 3%nat
  /\ search_meetings table_codec false ("bud" ++ String "000" "get") demo_store
     = []
  /\ sql_like (Some ("nul" ++ String "000" "tail.mp3")) "%tail%" = false
  /\ sql_like (Some ("nul" ++ String "000" "tail.mp3")) "%NUL%" = true.
Proof. repeat split. Qed.

End Store.

(** ** The audio normaliser *)

Section Audio.
Import AudioProcessor.

Definition wav_16k_mono : audio_format :=
  {| codec := "pcm_s16le"; sample_rate := 16000; channels := 1 |}.

Lemma convert_to_wav_outcome (H : host) (input_path output_path : string)
    (σ : gmap string media) :
  (fst (convert_to_wav H input_path output_path σ) = false
   /\ (snd (convert_to_wav H input_path output_path σ) = σ
       \/ exists partial,
            snd (convert_to_wav H input_path output_path σ)
            = <[output_path := partial]> σ))
  \/ (fst (convert_to_wav H input_path output_path σ) = true
      /\ exists m, σ !! input_path = Some m
         /\ snd (convert_to_wav H input_path output_path σ)
            = <[output_path := {| magic_mime := Ok "audio/x-wav";
                                  stream := Some wav_16k_mono;
                                  millis := millis m |}]> σ).
Proof.
  unfold convert_to_wav, ffmpeg. simpl.
  destruct (String.eqb input_path output_path); [left; split; auto|].
  destruct (σ !! input_path) as [m|]; [|left; split; auto].
  assert (forall fs : gmap string media,
             fs = match ffmpeg_leftover H
                          ["ffmpeg"; "-i"; input_path; "-acodec"; "pcm_s16le";
                           "-ar"; "16000"; "-ac"; "1"; "-y"; output_path] m with
                  | Some partial => <[output_path := partial]> σ
                  | None => σ
                  end ->
             fs = σ \/ exists partial, fs = <[output_path := partial]> σ)
    as Hfailed.
  { intros fs ->. destruct (ffmpeg_leftover H _ m); eauto. }
  destruct (stream m) as [f|]; [|left; split; [reflexivity | now apply Hfailed]].
  destruct (ffmpeg_succeeds H _ m);
    [|left; split; [reflexivity | now apply Hfailed]].
  right. simpl. split; [reflexivity|]. exists m. split; reflexivity.
Qed.

Lemma process_audio_file_outcome (H : host) (up : uploaded_file)
    (σ : gmap string media) :
  let inp := temp_input_path_of H up in
  let out := py_replace inp (split_dot_last inp) "wav" in
  let σ1 := <[inp := contents up]> σ in
  let r := process_audio_file H up σ in
  (fst r = None /\ snd r !! inp = None)
  \/ (fst r = Some inp /\ snd r = σ1
      /\ magic_mime (contents up) = Ok "audio/wav")
  \/ (exists mime,
        fst r = Some out
        /\ magic_mime (contents up) = Ok mime
        /\ mem mime supported_types = true
        /\ mime <> "audio/wav"
        /\ let σ2 := <[out := {| magic_mime := Ok "audio/x-wav";
                                 stream := Some wav_16k_mono;
                                 millis := millis (contents up) |}]> σ1 in
           snd r = if String.eqb inp out then σ2 else delete inp σ2).
Proof.
  intros inp out σ1 r. subst r.
  unfold process_audio_file, process_audio_file_body.
  fold inp. fold out. unfold mbind, io_bind, mret, io_ret, raise. 
  fold σ1.
  assert (σ1 !! inp = Some (contents up)) as Hin by apply lookup_insert_eq.
  assert (os_unlink inp σ1 = (Ok tt, delete inp σ1)) as Hunlink.
  { unfold os_unlink. now rewrite Hin. }
  unfold detect_file_type. rewrite Hin.
  destruct (magic_mime (contents up)) as [mime|e] eqn:Hmime;
    cbn [try_except fmap exn_fmap].
  2:{ left. rewrite Hunlink. split; [reflexivity | apply lookup_delete_eq]. }
  destruct (String.eqb mime "" || negb (mem mime supported_types)) eqn:Hsup.
  { left. rewrite Hunlink. split; [reflexivity | apply lookup_delete_eq]. }
  apply orb_false_elim in Hsup as [_ Hsup]. apply negb_false_iff in Hsup.
  destruct (py_startswith mime "video/" || negb (String.eqb mime "audio/wav"))
    eqn:Hconv.
  - destruct (convert_to_wav_outcome H inp out σ1) as [[Hf Hs] | [Hf (m & Hm & Hs)]].
    + destruct (convert_to_wav H inp out σ1) as [ok σ']. cbn [fst snd] in Hf, Hs.
      subst ok. cbn [negb]. left. unfold os_unlink.
      destruct (σ' !! inp) eqn:E; cbn [fst snd];
        [split; [reflexivity | apply lookup_delete_eq] | split; [reflexivity | exact E]].
    + destruct (convert_to_wav H inp out σ1) as [ok σ']. cbn [fst snd] in Hf, Hs.
      subst ok. cbn [negb]. right. right. exists mime.
      rewrite Hin in Hm. injection Hm as <-.
      assert (mime <> "audio/wav") as Hne.
      { intros ->. vm_compute in Hconv. discriminate. }
      destruct (String.eqb inp out) eqn:Hio; cbn [negb fst snd].
      * subst σ'. repeat split; auto.
      * unfold os_unlink.
        assert (σ' !! inp = Some (contents up)) as ->.
        { subst σ'. rewrite lookup_insert_ne; [assumption|].
          intros E. apply String.eqb_neq in Hio. congruence. }
        cbn [fst snd]. subst σ'. repeat split; auto.
  - apply orb_false_elim in Hconv as [_ Hwav].
    apply negb_false_iff, String.eqb_eq in Hwav. subst mime.
    rewrite String.eqb_refl. cbn [negb fst snd]. right. left. repeat split.
Qed.




Definition demo_host : host :=
  {| temp_stem := "/tmp/tmpa1b2c3d4";
     ffmpeg_succeeds := fun _ _ => true;
     ffmpeg_leftover := fun _ _ => None |}.

Definition stereo_wav_upload : uploaded_file :=
  {| name := "call.wav";
     contents := {| magic_mime := Ok "audio/wav";
                    stream := Some {| codec := "pcm_s16le";
                                      sample_rate := 44100; channels := 2 |};
                    millis := 180000 |};
     size := 31752044 |}.

Definition mp4_upload : uploaded_file :=
  {| name := "standup.mp4";
     contents := {| magic_mime := Ok "video/mp4";
                    stream := Some {| codec := "aac";
                                      sample_rate := 48000; channels := 2 |};
                    millis := 180000 |};
     size := 7340032 |}.




(** The code has a branch for the type audio/wav, which skips FFmpeg and
    returns the upload as it is; it is not taken for a type libmagic
    names. *)
Example audio_wav_branch_skips_conversion :
  fst (process_audio_file demo_host stereo_wav_upload ∅)
  = Some "/tmp/tmpa1b2c3d4.wav"
  /\ snd (process_audio_file demo_host stereo_wav_upload ∅)
       !! "/tmp/tmpa1b2c3d4.wav"
     = Some (contents stereo_wav_upload).
Proof. split; [reflexivity | vm_compute; reflexivity]. Qed.

End Audio.

(** ** The pipeline *)

Section Pipeline.
Import AudioProcessor AiAnalyzer FileUpload.

Variable J : json_codec.
Variable S : services.
Variable H : host.
Variable now : string.
Variable db_fault : bool.

(** What is left of [process_meeting_file] once the audio path is known:
    the [try] block and its handler. *)
Definition after_normalization (up : uploaded_file) (audio_path : string)
    (w1 : world) : world :=
  match pipeline_body J S now db_fault up audio_path w1 with
  | (Ok _, w') => w'
  | (Raise _, w') =>
      if os_path_exists audio_path (files w')
      then snd (unlink audio_path w') else w'
  end.

Lemma after_unlink (p : string) (w : world) :
  let final := match unlink p w with
               | (Ok _, w') => w'
               | (Raise _, w') =>
                   if os_path_exists p (files w')
                   then snd (unlink p w') else w'
               end in
  files final = delete p (files w) /\ db final = db w.
Proof.
  unfold unlink, os_unlink, os_path_exists.
  destruct (files w !! p) eqn:E; simpl.
  - split; reflexivity.
  - rewrite E. split; [|reflexivity]. symmetry. now apply delete_id.
Qed.

Lemma after_normalization_files (up : uploaded_file) (p : string) (w1 : world) :
  files (after_normalization up p w1) = delete p (files w1).
Proof.
  unfold after_normalization, pipeline_body.
  unfold mbind, io_bind, mret, io_ret, lift.
  destruct (truthy (transcribe_audio S p (files w1))); cbn [negb].
  2:{ apply (after_unlink p w1). }
  destruct (exn_bind _ _ as_str _) as [text|e].
  2:{ unfold os_path_exists, unlink, os_unlink.
      destruct (files w1 !! p) eqn:E; simpl; [reflexivity|].
      symmetry. now apply delete_id. }
  destruct (truthy (generate_meeting_summary J S text)); cbn [negb].
  2:{ apply (after_unlink p w1). }
  destruct (Database.save_meeting_data _ _ _ _ _ _ _ _ _ _ _ _ _) as [id db'].
  apply (after_unlink p {| files := files w1; db := db' |}).
Qed.


Lemma process_meeting_file_unfold (up : uploaded_file) (w : world) :
  process_meeting_file J S H now db_fault up w
  = let w1 := {| files := snd (process_audio_file H up (files w)); db := db w |} in
    match fst (process_audio_file H up (files w)) with
    | None => w1
    | Some p => if String.eqb p "" then w1 else after_normalization up p w1
    end.
Proof.
  unfold process_meeting_file, after_normalization.
  destruct (process_audio_file H up (files w)) as [[p|] σ]; reflexivity.
Qed.

Lemma temp_input_path_nonempty (up : uploaded_file) :
  temp_input_path_of H up <> "".
Proof.
  unfold temp_input_path_of. destruct (temp_stem H); simpl; discriminate.
Qed.

Lemma py_replace_wav_nonempty (s old : string) :
  s <> "" -> py_replace s old "wav" <> "".
Proof.
  intros Hs. unfold py_replace. destruct (chars old) as [|o os]; simpl.
  - discriminate.
  - destruct s as [|c s]; [contradiction|]. simpl.
    destruct (Ascii.eqb o c && starts_with os (chars s)); simpl; discriminate.
Qed.

Lemma normalized_path_nonempty (up : uploaded_file) (σ : gmap string media)
    (p : string) :
  fst (process_audio_file H up σ) = Some p -> p <> "".
Proof.
  intros Hp.
  destruct (process_audio_file_outcome H up σ)
    as [[Hr _] | [(Hr & _) | (mime & Hr & _)]];
    rewrite Hr in Hp; [discriminate | |]; injection Hp as <-.
  - apply temp_input_path_nonempty.
  - apply py_replace_wav_nonempty, temp_input_path_nonempty.
Qed.


Definition normalization_fails (up : uploaded_file) (w : world) : Prop :=
  fst (process_audio_file H up (files w)) = None.



End Pipeline.

Definition demo_world : FileUpload.world :=
  {| FileUpload.files := ∅; FileUpload.db := demo_store |}.

(** A host on which FFmpeg fails after it has begun to write. *)
Definition truncated_output : AudioProcessor.media :=
  {| AudioProcessor.magic_mime := Ok "audio/x-wav";
     AudioProcessor.stream := None; AudioProcessor.millis := 0 |}.

Definition failing_host : AudioProcessor.host :=
  {| AudioProcessor.temp_stem := "/tmp/tmpa1b2c3d4";
     AudioProcessor.ffmpeg_succeeds := fun _ _ => false;
     AudioProcessor.ffmpeg_leftover := fun _ _ => Some truncated_output |}.

(** C6.  A run on an upload whose conversion fails after FFmpeg began to
    write: normalisation fails, the store is as before and the scratch copy
    of the upload is gone, but the file FFmpeg left at its output path,
    which was not there before, is still there when [process_meeting_file]
    returns.  The failing branch of [process_audio_file] unlinks its input
    and not its output. *)
Lemma failed_conversion_leaves_output :
  let w' := FileUpload.process_meeting_file table_codec
              (services_answering (Ok None))
              failing_host "2024-05-04 10:00:00" false mp4_upload demo_world in
  normalization_fails failing_host mp4_upload demo_world
  /\ FileUpload.files demo_world !! "/tmp/tmpa1b2c3d4.wav" = None
  /\ FileUpload.db w' = demo_store
  /\ FileUpload.files w' !! "/tmp/tmpa1b2c3d4.mp4" = None
  /\ FileUpload.files w' !! "/tmp/tmpa1b2c3d4.wav" = Some truncated_output.
Proof.
  cbv zeta. split; [reflexivity|]. split; [reflexivity|].
  split; [reflexivity|]. split; vm_compute; reflexivity.
Qed.



(** A run in which every stage answers does persist a record: the store
    gains the row with the next id. *)
Definition opaque_codec : json_codec :=
  {| json_dumps := fun _ => Ok "1";
     json_loads := fun s => if String.eqb s "1" then Ok (PInt 1)
                            else Raise JSONDecodeError |}.

Example complete_run_persists :
  let w' := FileUpload.process_meeting_file opaque_codec
              (services_answering (Ok (Some "1")))
              demo_host "2024-05-04 10:00:00" false mp4_upload demo_world in
  map Database.r_id (Database.rows (FileUpload.db w')) = [1; 2; 3; 4]
  /\ FileUpload.files w' = ∅.
Proof. split; vm_compute; reflexivity. Qed.

(** ** Topic extraction *)

Section Topics.
Import AiAnalyzer.

Definition no_nan (row : list float) : bool :=
  forallb (fun x => negb (PrimFloat.is_nan x)) row.

Lemma np_max2_cases (a b : float) : np_max2 a b = a \/ np_max2 a b = b.
Proof.
  unfold np_max2. destruct (PrimFloat.is_nan a); [auto|].
  destruct (PrimFloat.is_nan b); [auto|]. destruct (a <? b)%float; auto.
Qed.

Lemma fold_np_max2_In (r : list float) (acc : float) :
  fold_left np_max2 r acc = acc \/ In (fold_left np_max2 r acc) r.
Proof.
  revert acc. induction r as [|x r IH]; intros acc; simpl; [auto|].
  destruct (IH (np_max2 acc x)) as [E | Hin]; [|auto].
  rewrite E. destruct (np_max2_cases acc x) as [-> | ->]; auto.
Qed.

Lemma np_max2_upper (a b : float) :
  PrimFloat.is_nan a = false -> PrimFloat.is_nan b = false ->
  PrimFloat.is_nan (np_max2 a b) = false
  /\ (a <=? np_max2 a b)%float = true /\ (b <=? np_max2 a b)%float = true.
Proof.
  intros Ha Hb. unfold np_max2. rewrite Ha, Hb.
  destruct (a <? b)%float eqn:E.
  - split; [assumption|]. split; [now apply float_ltb_leb|].
    now apply float_leb_refl.
  - split; [assumption|]. split; [now apply float_leb_refl|].
    now apply float_ltb_false_leb.
Qed.

Lemma fold_np_max2_upper (r : list float) (acc : float) :
  PrimFloat.is_nan acc = false -> no_nan r = true ->
  PrimFloat.is_nan (fold_left np_max2 r acc) = false
  /\ (acc <=? fold_left np_max2 r acc)%float = true
  /\ forall x, In x r -> (x <=? fold_left np_max2 r acc)%float = true.
Proof.
  revert acc. induction r as [|y r IH]; intros acc Hacc Hr; simpl.
  - split; [assumption|]. split; [now apply float_leb_refl | tauto].
  - simpl in Hr. apply andb_prop in Hr as [Hy Hr]. apply negb_true_iff in Hy.
    destruct (np_max2_upper acc y Hacc Hy) as (Hn & Ha & Hb).
    destruct (IH (np_max2 acc y) Hn Hr) as (Hn' & Hm & Hall).
    split; [assumption|]. split.
    + now apply float_leb_trans with (y := np_max2 acc y).
    + intros x [<- | Hx]; [|auto].
      now apply float_leb_trans with (y := np_max2 acc y).
Qed.

(** [w] is the largest entry of [row]. *)
Definition is_maximum (w : float) (row : list float) : Prop :=
  In w row /\ forall x, In x row -> (x <=? w)%float = true.

Lemma np_max_In (row : list float) (w : float) :
  np_max row = Ok w -> In w row.
Proof.
  destruct row as [|x r]; simpl; [discriminate|]. intros E. injection E as <-.
  destruct (fold_np_max2_In r x) as [-> | Hin]; auto.
Qed.

Lemma np_max_is_maximum (row : list float) (w : float) :
  np_max row = Ok w -> no_nan row = true -> is_maximum w row.
Proof.
  intros E Hrow. split; [now apply np_max_In|].
  destruct row as [|x r]; simpl in *; [discriminate|]. injection E as <-.
  apply andb_prop in Hrow as [Hx Hr]. apply negb_true_iff in Hx.
  destruct (fold_np_max2_upper r x Hx Hr) as (_ & Hacc & Hall).
  intros y [<- | Hy]; auto.
Qed.

Lemma topic_of_spec (names : list string) (i : nat) (row : list float)
    (t : topic_entry) :
  topic_of names i row = Ok t ->
  topic_id t = i /\ (List.length (keywords t) <= 5)%nat
  /\ np_max row = Ok (weight t).
Proof.
  unfold topic_of. destruct (mapE _ _) as [fs|]; simpl; [|discriminate].
  destruct (np_max row) as [w|]; simpl; [|discriminate].
  intros E. injection E as <-. simpl. split; [reflexivity|].
  split; [|reflexivity]. rewrite length_firstn. lia.
Qed.

Lemma topics_from_spec (names : list string) (comps : list (list float)) :
  forall (i : nat) (ts : list topic_entry),
    topics_from names i comps = Ok ts ->
    List.length ts = List.length comps
    /\ forall t, In t ts ->
         exists row, nth_error comps (topic_id t - i) = Some row
                     /\ (i <= topic_id t)%nat
                     /\ topic_of names (topic_id t) row = Ok t.
Proof.
  induction comps as [|row comps IH]; intros i ts; simpl.
  - intros E. injection E as <-. split; [reflexivity | intros t []].
  - destruct (topic_of names i row) as [t0|] eqn:E0; simpl; [|discriminate].
    destruct (topics_from names (Datatypes.S i) comps) as [ts0|] eqn:E1; simpl;
      [|discriminate].
    intros E. injection E as <-. destruct (IH _ _ E1) as [Hlen Hall].
    split; [simpl; congruence|].
    intros t [<- | Hin].
    + destruct (topic_of_spec _ _ _ _ E0) as (Hid & _).
      exists row. rewrite Hid, Nat.sub_diag. repeat split; auto.
    + destruct (Hall t Hin) as (r & Hnth & Hle & Ht). exists r.
      replace (topic_id t - i)%nat with (Datatypes.S (topic_id t - Datatypes.S i))
        by lia.
      repeat split; auto. lia.
Qed.

(** C8.  For a requested count that is not negative, and a topic model
    that returns as many components as it was asked for, [extract_topics]
    returns at most min(requested, 5) topics; each has at most 5 keywords,
    and its weight is what [max] returns on its component: an entry of the
    component, and the largest one when the component holds no NaN. *)
Theorem extract_topics_bounds :
  forall (S : services) (text : string) (num_topics : Z),
    0 <= num_topics ->
    (forall n t components,
        lda_components S n t = Ok components ->
        Z.of_nat (List.length components) = n) ->
    let topics := extract_topic_entries S text num_topics in
    extract_topics S text num_topics = PList (map topic_dict topics)
    /\ Z.of_nat (List.length topics) <= Z.min num_topics 5
    /\ forall t, In t topics ->
         (List.length (keywords t) <= 5)%nat
         /\ exists components topic,
              lda_components S (Z.min num_topics 5) (clean_text text)
              = Ok components
              /\ nth_error components (topic_id t) = Some topic
              /\ np_max topic = Ok (weight t)
              /\ In (weight t) topic
              /\ (no_nan topic = true -> is_maximum (weight t) topic).
Proof.
  intros S text n Hn Hlda topics. split; [reflexivity|].
  subst topics. unfold extract_topic_entries.
  destruct (tfidf_feature_names S (clean_text text)) as [names|]; simpl.
  2:{ split; [lia | intros t []]. }
  destruct (lda_components S (Z.min n 5) (clean_text text)) as [comps|] eqn:E;
    simpl.
  2:{ split; [lia | intros t []]. }
  destruct (topics_from names 0 comps) as [ts|] eqn:Ets; simpl.
  2:{ split; [lia | intros t []]. }
  destruct (topics_from_spec _ _ _ _ Ets) as [Hlen Hall].
  split.
  - rewrite Hlen, (Hlda _ _ _ E). lia.
  - intros t Ht. destruct (Hall t Ht) as (row & Hnth & _ & Htopic).
    rewrite Nat.sub_0_r in Hnth.
    destruct (topic_of_spec _ _ _ _ Htopic) as (_ & Hkw & Hmax).
    split; [assumption|]. exists comps, row.
    split; [reflexivity|]. split; [exact Hnth|]. split; [exact Hmax|].
    split; [now apply np_max_In|].
    intros Hnn. now apply np_max_is_maximum.
Qed.

Lemma extract_topics_bounds_witness :
  let topics := extract_topic_entries (services_answering (Ok None))
                  "We shipped the release." 7 in
  extract_topics (services_answering (Ok None)) "We shipped the release." 7
  = PList (map topic_dict topics)
  /\ Z.of_nat (List.length topics) <= Z.min 7 5
  /\ forall t, In t topics ->
       (List.length (keywords t) <= 5)%nat
       /\ exists components topic,
            lda_components (services_answering (Ok None)) (Z.min 7 5)
              (clean_text "We shipped the release.") = Ok components
            /\ nth_error components (topic_id t) = Some topic
            /\ np_max topic = Ok (weight t)
            /\ In (weight t) topic
            /\ (no_nan topic = true -> is_maximum (weight t) topic).
Proof.
  apply (extract_topics_bounds (services_answering (Ok None))
           "We shipped the release." 7).
  - lia.
  - intros n t components. simpl. destruct (n <? 1) eqn:E; [discriminate|].
    intros Hc. injection Hc as <-. rewrite repeat_length.
    apply Z.ltb_ge in E. lia.
Defined.

Example extract_topics_on_two_terms :
  extract_topic_entries (services_answering (Ok None))
    "We shipped the release." 2
  = [{| topic_id := 0; keywords := ["release"; "shipped"]; weight := 0.75 |};
     {| topic_id := 1; keywords := ["release"; "shipped"]; weight := 0.75 |}]
  /\ clean_text "We shipped the Release, v2!" = "we shipped the release v".
Proof. split; vm_compute; reflexivity. Qed.

End Topics.

(** * Further properties of the store *)

From Stdlib Require Import Sorted.

Section StoreMore.
Import Database.

(** The two ways [save_meeting_data] ends: a storage fault or a field that
    has no JSON form leaves the store alone; otherwise one row is appended
    under the next rowid. *)
Lemma save_meeting_data_cases (J : json_codec) (fault : bool)
    (now filename : string)
    (transcription summary sentiment topics speakers knowledge_graph : pyval)
    (file_size : Z) (duration : float) (db : store) :
  let saved := save_meeting_data J fault now filename transcription summary
                 sentiment topics speakers knowledge_graph file_size duration
                 db in
  (saved = (None, db)
   /\ (fault = true
       \/ exists v e,
            In v [transcription; summary; sentiment; topics; speakers;
                  knowledge_graph]
            /\ truthy v = true /\ json_dumps J v = Raise e))
  \/ (fault = false
      /\ exists t s se tp sp kg,
           dump_field J transcription = Ok t /\ dump_field J summary = Ok s
           /\ dump_field J sentiment = Ok se /\ dump_field J topics = Ok tp
           /\ dump_field J speakers = Ok sp
           /\ dump_field J knowledge_graph = Ok kg
           /\ saved
              = (Some (next_rowid db),
                 {| rows := (rows db ++
                      [{| r_id := next_rowid db; r_filename := filename;
                          r_upload_date := now; r_transcription := t;
                          r_summary := s; r_sentiment := se; r_topics := tp;
                          r_speakers := sp; r_knowledge_graph := kg;
                          r_file_size := file_size;
                          r_duration := duration |}])%list;
                    sqlite_sequence := next_rowid db |})).
Proof.
  cbv zeta. unfold save_meeting_data.
  destruct fault; [left; split; [reflexivity | auto]|].
  assert (forall v, (exists c, dump_field J v = Ok c)
                    \/ (exists e, dump_field J v = Raise e /\ truthy v = true
                                  /\ json_dumps J v = Raise e)) as Hdump.
  { intros v. unfold dump_field. destruct (truthy v); [|eauto].
    destruct (json_dumps J v) as [c|e]; simpl; eauto. }
  cbn [connect mbind exn_bind].
  destruct (Hdump transcription) as [[t Et] | (e & Et & Ht & Hd)]; rewrite Et;
    cbn [mbind exn_bind];
    [|left; split; [reflexivity|right; exists transcription, e; simpl; auto]].
  destruct (Hdump summary) as [[s Es] | (e & Es & Ht & Hd)]; rewrite Es;
    cbn [mbind exn_bind];
    [|left; split; [reflexivity|right; exists summary, e; simpl; auto]].
  destruct (Hdump sentiment) as [[se Ese] | (e & Ese & Ht & Hd)]; rewrite Ese;
    cbn [mbind exn_bind];
    [|left; split; [reflexivity|right; exists sentiment, e; simpl; auto]].
  destruct (Hdump topics) as [[tp Etp] | (e & Etp & Ht & Hd)]; rewrite Etp;
    cbn [mbind exn_bind];
    [|left; split; [reflexivity|right; exists topics, e; simpl; auto 10]].
  destruct (Hdump speakers) as [[sp Esp] | (e & Esp & Ht & Hd)]; rewrite Esp;
    cbn [mbind exn_bind];
    [|left; split; [reflexivity|right; exists speakers, e; simpl; auto 10]].
  destruct (Hdump knowledge_graph) as [[kg Ekg] | (e & Ekg & Ht & Hd)];
    rewrite Ekg; cbn [mbind exn_bind];
    [|left; split; [reflexivity|right; exists knowledge_graph, e; simpl; auto 10]].
  right. split; [reflexivity|]. exists t, s, se, tp, sp, kg.
  repeat (split; [reflexivity|]). reflexivity.
Qed.


Lemma find_id_app_other (j : Z) (l : list row) (r : row) :
  r_id r <> j ->
  find (fun x => r_id x =? j) (l ++ [r])%list = find (fun x => r_id x =? j) l.
Proof.
  intros Hj. induction l as [|a l IH]; simpl.
  - destruct (Z.eqb_spec (r_id r) j); [contradiction | reflexivity].
  - destruct (r_id a =? j); [reflexivity | assumption].
Qed.

Lemma save_meeting_data_appends_fresh_row_aux (J : json_codec) (fault : bool)
    (now filename : string)
    (transcription summary sentiment topics speakers knowledge_graph : pyval)
    (file_size : Z) (duration : float) (db : store) (k : Z) :
  fst (save_meeting_data J fault now filename transcription summary
         sentiment topics speakers knowledge_graph file_size duration db)
  = Some k ->
  sqlite_sequence db < k
  /\ sqlite_sequence
       (snd (save_meeting_data J fault now filename transcription summary
               sentiment topics speakers knowledge_graph file_size duration
               db)) = k.
Proof.
  intros Hk.
  destruct (save_meeting_data_cases J fault now filename transcription summary
              sentiment topics speakers knowledge_graph file_size duration db)
    as [[E _] | (_ & ct & cs & cse & ctp & csp & ckg & _ & _ & _ & _ & _ & _ & E)];
    cbv zeta in E; rewrite E in *; cbn [fst snd] in *; [discriminate|].
  injection Hk as <-. split; [unfold next_rowid; lia | reflexivity].
Qed.

(** X1.  When [save_meeting_data] returns an id, that id is the next rowid:
    larger than the id of every row in the store and than every id handed
    out before.  The rows that were there stay as they are and in place, the
    new row carries the file name, date, size and duration given, and every
    other id reads as before. *)
Theorem save_meeting_data_appends_fresh_row :
  forall (J : json_codec) (fault : bool) (now filename : string)
         (transcription summary sentiment topics speakers knowledge_graph : pyval)
         (file_size : Z) (duration : float) (db : store) (k : Z),
    fst (save_meeting_data J fault now filename transcription summary
           sentiment topics speakers knowledge_graph file_size duration db)
    = Some k ->
    let db' := snd (save_meeting_data J fault now filename transcription
                      summary sentiment topics speakers knowledge_graph
                      file_size duration db) in
    (forall r, In r (rows db) -> r_id r < k)
    /\ sqlite_sequence db < k
    /\ sqlite_sequence db' = k
    /\ (exists r, rows db' = (rows db ++ [r])%list
                  /\ r_id r = k /\ r_filename r = filename
                  /\ r_upload_date r = now /\ r_file_size r = file_size
                  /\ r_duration r = duration)
    /\ (forall fault' j, j <> k ->
          get_meeting_by_id J fault' j db' = get_meeting_by_id J fault' j db).
Proof.
  intros J fault now filename t s se tp sp kg file_size duration db k Hk.
  cbv zeta.
  destruct (save_meeting_data_cases J fault now filename t s se tp sp kg
              file_size duration db)
    as [[E _] | (_ & ct & cs & cse & ctp & csp & ckg & _ & _ & _ & _ & _ & _ & E)];
    cbv zeta in E; rewrite E in *; cbn [fst snd] in *; [discriminate|].
  injection Hk as <-. split; [|split; [|split; [|split]]].
  - intros r Hr. now apply next_rowid_fresh.
  - unfold next_rowid. lia.
  - reflexivity.
  - eexists. split; [reflexivity|]. cbn. repeat split.
  - intros fault' j Hj. unfold get_meeting_by_id.
    destruct fault'; [reflexivity|]. cbn [connect mbind exn_bind rows].
    now rewrite find_id_app_other.
Qed.

Lemma save_meeting_data_appends_fresh_row_witness :
  let db' := snd (save_meeting_data table_codec false "2024-05-04 10:00:00"
                    "planning.mp3" (PList [PInt 1]) (PInt 1) PNone (PList [])
                    PNone (PDict []) 2048 60%float demo_store) in
  sqlite_sequence db' = 4
  /\ get_meeting_by_id table_codec false 2 db'
     = get_meeting_by_id table_codec false 2 demo_store.
Proof.
  destruct (save_meeting_data_appends_fresh_row table_codec false
              "2024-05-04 10:00:00" "planning.mp3" (PList [PInt 1]) (PInt 1)
              PNone (PList []) PNone (PDict []) 2048 60%float demo_store 4
              eq_refl) as (_ & _ & Hseq & _ & Hother).
  split; [exact Hseq|]. apply Hother. discriminate.
Defined.

(** X2.  [save_meeting_data] returns None exactly when the storage fails or
    a field that is not falsy has no JSON form, and then no row is written:
    the store is as it was. *)
Theorem save_meeting_data_fails_without_writing :
  forall (J : json_codec) (fault : bool) (now filename : string)
         (transcription summary sentiment topics speakers knowledge_graph : pyval)
         (file_size : Z) (duration : float) (db : store),
    let saved := save_meeting_data J fault now filename transcription summary
                   sentiment topics speakers knowledge_graph file_size
                   duration db in
    (fst saved = None <->
     fault = true
     \/ exists v e,
          In v [transcription; summary; sentiment; topics; speakers;
                knowledge_graph]
          /\ truthy v = true /\ json_dumps J v = Raise e)
    /\ (fst saved = None -> snd saved = db).
Proof.
  intros J fault now filename t s se tp sp kg file_size duration db. cbv zeta.
  destruct (save_meeting_data_cases J fault now filename t s se tp sp kg
              file_size duration db)
    as [[E Hwhy] | (Hf & ct & cs & cse & ctp & csp & ckg
                    & Dt & Ds & Dse & Dtp & Dsp & Dkg & E)];
    cbv zeta in E; rewrite E; cbn [fst snd].
  - split; [tauto | reflexivity].
  - split; [|discriminate]. split; [discriminate|].
    intros [-> | (v & e & Hin & Htruthy & Hraise)]; [discriminate|].
    assert (exists c, dump_field J v = Ok c) as [c Hc].
    { simpl in Hin.
      destruct Hin as [<-|[<-|[<-|[<-|[<-|[<-|[]]]]]]]; eauto. }
    unfold dump_field in Hc. rewrite Htruthy, Hraise in Hc. discriminate.
Qed.

(** Deleting a list of ids one after the other; each call may meet a
    storage fault. *)
Definition delete_meetings (calls : list (bool * Z)) (db : store) : store :=
  fold_left (fun d c => snd (delete_meeting (fst c) (snd c) d)) calls db.

Lemma delete_meetings_sequence (calls : list (bool * Z)) (db : store) :
  sqlite_sequence (delete_meetings calls db) = sqlite_sequence db.
Proof.
  revert db. induction calls as [|[f k] calls IH]; intros db; [reflexivity|].
  simpl. rewrite IH. destruct f; reflexivity.
Qed.

(** X3.  An id is never handed out twice: after a save returned [k], no
    matter which meetings are deleted afterwards (that one included), the
    next save that succeeds returns an id larger than [k]. *)
Theorem rowids_are_never_reused :
  forall (J : json_codec) (now filename now' filename' : string)
         (t s se tp sp kg t' s' se' tp' sp' kg' : pyval)
         (file_size file_size' : Z) (duration duration' : float)
         (calls : list (bool * Z)) (db : store) (k k' : Z),
    fst (save_meeting_data J false now filename t s se tp sp kg file_size
           duration db) = Some k ->
    fst (save_meeting_data J false now' filename' t' s' se' tp' sp' kg'
           file_size' duration'
           (delete_meetings calls
              (snd (save_meeting_data J false now filename t s se tp sp kg
                      file_size duration db)))) = Some k' ->
    k < k'.
Proof.
  intros J now filename now' filename' t s se tp sp kg t' s' se' tp' sp' kg'
         file_size file_size' duration duration' calls db k k' Hk Hk'.
  destruct (save_meeting_data_appends_fresh_row_aux J false now filename
              t s se tp sp kg file_size duration db k Hk) as [_ Hseq].
  destruct (save_meeting_data_appends_fresh_row_aux J false now' filename'
              t' s' se' tp' sp' kg' file_size' duration' _ k' Hk')
    as [Hlt _].
  rewrite delete_meetings_sequence, Hseq in Hlt. exact Hlt.
Qed.


Lemma rowids_are_never_reused_witness :
  let first := save_meeting_data table_codec false "2024-05-04 10:00:00"
                 "planning.mp3" PNone PNone PNone PNone PNone PNone 1 1%float
                 demo_store in
  let second := save_meeting_data table_codec false "2024-05-05 10:00:00"
                  "review.mp3" PNone PNone PNone PNone PNone PNone 1 1%float
                  (delete_meetings [(false, 4); (false, 2)] (snd first)) in
  fst first = Some 4 /\ fst second = Some 5 /\ 4 < 5.
Proof.
  cbv zeta. split; [reflexivity|]. split; [reflexivity|].
  apply (rowids_are_never_reused table_codec "2024-05-04 10:00:00"
           "planning.mp3" "2024-05-05 10:00:00" "review.mp3"
           PNone PNone PNone PNone PNone PNone
           PNone PNone PNone PNone PNone PNone 1 1 1%float 1%float
           [(false, 4); (false, 2)] demo_store 4 5); reflexivity.
Defined.

(** No two rows carry the same id. *)
Definition ids_unique (db : store) : Prop := List.NoDup (map r_id (rows db)).

Lemma NoDup_map_filter {A B} (f : A -> B) (p : A -> bool) (l : list A) :
  List.NoDup (map f l) -> List.NoDup (map f (List.filter p l)).
Proof.
  induction l as [|a l IH]; simpl; intros Hnd; [constructor|].
  apply NoDup_cons_iff in Hnd as [Hnotin Hnd].
  destruct (p a); simpl; [|auto].
  apply NoDup_cons_iff. split; [|auto].
  intros Hin. apply Hnotin. apply in_map_iff in Hin as (x & Hx & Hin).
  apply filter_In in Hin as [Hin _]. apply in_map_iff. eauto.
Qed.

(** X4.  The store keeps its ids distinct: if no two rows share an id, that
    is still so after [save_meeting_data] and after [delete_meeting],
    whether they succeed or fail. *)
Theorem ids_stay_unique :
  forall (J : json_codec) (fault : bool) (now filename : string)
         (t s se tp sp kg : pyval) (file_size : Z) (duration : float)
         (meeting_id : Z) (db : store),
    ids_unique db ->
    ids_unique (snd (save_meeting_data J fault now filename t s se tp sp kg
                       file_size duration db))
    /\ ids_unique (snd (delete_meeting fault meeting_id db)).
Proof.
  intros J fault now filename t s se tp sp kg file_size duration k db Hu.
  unfold ids_unique in *. split.
  - destruct (save_meeting_data_cases J fault now filename t s se tp sp kg
                file_size duration db)
      as [[E _] | (_ & ct & cs & cse & ctp & csp & ckg & _ & _ & _ & _ & _ & _ & E)];
      cbv zeta in E; rewrite E; cbn [fst snd rows]; [assumption|].
    rewrite map_app. cbn [map r_id].
    apply List.NoDup_app; [assumption | repeat constructor; simpl; tauto |].
    intros x Hx Hx'. simpl in Hx'. destruct Hx' as [<- | []].
    apply in_map_iff in Hx as (r & Hr & Hin).
    apply next_rowid_fresh in Hin. lia.
  - destruct fault; cbn [delete_meeting connect snd rows]; [assumption|].
    now apply NoDup_map_filter.
Qed.

Lemma ids_stay_unique_witness :
  ids_unique (snd (save_meeting_data table_codec false "2024-05-04 10:00:00"
                     "planning.mp3" PNone PNone PNone PNone PNone PNone 1
                     1%float demo_store))
  /\ ids_unique (snd (delete_meeting false 2 demo_store)).
Proof.
  apply (ids_stay_unique table_codec false "2024-05-04 10:00:00"
           "planning.mp3" PNone PNone PNone PNone PNone PNone 1 1%float 2
           demo_store).
  unfold ids_unique. simpl. repeat constructor; simpl; intuition discriminate.
Defined.


(** *** The readers *)

Lemma string_compare_ge_trans (a b c : string) :
  String.compare a b <> Lt -> String.compare b c <> Lt ->
  String.compare a c <> Lt.
Proof.
  revert b c. induction a as [|x a IH]; intros [|y b] [|z c]; simpl;
    try congruence.
  unfold Ascii.compare.
  destruct (N.compare_spec (N_of_ascii x) (N_of_ascii y)) as [Exy|Lxy|Gxy];
    destruct (N.compare_spec (N_of_ascii y) (N_of_ascii z)) as [Eyz|Lyz|Gyz];
    destruct (N.compare_spec (N_of_ascii x) (N_of_ascii z)) as [Exz|Lxz|Gxz];
    try congruence; try lia.
  apply IH.
Qed.

(** [a] was uploaded no earlier than [b], by the text of the dates. *)
Definition row_not_older (a b : row) : Prop :=
  String.compare (r_upload_date a) (r_upload_date b) <> Lt.

Definition not_older (a b : meeting) : Prop :=
  String.compare (m_upload_date a) (m_upload_date b) <> Lt.

Lemma insert_desc_Forall (P : row -> Prop) (r : row) (l : list row) :
  P r -> Forall P l -> Forall P (insert_desc r l).
Proof.
  intros Hr Hl. induction Hl as [|x l Hx Hl IH]; simpl.
  - repeat constructor. assumption.
  - destruct (date_before r x); constructor; auto.
Qed.

Lemma insert_desc_sorted (r : row) (l : list row) :
  StronglySorted row_not_older l ->
  StronglySorted row_not_older (insert_desc r l).
Proof.
  induction 1 as [|x l Hs IH Hx]; simpl.
  - repeat constructor.
  - unfold date_before.
    destruct (String.compare (r_upload_date r) (r_upload_date x)) eqn:E.
    + constructor; [now constructor|]. constructor.
      * unfold row_not_older. congruence.
      * eapply List.Forall_impl; [|exact Hx]. intros y Hy. unfold row_not_older in *.
        eapply string_compare_ge_trans; [|exact Hy]. congruence.
    + constructor; [assumption|]. apply insert_desc_Forall; [|assumption].
      unfold row_not_older. rewrite String.compare_antisym, E. discriminate.
    + constructor; [now constructor|]. constructor.
      * unfold row_not_older. congruence.
      * eapply List.Forall_impl; [|exact Hx]. intros y Hy. unfold row_not_older in *.
        eapply string_compare_ge_trans; [|exact Hy]. congruence.
Qed.

Lemma order_by_upload_date_desc_sorted (l : list row) :
  StronglySorted row_not_older (order_by_upload_date_desc l).
Proof.
  unfold order_by_upload_date_desc. induction l as [|r l IH]; simpl.
  - constructor.
  - now apply insert_desc_sorted.
Qed.

Lemma insert_desc_length (r : row) (l : list row) :
  List.length (insert_desc r l) = Datatypes.S (List.length l).
Proof.
  induction l as [|x l IH]; simpl; [reflexivity|].
  destruct (date_before r x); simpl; congruence.
Qed.

Lemma order_by_upload_date_desc_length (l : list row) :
  List.length (order_by_upload_date_desc l) = List.length l.
Proof.
  unfold order_by_upload_date_desc. induction l as [|r l IH]; simpl;
    [reflexivity|]. now rewrite insert_desc_length, IH.
Qed.

Lemma mapE_Forall2 {A B} (f : A -> exn B) (l : list A) (l' : list B) :
  mapE f l = Ok l' -> Forall2 (fun x y => f x = Ok y) l l'.
Proof.
  revert l'. induction l as [|x l IH]; simpl; intros l' E.
  - injection E as <-. constructor.
  - destruct (f x) as [y|] eqn:Fx; simpl in E; [|discriminate].
    destruct (mapE f l) as [ys|]; simpl in E; [|discriminate].
    injection E as <-. constructor; auto.
Qed.

Lemma mapE_raises {A B} (f : A -> exn B) (l : list A) (x : A) (e : pyexc) :
  In x l -> f x = Raise e -> exists e', mapE f l = Raise e'.
Proof.
  induction l as [|a l IH]; simpl; intros Hin Hx; [tauto|].
  destruct Hin as [-> | Hin].
  - rewrite Hx. simpl. eauto.
  - destruct (f a); simpl; [|eauto].
    destruct (IH Hin Hx) as [e' ->]. simpl. eauto.
Qed.

Lemma row_to_dict_fields (J : json_codec) (r : row) (m : meeting) :
  row_to_dict J r = Ok m ->
  m_id m = r_id r /\ m_filename m = r_filename r
  /\ m_upload_date m = r_upload_date r
  /\ m_file_size m = r_file_size r /\ m_duration m = r_duration r.
Proof.
  unfold row_to_dict.
  destruct (load_column J (r_transcription r)); simpl; [|discriminate].
  destruct (load_column J (r_summary r)); simpl; [|discriminate].
  destruct (load_column J (r_sentiment r)); simpl; [|discriminate].
  destruct (load_column J (r_topics r)); simpl; [|discriminate].
  destruct (load_column J (r_speakers r)); simpl; [|discriminate].
  destruct (load_column J (r_knowledge_graph r)); simpl; [|discriminate].
  intros E. injection E as <-. repeat split.
Qed.

Lemma decoded_rows_sorted (J : json_codec) (l : list row) (l' : list meeting) :
  mapE (row_to_dict J) l = Ok l' ->
  StronglySorted row_not_older l -> StronglySorted not_older l'.
Proof.
  intros E. apply mapE_Forall2 in E.
  induction E as [|r m l l' Hrm E IH]; intros Hs; [constructor|].
  apply StronglySorted_inv in Hs as [Hs Hr]. constructor; [auto|].
  clear IH Hs. induction E as [|r' m' l l' Hrm' E IH]; [constructor|].
  apply Forall_cons_iff in Hr as [Hr Hl]. constructor; [|auto].
  apply row_to_dict_fields in Hrm as (_ & _ & Hd & _).
  apply row_to_dict_fields in Hrm' as (_ & _ & Hd' & _).
  unfold not_older, row_not_older in *. now rewrite Hd, Hd'.
Qed.

(** X5.  What [get_all_meetings] and [search_meetings] return is ordered
    newest first: no record comes before one with a later upload date. *)
Theorem readers_return_newest_first :
  forall (J : json_codec) (fault : bool) (query : string) (db : store),
    StronglySorted not_older (get_all_meetings J fault db)
    /\ StronglySorted not_older (search_meetings J fault query db).
Proof.
  intros J fault query db. split.
  - unfold get_all_meetings. destruct fault; [constructor|].
    cbn [connect mbind exn_bind].
    destruct (mapE _ _) as [l|] eqn:E; simpl; [|constructor].
    eapply decoded_rows_sorted; [exact E|].
    apply order_by_upload_date_desc_sorted.
  - unfold search_meetings. destruct fault; [constructor|].
    cbn [connect mbind exn_bind].
    destruct (_ && _); cbn [mbind exn_bind try_except]; [constructor|].
    destruct (mapE _ _) as [l|] eqn:E; simpl; [|constructor].
    eapply decoded_rows_sorted; [exact E|].
    apply order_by_upload_date_desc_sorted.
Qed.

(** X6.  [get_all_meetings] is all or nothing: if a single row holds a
    text that is not JSON, or the storage fails, the result is the empty
    list; otherwise it has one record for every row of the table. *)
Theorem get_all_meetings_all_or_nothing :
  forall (J : json_codec) (db : store),
    ((exists r e, In r (rows db) /\ row_to_dict J r = Raise e) ->
     get_all_meetings J false db = [])
    /\ ((forall r, In r (rows db) -> exists m, row_to_dict J r = Ok m) ->
        List.length (get_all_meetings J false db) = List.length (rows db)
        /\ forall m, In m (get_all_meetings J false db) <->
                     exists r, In r (rows db) /\ row_to_dict J r = Ok m)
    /\ get_all_meetings J true db = [].
Proof.
  intros J db. unfold get_all_meetings. cbn [connect mbind exn_bind].
  split; [|split; [|reflexivity]].
  - intros (r & e & Hin & Hr).
    destruct (mapE_raises (row_to_dict J) (order_by_upload_date_desc (rows db))
                r e) as [e' ->]; [|assumption|reflexivity].
    now apply order_by_upload_date_desc_In.
  - intros Hall.
    destruct (mapE_all_ok (row_to_dict J)
                (order_by_upload_date_desc (rows db))) as [l E].
    { intros x Hx. apply Hall. now apply order_by_upload_date_desc_In. }
    rewrite E. simpl. split.
    + pose proof (mapE_Forall2 _ _ _ E) as F. apply Forall2_length in F.
      now rewrite <- F, order_by_upload_date_desc_length.
    + intros m. rewrite (mapE_In _ _ _ E). split.
      * intros (r & Hr & Hm). exists r. split; [|assumption].
        now apply order_by_upload_date_desc_In.
      * intros (r & Hr & Hm). exists r. split; [|assumption].
        now apply order_by_upload_date_desc_In.
Qed.

Definition corrupt_store : store :=
  {| rows := [demo_row 1 "standup.mp4" "2024-05-01 09:00:00";
              {| r_id := 2; r_filename := "budget.wav";
                 r_upload_date := "2024-05-02 09:00:00";
                 r_transcription := Some "not json"; r_summary := None;
                 r_sentiment := None; r_topics := None; r_speakers := None;
                 r_knowledge_graph := None; r_file_size := 1;
                 r_duration := 1%float |}];
     sqlite_sequence := 2 |}.

Lemma get_all_meetings_all_or_nothing_witness :
  get_all_meetings table_codec false corrupt_store = []
  /\ List.length (get_all_meetings table_codec false demo_store) = 3%nat.
Proof.
  split.
  - apply (proj1 (get_all_meetings_all_or_nothing table_codec corrupt_store)).
    eexists _, JSONDecodeError. split; [right; left; reflexivity | reflexivity].
  - apply (proj1 (proj2 (get_all_meetings_all_or_nothing table_codec
                           demo_store))).
    intros r Hr. simpl in Hr.
    destruct Hr as [<-|[<-|[<-|[]]]]; eexists; reflexivity.
Defined.


(** X7.  What [get_meeting_by_id] returns for an id is the record of a row
    of the store that carries that id, with the row's file name and date; it
    returns None when no row has the id, when the storage fails, and when
    the row holds a text that is not JSON. *)
Theorem get_meeting_by_id_sound :
  forall (J : json_codec) (fault : bool) (k : Z) (db : store),
    (forall m, get_meeting_by_id J fault k db = Some m ->
               fault = false
               /\ m_id m = k
               /\ exists r, In r (rows db) /\ r_id r = k
                            /\ row_to_dict J r = Ok m
                            /\ m_filename m = r_filename r
                            /\ m_upload_date m = r_upload_date r)
    /\ ((forall r, In r (rows db) -> r_id r <> k) ->
        get_meeting_by_id J fault k db = None)
    /\ get_meeting_by_id J true k db = None
    /\ (forall r e, find (fun r => r_id r =? k) (rows db) = Some r ->
                    row_to_dict J r = Raise e ->
                    get_meeting_by_id J fault k db = None).
Proof.
  intros J fault k db. unfold get_meeting_by_id.
  split; [|split; [|split; [reflexivity|]]].
  - intros m. destruct fault; [discriminate|]. cbn [connect mbind exn_bind].
    destruct (find _ (rows db)) as [r|] eqn:F; [|discriminate].
    apply find_some in F as [Hin Hid]. apply Z.eqb_eq in Hid.
    destruct (row_to_dict J r) as [m'|] eqn:D; simpl; [|discriminate].
    intros E. injection E as <-.
    destruct (row_to_dict_fields J r m' D) as (Hi & Hf & Hd & _).
    split; [reflexivity|]. split; [congruence|]. exists r. auto.
  - intros Hnone. destruct fault; [reflexivity|]. cbn [connect mbind exn_bind].
    destruct (find _ (rows db)) as [r|] eqn:F; [|reflexivity].
    apply find_some in F as [Hin Hid]. apply Z.eqb_eq in Hid.
    exfalso. now apply (Hnone r).
  - intros r e F D. destruct fault; [reflexivity|]. cbn [connect mbind exn_bind].
    rewrite F, D. reflexivity.
Qed.

Lemma filter_all (A : Type) (p : A -> bool) (l : list A) :
  (forall x, In x l -> p x = true) -> List.filter p l = l.
Proof.
  induction l as [|a l IH]; simpl; intros Hall; [reflexivity|].
  rewrite (Hall a (or_introl eq_refl)). f_equal. apply IH. auto.
Qed.

(** X8.  With the empty query [search_meetings] returns what
    [get_all_meetings] returns: every row matches, having a file name. *)
Theorem search_meetings_empty_query :
  forall (J : json_codec) (fault : bool) (db : store),
    search_meetings J fault "" db = get_all_meetings J fault db.
Proof.
  intros J fault db. unfold search_meetings, get_all_meetings.
  destruct fault; [reflexivity|]. cbn [connect mbind exn_bind].
  change (SQLITE_MAX_LIKE_PATTERN_LENGTH <? byte_length ("%" ++ "" ++ "%"))
    with false.
  cbn [andb mbind exn_bind]. rewrite filter_all; [reflexivity|].
  intros r _. unfold matches, sql_like.
  change (c_string (chars ("%" ++ "" ++ "%"))) with ["%"%char; "%"%char].
  now rewrite like_percent, like_percent_only.
Qed.

(** X9.  On a store whose rows all hold JSON, every record that
    [search_meetings] returns is one of the records of [get_all_meetings],
    and there are no more of them than rows. *)
Theorem search_meetings_within_all :
  forall (J : json_codec) (fault : bool) (query : string) (db : store),
    (forall r, In r (rows db) -> exists m, row_to_dict J r = Ok m) ->
    (forall m, In m (search_meetings J fault query db) ->
               In m (get_all_meetings J fault db))
    /\ (List.length (search_meetings J fault query db)
        <= List.length (rows db))%nat.
Proof.
  intros J fault query db Hall. unfold search_meetings, get_all_meetings.
  destruct fault; [split; [intros m [] | simpl; lia]|].
  cbn [connect mbind exn_bind].
  destruct (mapE_all_ok (row_to_dict J) (order_by_upload_date_desc (rows db)))
    as [all Eall].
  { intros x Hx. apply Hall. now apply order_by_upload_date_desc_In. }
  rewrite Eall. cbn [try_except].
  destruct (_ && _); cbn [mbind exn_bind try_except];
    [split; [intros m [] | simpl; lia]|].
  destruct (mapE _ (order_by_upload_date_desc (List.filter _ _)))
    as [found|] eqn:Efound; cbn [try_except];
    [|split; [intros m [] | simpl; lia]].
  split.
  - intros m Hm. apply (mapE_In _ _ _ Efound) in Hm as (r & Hr & Hm).
    apply (mapE_In _ _ _ Eall). exists r. split; [|assumption].
    apply order_by_upload_date_desc_In.
    now apply order_by_upload_date_desc_In, filter_In in Hr.
  - pose proof (mapE_Forall2 _ _ _ Efound) as F. apply Forall2_length in F.
    rewrite <- F, order_by_upload_date_desc_length. apply filter_length_le.
Qed.

Lemma search_meetings_within_all_witness :
  (forall m, In m (search_meetings table_codec false "e" demo_store) ->
             In m (get_all_meetings table_codec false demo_store))
  /\ (List.length (search_meetings table_codec false "e" demo_store)
      <= List.length (rows demo_store))%nat.
Proof.
  apply (search_meetings_within_all table_codec false "e" demo_store).
  intros r Hr. simpl in Hr.
  destruct Hr as [<-|[<-|[<-|[]]]]; eexists; reflexivity.
Defined.

(** X10.  Deleting an id that no row carries changes nothing, and so
    deleting the same id again is the same as deleting it once. *)
Theorem delete_meeting_absent_or_repeated :
  forall (fault : bool) (k : Z) (db : store),
    ((forall r, In r (rows db) -> r_id r <> k) ->
     delete_meeting fault k db = (negb fault, db))
    /\ snd (delete_meeting false k (snd (delete_meeting fault k db)))
       = snd (delete_meeting false k db).
Proof.
  intros fault k db. split.
  - intros Habsent. destruct db as [l n]. destruct fault; [reflexivity|].
    cbn [delete_meeting connect rows sqlite_sequence negb].
    rewrite filter_all; [reflexivity|].
    intros r Hr. apply negb_true_iff, Z.eqb_neq. simpl in Habsent. auto.
  - destruct fault; [reflexivity|].
    cbn [delete_meeting connect snd rows sqlite_sequence].
    rewrite filter_all; [reflexivity|].
    intros r Hr. now apply filter_In in Hr.
Qed.

End StoreMore.

(** * Further properties of the audio normaliser *)

Section AudioMore.
Import AudioProcessor.

Definition no_dot (t : text) : bool :=
  forallb (fun c => negb (Ascii.eqb c ".")) t.

Lemma last_segment_from_no_dot (acc t : text) :
  no_dot t = true -> last_segment_from acc t = acc.
Proof.
  revert acc. induction t as [|c t IH]; intros acc Ht; [reflexivity|].
  simpl in *. apply andb_prop in Ht as [Hc Ht].
  apply negb_true_iff in Hc. rewrite Hc. auto.
Qed.

Lemma last_segment_from_after_dot (acc a b : text) :
  no_dot b = true -> last_segment_from acc (a ++ "."%char :: b)%list = b.
Proof.
  intros Hb. revert acc. induction a as [|c a IH]; intros acc; simpl.
  - now apply last_segment_from_no_dot.
  - destruct (Ascii.eqb c "."); apply IH.
Qed.

Lemma last_segment_from_is_dotless (pre t : text) :
  no_dot pre = true -> no_dot (last_segment_from (pre ++ t)%list t) = true.
Proof.
  revert pre. induction t as [|c t IH]; intros pre Hpre; simpl.
  - now rewrite app_nil_r.
  - destruct (Ascii.eqb c ".") eqn:Hc.
    + apply (IH []). reflexivity.
    + replace (pre ++ c :: t)%list with ((pre ++ [c]) ++ t)%list
        by (rewrite <- app_assoc; reflexivity).
      apply IH. unfold no_dot. rewrite forallb_app. simpl.
      unfold no_dot in Hpre. now rewrite Hpre, Hc.
Qed.

Lemma split_dot_last_dotless (s : string) :
  no_dot (chars (split_dot_last s)) = true.
Proof.
  unfold split_dot_last. rewrite chars_str.
  apply (last_segment_from_is_dotless [] (chars s)). reflexivity.
Qed.

Lemma temp_input_path_chars (H : host) (up : uploaded_file) :
  chars (temp_input_path_of H up)
  = (chars (temp_stem H) ++ "."%char :: chars (split_dot_last (name up)))%list.
Proof.
  unfold temp_input_path_of. now rewrite chars_append.
Qed.

Lemma temp_input_path_extension (H : host) (up : uploaded_file) :
  split_dot_last (temp_input_path_of H up) = split_dot_last (name up).
Proof.
  unfold split_dot_last at 1. rewrite temp_input_path_chars.
  rewrite last_segment_from_after_dot by apply split_dot_last_dotless.
  apply str_chars.
Qed.

Lemma replace_from_skip (old new x rest : text) :
  replace_from old new (List.length x) (x ++ rest)%list
  = replace_from old new 0 rest.
Proof. induction x as [|c x IH]; simpl; [reflexivity | exact IH]. Qed.

Lemma replace_from_same (o : ascii) (os : text) (n : nat) :
  forall t, (List.length t <= n)%nat ->
            replace_from (o :: os) (o :: os) 0 t = t.
Proof.
  induction n as [|n IH]; intros [|c t] Hlen; simpl in *; try reflexivity;
    try lia.
  destruct (Ascii.eqb o c && starts_with os t) eqn:Hs.
  - apply andb_prop in Hs as [Ho Hs]. apply Ascii.eqb_eq in Ho as ->.
    destruct (starts_with_split _ _ Hs) as [rest ->].
    rewrite Nat.sub_0_r, replace_from_skip. f_equal. f_equal.
    apply IH. rewrite length_app in Hlen. lia.
  - f_equal. apply IH. lia.
Qed.

Lemma py_replace_same (s old : string) : py_replace s old old = s.
Proof.
  unfold py_replace. destruct (chars old) as [|o os] eqn:E.
  - simpl. rewrite <- (str_chars s) at 2. f_equal.
    induction (chars s) as [|c t IH]; simpl; [reflexivity | now rewrite IH].
  - rewrite (replace_from_same o os (List.length (chars s))) by lia.
    apply str_chars.
Qed.


Lemma starts_with_refl (t : text) : starts_with t t = true.
Proof.
  induction t as [|c t IH]; simpl; [reflexivity|].
  now rewrite Ascii.eqb_refl, IH.
Qed.

Lemma starts_with_before_dot (e x y : text) :
  no_dot e = true -> starts_with e (x ++ "."%char :: y)%list = true ->
  (List.length e <= List.length x)%nat.
Proof.
  revert x. induction e as [|c e IH]; intros x He Hs; simpl; [lia|].
  simpl in He. apply andb_prop in He as [Hc He]. apply negb_true_iff in Hc.
  destruct x as [|a x]; simpl in Hs; apply andb_prop in Hs as [Ha Hs].
  - congruence.
  - specialize (IH x He Hs). simpl. lia.
Qed.

Lemma replace_from_keeps_dot (c : ascii) (e new : text) :
  no_dot (c :: e) = true ->
  forall (x : text) (k : nat),
    (k <= List.length x)%nat ->
    exists pre,
      replace_from (c :: e) new k (x ++ "."%char :: c :: e)%list
      = (pre ++ "."%char :: new)%list.
Proof.
  intros He x. induction x as [|a x IH]; intros k Hk.
  - assert (k = 0)%nat as -> by (simpl in Hk; lia).
    exists []. cbn [app replace_from].
    assert (starts_with (c :: e) ("."%char :: c :: e) = false) as ->.
    { simpl in *. apply andb_prop in He as [Hc _].
      apply negb_true_iff in Hc. now rewrite Hc. }
    f_equal. cbn [replace_from]. rewrite starts_with_refl.
    replace (List.length (c :: e) - 1)%nat with (List.length e)
      by (simpl; lia).
    rewrite <- (app_nil_r e) at 3. rewrite replace_from_skip.
    apply app_nil_r.
  - destruct k as [|k].
    + cbn [app replace_from].
      destruct (starts_with (c :: e) (a :: x ++ "."%char :: c :: e)) eqn:Hs.
      * pose proof (starts_with_before_dot (c :: e) (a :: x) (c :: e) He Hs)
          as Hlen.
        destruct (IH (List.length (c :: e) - 1)%nat) as [pre ->].
        { simpl in *. lia. }
        exists (new ++ pre)%list. now rewrite app_assoc.
      * destruct (IH 0%nat) as [pre ->]; [lia|]. exists (a :: pre). reflexivity.
    + cbn [app replace_from]. apply IH. simpl in Hk. lia.
Qed.

Lemma temp_output_path_ends_in_wav (H : host) (up : uploaded_file) :
  exists pre,
    py_replace (temp_input_path_of H up)
               (split_dot_last (temp_input_path_of H up)) "wav"
    = pre ++ ".wav".
Proof.
  rewrite temp_input_path_extension. unfold py_replace.
  rewrite temp_input_path_chars.
  pose proof (split_dot_last_dotless (name up)) as Hext.
  destruct (chars (split_dot_last (name up))) as [|c e].
  - exists (str (chars "wav" ++ flat_map (fun c => c :: chars "wav")
                                         (chars (temp_stem H)))%list).
    rewrite flat_map_app. cbn [flat_map app].
    rewrite <- (str_chars (str _ ++ ".wav")). f_equal.
    rewrite chars_append, chars_str. rewrite <- app_assoc. reflexivity.
  - destruct (replace_from_keeps_dot c e (chars "wav") Hext
                (chars (temp_stem H)) 0%nat) as [pre ->]; [lia|].
    exists (str pre). rewrite <- (str_chars (str pre ++ ".wav")). f_equal.
    now rewrite chars_append, chars_str.
Qed.

(** X11.  The scratch copy of an upload carries the upload's extension, and
    a path that [process_audio_file] returns ends in [.wav] unless it is the
    scratch copy of an upload detected as audio/wav, which is returned under
    the name it was stored. *)
Theorem normalised_path_extension :
  forall (H : host) (up : uploaded_file),
    split_dot_last (temp_input_path_of H up) = split_dot_last (name up)
    /\ forall (σ : gmap string media) (p : string),
         fst (process_audio_file H up σ) = Some p ->
         (exists pre, p = pre ++ ".wav")
         \/ (magic_mime (contents up) = Ok "audio/wav"
             /\ p = temp_stem H ++ "." ++ split_dot_last (name up)).
Proof.
  intros H up. split; [apply temp_input_path_extension|].
  intros σ p Hp.
  destruct (process_audio_file_outcome H up σ)
    as [[Hr _] | [(Hr & _ & Hwav) | (mime & Hr & _)]];
    rewrite Hr in Hp; [discriminate | |]; injection Hp as <-.
  - right. split; [assumption | reflexivity].
  - left. apply temp_output_path_ends_in_wav.
Qed.

Lemma convert_to_wav_onto_itself (H : host) (path : string)
    (σ : gmap string media) :
  convert_to_wav H path path σ = (false, σ).
Proof.
  unfold convert_to_wav, ffmpeg. simpl. now rewrite String.eqb_refl.
Qed.

(** X12.  When the name of the upload ends in [.wav], the path FFmpeg is
    told to write is the scratch copy itself.  FFmpeg refuses to write onto
    its input, so unless libmagic names the type audio/wav (it names WAVE
    data audio/x-wav) the upload is refused: [process_audio_file] returns
    None and, the scratch name being unused before, the file system is as
    it was. *)
Theorem wav_named_upload_is_refused :
  forall (H : host) (up : uploaded_file) (σ : gmap string media),
    split_dot_last (name up) = "wav" ->
    magic_mime (contents up) <> Ok "audio/wav" ->
    σ !! temp_input_path_of H up = None ->
    py_replace (temp_input_path_of H up)
               (split_dot_last (temp_input_path_of H up)) "wav"
    = temp_input_path_of H up
    /\ process_audio_file H up σ = (None, σ).
Proof.
  intros H up σ Hext Hmime Hfresh.
  assert (py_replace (temp_input_path_of H up)
            (split_dot_last (temp_input_path_of H up)) "wav"
          = temp_input_path_of H up) as Hsame.
  { rewrite temp_input_path_extension, Hext. apply py_replace_same. }
  split; [exact Hsame|].
  unfold process_audio_file, process_audio_file_body.
  rewrite Hsame. unfold mbind, io_bind, mret, io_ret, raise.
  set (inp := temp_input_path_of H up) in *.
  assert ((<[inp := contents up]> σ) !! inp = Some (contents up)) as Hin
    by apply lookup_insert_eq.
  assert (os_unlink inp (<[inp := contents up]> σ) = (Ok tt, σ)) as Hunlink.
  { unfold os_unlink. rewrite Hin. f_equal. now apply delete_insert_id. }
  unfold detect_file_type. rewrite Hin.
  destruct (magic_mime (contents up)) as [mime|e]; cbn [try_except fmap exn_fmap];
    [|now rewrite Hunlink].
  destruct (String.eqb mime "" || negb (mem mime supported_types));
    [now rewrite Hunlink|].
  assert (String.eqb mime "audio/wav" = false) as Hne.
  { apply String.eqb_neq. intros ->. now apply Hmime. }
  rewrite Hne, orb_true_r, convert_to_wav_onto_itself. cbn [negb].
  now rewrite Hunlink.
Qed.

Definition x_wav_upload : uploaded_file :=
  {| name := "call.wav";
     contents := {| magic_mime := Ok "audio/x-wav";
                    stream := Some {| codec := "pcm_s16le";
                                      sample_rate := 44100; channels := 2 |};
                    millis := 180000 |};
     size := 31752044 |}.

Lemma wav_named_upload_is_refused_witness :
  py_replace (temp_input_path_of demo_host x_wav_upload)
             (split_dot_last (temp_input_path_of demo_host x_wav_upload)) "wav"
  = "/tmp/tmpa1b2c3d4.wav"
  /\ process_audio_file demo_host x_wav_upload ∅ = (None, ∅).
Proof.
  apply (wav_named_upload_is_refused demo_host x_wav_upload ∅).
  - reflexivity.
  - discriminate.
  - reflexivity.
Defined.

(** X13.  An upload whose type libmagic cannot tell, or tells as one that
    is not supported, is refused: [process_audio_file] returns None and,
    the scratch name being unused before, the file system is as it was. *)
Theorem process_audio_file_refuses_unsupported :
  forall (H : host) (up : uploaded_file) (σ : gmap string media),
    σ !! temp_input_path_of H up = None ->
    (forall mime, magic_mime (contents up) = Ok mime ->
                  mime = "" \/ mem mime supported_types = false) ->
    process_audio_file H up σ = (None, σ).
Proof.
  intros H up σ Hfresh Hbad.
  unfold process_audio_file, process_audio_file_body.
  unfold mbind, io_bind, mret, io_ret, raise.
  set (inp := temp_input_path_of H up) in *.
  assert ((<[inp := contents up]> σ) !! inp = Some (contents up)) as Hin
    by apply lookup_insert_eq.
  assert (os_unlink inp (<[inp := contents up]> σ) = (Ok tt, σ)) as Hunlink.
  { unfold os_unlink. rewrite Hin. f_equal. now apply delete_insert_id. }
  unfold detect_file_type. rewrite Hin.
  destruct (magic_mime (contents up)) as [mime|e]; cbn [try_except fmap exn_fmap].
  - assert (String.eqb mime "" || negb (mem mime supported_types) = true) as ->.
    { destruct (Hbad mime eq_refl) as [-> | ->]; [reflexivity|].
      apply orb_true_r. }
    now rewrite Hunlink.
  - now rewrite Hunlink.
Qed.

Definition pdf_upload : uploaded_file :=
  {| name := "minutes.mp3";
     contents := {| magic_mime := Ok "application/pdf"; stream := None;
                    millis := 0 |};
     size := 52000 |}.

Lemma process_audio_file_refuses_unsupported_witness :
  process_audio_file demo_host pdf_upload ∅ = (None, ∅).
Proof.
  apply (process_audio_file_refuses_unsupported demo_host pdf_upload ∅).
  - reflexivity.
  - intros mime E. injection E as <-. right. reflexivity.
Defined.

(** X14.  A run of [process_audio_file] that returns a path leaves exactly
    one file more than before, the returned one, when the two scratch names
    were unused: the copy of the upload is removed once it has been
    converted. *)
Theorem process_audio_file_leaves_one_file :
  forall (H : host) (up : uploaded_file) (σ : gmap string media) (p : string),
    σ !! temp_input_path_of H up = None ->
    σ !! py_replace (temp_input_path_of H up)
           (split_dot_last (temp_input_path_of H up)) "wav" = None ->
    fst (process_audio_file H up σ) = Some p ->
    exists m, snd (process_audio_file H up σ) = <[p := m]> σ.
Proof.
  intros H up σ p Hin Hout Hp.
  destruct (process_audio_file_outcome H up σ)
    as [[Hr _] | [(Hr & Hs & _) | (mime & Hr & _ & _ & _ & Hs)]];
    rewrite Hr in Hp; [discriminate | |]; injection Hp as <-;
    cbv zeta in Hs; rewrite Hs.
  - eauto.
  - destruct (String.eqb_spec (temp_input_path_of H up)
                (py_replace (temp_input_path_of H up)
                   (split_dot_last (temp_input_path_of H up)) "wav"))
      as [E|E].
    + rewrite <- E. rewrite insert_insert_eq. eauto.
    + rewrite delete_insert_ne by assumption.
      rewrite delete_insert_id by assumption. eauto.
Qed.

Lemma process_audio_file_leaves_one_file_witness :
  exists m, snd (process_audio_file demo_host mp4_upload ∅)
            = <[ "/tmp/tmpa1b2c3d4.wav" := m ]> ∅.
Proof.
  apply (process_audio_file_leaves_one_file demo_host mp4_upload ∅
           "/tmp/tmpa1b2c3d4.wav"); reflexivity.
Defined.

End AudioMore.

(** * audio_processor.py, continued: splitting a recording *)

Module AudioChunks.
Import AudioProcessor.

(** [range(start, stop, step)] *)
Definition py_range (start stop step : Z) : exn (list Z) :=
  if step =? 0 then Raise ValueError
  else
    let n := if 0 <? step then (stop - start + step - 1) / step
             else (start - stop - step - 1) / (- step) in
    Ok (map (fun k => start + Z.of_nat k * step) (seq 0 (Z.to_nat n))).

(** What the operating system and pydub decide for the chunk written at
    the [k]-th turn of the loop: the name [tempfile] picks, and whether the
    export succeeds. *)
Record chunk_host : Type := {
  chunk_temp_stem : nat -> string;
  export_succeeds : nat -> bool
}.

(** The file [NamedTemporaryFile] creates, before anything is written. *)
Definition empty_file : media :=
  {| magic_mime := Ok "inode/x-empty"; stream := None; millis := 0 |}.

(** [audio[i:j]], exported as WAV: pydub clips both ends to the length of
    the recording. *)
Definition slice (audio : media) (i j : Z) : media :=
  {| magic_mime := Ok "audio/x-wav";
     stream := stream audio;
     millis := Z.min j (millis audio) - Z.min i (millis audio) |}.

Definition chunk_name (C : chunk_host) (k : nat) : string :=
  chunk_temp_stem C k ++ ".wav".

(** The loop over [range(0, len(audio), chunk_duration_ms)], from its
    [k]-th turn on. *)
Fixpoint export_chunks (C : chunk_host) (audio : media)
    (chunk_duration_ms : Z) (k : nat) (starts : list Z)
  : io (gmap string media) (list string) :=
  match starts with
  | [] => mret []
  | i :: rest =>
      let temp_chunk := chunk_name C k in
      _ ← (fun σ => (Ok tt, <[temp_chunk := empty_file]> σ));
      _ ← (fun σ =>
             if export_succeeds C k
             then (Ok tt,
                   <[temp_chunk := slice audio i (i + chunk_duration_ms)]> σ)
             else (Raise (Exception "export failed"), σ));
      chunks ← export_chunks C audio chunk_duration_ms (Datatypes.S k) rest;
      mret (temp_chunk :: chunks)
  end.

(** [AudioSegment.from_wav(file_path)] *)
Definition from_wav (file_path : string) : io (gmap string media) media :=
  fun σ => (match σ !! file_path with
            | Some m => match stream m with
                        | Some _ => Ok m
                        | None => Raise (Exception "not a WAV file")
                        end
            | None => Raise FileNotFoundError
            end, σ).

(** *** split_audio_for_processing *)
Definition split_audio_for_processing (C : chunk_host) (file_path : string)
    (chunk_duration_ms : Z) (σ : gmap string media)
  : list string * gmap string media :=
  match (audio ← from_wav file_path;
         starts ← (fun σ => (py_range 0 (millis audio) chunk_duration_ms, σ));
         export_chunks C audio chunk_duration_ms 0 starts) σ with
  | (Ok chunks, σ') => (chunks, σ')
  | (Raise _, σ') => ([], σ')
  end.

(** The default of [chunk_duration_ms]: ten minutes. *)
Definition default_chunk_duration_ms : Z := 10 * 60 * 1000.

End AudioChunks.

(** ** Properties of the split *)

Section Chunks.
Import AudioProcessor AudioChunks.

(** The file system after the turns [k], [k+1], ... of the loop have
    written their chunks. *)
Fixpoint written (C : chunk_host) (audio : media) (c : Z) (k : nat)
    (starts : list Z) (σ : gmap string media) : gmap string media :=
  match starts with
  | [] => σ
  | i :: rest =>
      written C audio c (Datatypes.S k) rest
        (<[chunk_name C k := slice audio i (i + c)]> σ)
  end.

Lemma export_chunks_all (C : chunk_host) (audio : media) (c : Z)
    (starts : list Z) :
  forall (k : nat) (σ : gmap string media),
    (forall j, In j (seq k (List.length starts)) -> export_succeeds C j = true) ->
    export_chunks C audio c k starts σ
    = (Ok (map (chunk_name C) (seq k (List.length starts))),
       written C audio c k starts σ).
Proof.
  induction starts as [|i rest IH]; intros k σ Hok; [reflexivity|].
  cbn [export_chunks written List.length seq map].
  unfold mbind, io_bind, mret, io_ret.
  rewrite (Hok k) by (simpl; auto). rewrite insert_insert_eq.
  rewrite IH; [reflexivity|]. intros j Hj. apply Hok. simpl. auto.
Qed.

Lemma export_chunks_stops (C : chunk_host) (audio : media) (c : Z)
    (done : list Z) (i : Z) (rest : list Z) :
  forall (k : nat) (σ : gmap string media),
    (forall j, In j (seq k (List.length done)) -> export_succeeds C j = true) ->
    export_succeeds C (k + List.length done) = false ->
    export_chunks C audio c k (done ++ i :: rest)%list σ
    = (Raise (Exception "export failed"),
       <[chunk_name C (k + List.length done) := empty_file]>
         (written C audio c k done σ)).
Proof.
  induction done as [|d done IH]; intros k σ Hok Hfail.
  - cbn [app export_chunks written List.length].
    unfold mbind, io_bind, mret, io_ret.
    rewrite Nat.add_0_r in *. now rewrite Hfail.
  - cbn [app export_chunks written List.length seq].
    unfold mbind, io_bind, mret, io_ret.
    rewrite (Hok k) by (simpl; auto). rewrite insert_insert_eq.
    rewrite (IH (Datatypes.S k)).
    + cbn [List.length]. now rewrite Nat.add_succ_r.
    + intros j Hj. apply Hok. simpl. auto.
    + cbn [List.length] in Hfail. now rewrite Nat.add_succ_r in Hfail.
Qed.

Section Names.
Variable C : chunk_host.
Hypothesis names_differ :
  forall j k, chunk_temp_stem C j = chunk_temp_stem C k -> j = k.

Lemma chunk_name_inj (j k : nat) : chunk_name C j = chunk_name C k -> j = k.
Proof.
  unfold chunk_name. intros E. apply names_differ.
  apply (f_equal chars) in E. rewrite !chars_append in E.
  apply app_inv_tail in E.
  rewrite <- (str_chars (chunk_temp_stem C j)), E. apply str_chars.
Qed.

Lemma written_earlier (audio : media) (c : Z) (starts : list Z) :
  forall (k j : nat) (σ : gmap string media),
    (j < k)%nat ->
    written C audio c k starts σ !! chunk_name C j = σ !! chunk_name C j.
Proof.
  induction starts as [|i rest IH]; intros k j σ Hjk; [reflexivity|].
  cbn [written]. rewrite IH by lia. apply lookup_insert_ne.
  intros E. apply chunk_name_inj in E. lia.
Qed.

Lemma written_lookup (audio : media) (c : Z) (starts : list Z) :
  forall (k n : nat) (i : Z) (σ : gmap string media),
    nth_error starts n = Some i ->
    written C audio c k starts σ !! chunk_name C (k + n)
    = Some (slice audio i (i + c)).
Proof.
  induction starts as [|i0 rest IH]; intros k n i σ Hn.
  - destruct n; discriminate.
  - destruct n as [|n]; cbn [written].
    + injection Hn as ->. rewrite Nat.add_0_r.
      rewrite written_earlier by lia. apply lookup_insert_eq.
    + rewrite Nat.add_succ_r. apply (IH (Datatypes.S k) n i). exact Hn.
Qed.

Lemma written_other (audio : media) (c : Z) (starts : list Z) (p : string) :
  forall (k : nat) (σ : gmap string media),
    (forall j, p <> chunk_name C j) ->
    written C audio c k starts σ !! p = σ !! p.
Proof.
  induction starts as [|i rest IH]; intros k σ Hp; [reflexivity|].
  cbn [written]. rewrite IH by assumption. apply lookup_insert_ne. auto.
Qed.

End Names.


(** The number of turns of the loop. *)
Definition chunk_count (length_ms c : Z) : nat :=
  Z.to_nat ((length_ms + c - 1) / c).

Lemma py_range_chunks (L c : Z) :
  0 < c ->
  py_range 0 L c
  = Ok (map (fun k => Z.of_nat k * c) (seq 0 (chunk_count L c))).
Proof.
  intros Hc. unfold py_range, chunk_count.
  destruct (Z.eqb_spec c 0); [lia|].
  destruct (Z.ltb_spec 0 c); [|lia].
  rewrite Z.sub_0_r. reflexivity.
Qed.

Lemma chunk_count_spec (L c : Z) (k : nat) :
  0 < c -> 0 <= L ->
  ((k < chunk_count L c)%nat <-> Z.of_nat k * c < L).
Proof.
  intros Hc HL. unfold chunk_count.
  pose proof (Z.mul_div_le (L + c - 1) c Hc) as Hlo.
  pose proof (Z.mul_succ_div_gt (L + c - 1) c Hc) as Hhi.
  assert (0 <= (L + c - 1) / c) as Hq by (apply Z.div_pos; lia).
  split; intros Hk.
  - assert (Z.of_nat k < (L + c - 1) / c) by lia. nia.
  - assert (Z.of_nat k < (L + c - 1) / c) by nia. lia.
Qed.

(** The total length, in milliseconds, of the files under [names]. *)
Definition sum_millis (σ : gmap string media) (names : list string) : Z :=
  fold_right (fun p acc => default 0 (millis <$> σ !! p) + acc) 0 names.

Lemma sum_millis_map (σ : gmap string media) (name : nat -> string)
    (g : nat -> Z) (l : list nat) :
  (forall k, In k l -> exists m, σ !! name k = Some m /\ millis m = g k) ->
  sum_millis σ (map name l) = fold_right (fun k acc => g k + acc) 0 l.
Proof.
  induction l as [|k l IH]; intros Hall; [reflexivity|].
  cbn [map sum_millis fold_right].
  destruct (Hall k (or_introl eq_refl)) as (m & -> & <-). cbn.
  f_equal. apply IH. intros j Hj. apply Hall. now right.
Qed.

Lemma telescope (f : nat -> Z) (n : nat) :
  fold_right (fun k acc => (f (Datatypes.S k) - f k) + acc) 0 (seq 0 n)
  = f n - f 0%nat.
Proof.
  induction n as [|n IH]; [simpl; lia|].
  rewrite seq_S, fold_right_app. cbn [fold_right Nat.add].
  assert (forall l a,
             fold_right (fun k acc => f (Datatypes.S k) - f k + acc) a l
             = fold_right (fun k acc => f (Datatypes.S k) - f k + acc) 0 l + a)
    as Hshift.
  { induction l as [|x l IHl]; intros a; simpl; [lia|]. rewrite IHl. lia. }
  rewrite Hshift, IH. lia.
Qed.

(** X15.  Splitting a readable recording of length [L] into chunks of
    [c > 0] milliseconds, with every export succeeding and [tempfile]
    never repeating a name, returns the names of ceil(L / c) files in
    order; chunk [k] holds the stretch from [k * c] on, at most [c] long
    and exactly [c] long unless it is the last, in the format of the
    recording; together the chunks are as long as the recording. *)
Theorem split_audio_covers_recording :
  forall (C : chunk_host) (file_path : string) (c : Z)
         (σ : gmap string media) (audio : media) (f : audio_format),
    σ !! file_path = Some audio -> stream audio = Some f ->
    0 < c -> 0 <= millis audio ->
    (forall k, export_succeeds C k = true) ->
    (forall j k, chunk_temp_stem C j = chunk_temp_stem C k -> j = k) ->
    let result := split_audio_for_processing C file_path c σ in
    let n := chunk_count (millis audio) c in
    fst result = map (chunk_name C) (seq 0 n)
    /\ (Z.of_nat n - 1) * c < millis audio <= Z.of_nat n * c
    /\ (forall k, (k < n)%nat ->
          exists m,
            snd result !! chunk_name C k = Some m
            /\ stream m = Some f
            /\ millis m = Z.min c (millis audio - Z.of_nat k * c)
            /\ 0 < millis m <= c
            /\ ((Datatypes.S k < n)%nat -> millis m = c))
    /\ sum_millis (snd result) (fst result) = millis audio.
Proof.
  intros C file_path c σ audio f Hfile Hstream Hc HL Hok Hnames. cbv zeta.
  set (n := chunk_count (millis audio) c).
  set (starts := map (fun k => Z.of_nat k * c) (seq 0 n)).
  assert (split_audio_for_processing C file_path c σ
          = (map (chunk_name C) (seq 0 n), written C audio c 0 starts σ))
    as ->.
  { unfold split_audio_for_processing, from_wav.
    unfold mbind at 1 2, io_bind. rewrite Hfile, Hstream.
    rewrite (py_range_chunks _ _ Hc). fold n. fold starts.
    rewrite export_chunks_all by (intros; apply Hok).
    unfold starts. now rewrite length_map, length_seq. }
  cbn [fst snd].
  assert (forall k, (k < n)%nat ->
            written C audio c 0 starts σ !! chunk_name C k
            = Some (slice audio (Z.of_nat k * c) (Z.of_nat k * c + c))) as Hlook.
  { intros k Hk. apply (written_lookup C Hnames audio c starts 0 k).
    unfold starts. rewrite nth_error_map, nth_error_seq.
    destruct (Nat.ltb_spec k n); [reflexivity | lia]. }
  assert (forall k, (k < n)%nat <-> Z.of_nat k * c < millis audio) as Hn
    by (intros k; now apply chunk_count_spec).
  split; [reflexivity|]. split; [|split].
  - destruct n as [|n'].
    + assert (~ (0 < 0)%nat) as H0 by lia. rewrite (Hn 0%nat) in H0. lia.
    + assert (n' < Datatypes.S n')%nat as H1 by lia. apply Hn in H1.
      assert (~ (Datatypes.S n' < Datatypes.S n')%nat) as H2 by lia.
      rewrite (Hn (Datatypes.S n')) in H2. lia.
  - intros k Hk. eexists. split; [apply (Hlook k Hk)|].
    cbn [slice stream millis]. pose proof (proj1 (Hn k) Hk) as Hlt.
    split; [assumption|]. split; [lia|]. split; [lia|].
    intros Hk'. apply Hn in Hk'. lia.
  - rewrite (sum_millis_map _ (chunk_name C)
               (fun k => Z.min (Z.of_nat (Datatypes.S k) * c) (millis audio)
                         - Z.min (Z.of_nat k * c) (millis audio))).
    + rewrite (telescope (fun k => Z.min (Z.of_nat k * c) (millis audio))).
      destruct n as [|n'].
      * assert (~ (0 < 0)%nat) as H0 by lia. rewrite (Hn 0%nat) in H0. lia.
      * assert (~ (Datatypes.S n' < Datatypes.S n')%nat) as H2 by lia.
        rewrite (Hn (Datatypes.S n')) in H2. lia.
    + intros k Hk. apply in_seq in Hk. eexists. split; [apply Hlook; lia|].
      cbn [slice millis]. lia.
Qed.

(** A host whose [tempfile] never repeats a name and whose exports all
    succeed, and a 25 minute recording. *)
Definition demo_chunk_host : chunk_host :=
  {| chunk_temp_stem := fun k => "/tmp/tmp" ++ str (repeat "a"%char k);
     export_succeeds := fun _ => true |}.

Lemma demo_chunk_names_differ (ok : nat -> bool) (j k : nat) :
  chunk_temp_stem {| chunk_temp_stem := chunk_temp_stem demo_chunk_host;
                     export_succeeds := ok |} j
  = chunk_temp_stem {| chunk_temp_stem := chunk_temp_stem demo_chunk_host;
                       export_succeeds := ok |} k ->
  j = k.
Proof.
  cbn [chunk_temp_stem demo_chunk_host]. intros E.
  apply (f_equal chars) in E. rewrite !chars_append in E.
  apply app_inv_head in E. rewrite !chars_str in E.
  apply (f_equal (@List.length ascii)) in E.
  now rewrite !repeat_length in E.
Qed.

Definition long_recording : media :=
  {| magic_mime := Ok "audio/x-wav"; stream := Some wav_16k_mono;
     millis := 25 * 60 * 1000 |}.

Lemma split_audio_covers_recording_witness :
  let result :=
    split_audio_for_processing demo_chunk_host "/tmp/tmpa1b2c3d4.wav"
      default_chunk_duration_ms {[ "/tmp/tmpa1b2c3d4.wav" := long_recording ]} in
  fst result = ["/tmp/tmp.wav"; "/tmp/tmpa.wav"; "/tmp/tmpaa.wav"]
  /\ sum_millis (snd result) (fst result) = 1500000.
Proof.
  cbv zeta.
  destruct (split_audio_covers_recording demo_chunk_host "/tmp/tmpa1b2c3d4.wav"
              default_chunk_duration_ms
              {[ "/tmp/tmpa1b2c3d4.wav" := long_recording ]}
              long_recording wav_16k_mono)
    as (Hnames & _ & _ & Hsum).
  - reflexivity.
  - reflexivity.
  - reflexivity.
  - discriminate.
  - reflexivity.
  - apply (demo_chunk_names_differ (fun _ => true)).
  - split; [exact Hnames | exact Hsum].
Defined.

(** X16.  [split_audio_for_processing] returns no chunk and writes no file
    when the chunk length is zero or negative, when the file is missing or
    is no WAV file, and when the recording is empty. *)
Theorem split_audio_nothing_to_split :
  forall (C : chunk_host) (file_path : string) (c : Z)
         (σ : gmap string media),
    (forall audio, σ !! file_path = Some audio -> 0 <= millis audio) ->
    (c <= 0
     \/ match σ !! file_path with
        | Some audio => stream audio = None \/ millis audio = 0
        | None => True
        end) ->
    split_audio_for_processing C file_path c σ = ([], σ).
Proof.
  intros C file_path c σ Hlen Hcase.
  unfold split_audio_for_processing, from_wav.
  unfold mbind at 1 2, io_bind.
  destruct (σ !! file_path) as [audio|] eqn:Hfile; [|reflexivity].
  destruct (stream audio) as [f|] eqn:Hstream; [|reflexivity].
  specialize (Hlen audio eq_refl).
  assert (py_range 0 (millis audio) c = Raise ValueError
          \/ py_range 0 (millis audio) c = Ok []) as [-> | ->];
    [|reflexivity|reflexivity].
  unfold py_range. destruct (Z.eqb_spec c 0) as [|Hc0]; [now left|right].
  assert (forall n, n <= 0 ->
            Ok (map (fun k => 0 + Z.of_nat k * c) (seq 0 (Z.to_nat n)))
            = Ok (@nil Z)) as Hempty.
  { intros n Hn. replace (Z.to_nat n) with 0%nat by lia. reflexivity. }
  apply Hempty. destruct (Z.ltb_spec 0 c) as [Hpos|Hneg].
  - destruct Hcase as [Hc | [Hs | Hz]]; [lia | discriminate |].
    rewrite Hz. rewrite Z.div_small by lia. lia.
  - assert ((0 - millis audio - c - 1) / - c < 1); [|lia].
    apply Z.div_lt_upper_bound; lia.
Qed.

Lemma split_audio_nothing_to_split_witness :
  split_audio_for_processing demo_chunk_host "/tmp/tmpa1b2c3d4.wav" 0
    {[ "/tmp/tmpa1b2c3d4.wav" := long_recording ]}
  = ([], {[ "/tmp/tmpa1b2c3d4.wav" := long_recording ]})
  /\ split_audio_for_processing demo_chunk_host "/tmp/absent.wav"
       default_chunk_duration_ms
       {[ "/tmp/tmpa1b2c3d4.wav" := long_recording ]}
     = ([], {[ "/tmp/tmpa1b2c3d4.wav" := long_recording ]}).
Proof.
  split.
  - apply (split_audio_nothing_to_split demo_chunk_host
             "/tmp/tmpa1b2c3d4.wav" 0).
    + intros audio E. injection E as <-. discriminate.
    + left. lia.
  - apply (split_audio_nothing_to_split demo_chunk_host "/tmp/absent.wav").
    + intros audio E. discriminate E.
    + right. exact I.
Defined.

(** X17.  When the export of chunk [j] fails, the function reports no
    chunk at all, although the files of the chunks before [j] are still on
    disk, together with the empty file created for chunk [j]; files under
    other names are as before. *)
Theorem split_audio_failure_leaves_chunks :
  forall (C : chunk_host) (file_path : string) (c : Z)
         (σ : gmap string media) (audio : media) (f : audio_format)
         (j : nat),
    σ !! file_path = Some audio -> stream audio = Some f ->
    0 < c ->
    (forall i k, chunk_temp_stem C i = chunk_temp_stem C k -> i = k) ->
    (j < chunk_count (millis audio) c)%nat ->
    (forall k, (k < j)%nat -> export_succeeds C k = true) ->
    export_succeeds C j = false ->
    let result := split_audio_for_processing C file_path c σ in
    fst result = []
    /\ (forall k, (k < j)%nat ->
          snd result !! chunk_name C k
          = Some (slice audio (Z.of_nat k * c) (Z.of_nat k * c + c)))
    /\ snd result !! chunk_name C j = Some empty_file
    /\ (forall p, (forall k, p <> chunk_name C k) ->
          snd result !! p = σ !! p).
Proof.
  intros C file_path c σ audio f j Hfile Hstream Hc Hnames Hj Hok Hfail.
  cbv zeta.
  set (n := chunk_count (millis audio) c) in *.
  set (g := fun k : nat => Z.of_nat k * c).
  set (done := map g (seq 0 j)).
  assert (map g (seq 0 n)
          = (done ++ g j :: map g (seq (Datatypes.S j) (n - Datatypes.S j)))%list)
    as Hsplit.
  { replace n with (j + Datatypes.S (n - Datatypes.S j))%nat at 1 by lia.
    rewrite seq_app, map_app. reflexivity. }
  assert (List.length done = j) as Hlen
    by (unfold done; now rewrite length_map, length_seq).
  assert (split_audio_for_processing C file_path c σ
          = ([], <[chunk_name C j := empty_file]>
                   (written C audio c 0 done σ))) as ->.
  { unfold split_audio_for_processing, from_wav.
    unfold mbind at 1 2, io_bind. rewrite Hfile, Hstream.
    rewrite (py_range_chunks _ _ Hc). fold n. fold g. rewrite Hsplit.
    rewrite export_chunks_stops.
    - cbn [Nat.add]. now rewrite Hlen.
    - rewrite Hlen. intros k Hk. apply in_seq in Hk. apply Hok. lia.
    - cbn [Nat.add]. now rewrite Hlen. }
  cbn [fst snd]. split; [reflexivity|]. split; [|split].
  - intros k Hk. rewrite lookup_insert_ne.
    + apply (written_lookup C Hnames audio c done 0 k).
      unfold done. rewrite nth_error_map, nth_error_seq.
      destruct (Nat.ltb_spec k j); [reflexivity | lia].
    + intros E. apply (chunk_name_inj C Hnames) in E. lia.
  - apply lookup_insert_eq.
  - intros p Hp. rewrite lookup_insert_ne by (intros E; apply (Hp j); now symmetry).
    now apply written_other.
Qed.

(** The export of the second chunk fails. *)
Definition failing_chunk_host : chunk_host :=
  {| chunk_temp_stem := chunk_temp_stem demo_chunk_host;
     export_succeeds := fun k => (k =? 0)%nat |}.

Lemma split_audio_failure_leaves_chunks_witness :
  let result :=
    split_audio_for_processing failing_chunk_host "/tmp/tmpa1b2c3d4.wav"
      default_chunk_duration_ms {[ "/tmp/tmpa1b2c3d4.wav" := long_recording ]} in
  fst result = []
  /\ snd result !! "/tmp/tmp.wav"
     = Some (slice long_recording 0 default_chunk_duration_ms)
  /\ snd result !! "/tmp/tmpa.wav" = Some empty_file.
Proof.
  cbv zeta.
  destruct (split_audio_failure_leaves_chunks failing_chunk_host
              "/tmp/tmpa1b2c3d4.wav" default_chunk_duration_ms
              {[ "/tmp/tmpa1b2c3d4.wav" := long_recording ]}
              long_recording wav_16k_mono 1)
    as (Hnone & Hkept & Hempty & _).
  - reflexivity.
  - reflexivity.
  - reflexivity.
  - apply (demo_chunk_names_differ (fun k => (k =? 0)%nat)).
  - vm_compute. lia.
  - intros k Hk. assert (k = 0%nat) as -> by lia. reflexivity.
  - reflexivity.
  - split; [exact Hnone|]. split; [|exact Hempty].
    apply (Hkept 0%nat). lia.
Defined.

End Chunks.

(** * Further properties of the analysis *)

Section AnalysisMore.
Import AudioProcessor AiAnalyzer.

(** A lower-case ASCII letter or a white-space character. *)
Definition is_lower_or_space (c : ascii) : bool :=
  let n := code c in
  ((97 <=? n) && (n <=? 122) || (9 <=? n) && (n <=? 13)
   || (28 <=? n) && (n <=? 32) || (n =? 133) || (n =? 160))%N.

Lemma kept_after_lower (c : ascii) :
  is_alpha_or_space (py_lower_char c) = true ->
  is_lower_or_space (py_lower_char c) = true
  /\ py_lower_char (py_lower_char c) = py_lower_char c.
Proof.
  destruct c as [[] [] [] [] [] [] [] []]; vm_compute;
    first [discriminate | split; reflexivity].
Qed.

Lemma filter_map_kept (l : text) :
  Forall (fun c => is_lower_or_space c = true /\ py_lower_char c = c
                   /\ is_alpha_or_space c = true)
         (List.filter is_alpha_or_space (map py_lower_char l)).
Proof.
  induction l as [|c l IH]; cbn [map List.filter]; [constructor|].
  destruct (is_alpha_or_space (py_lower_char c)) eqn:E; [|exact IH].
  constructor; [|exact IH].
  destruct (kept_after_lower c E) as [Hl Hi]. auto.
Qed.

Lemma filter_length_le {A} (f : A -> bool) (l : list A) :
  (List.length (List.filter f l) <= List.length l)%nat.
Proof.
  induction l as [|a l IH]; simpl; [lia|]. destruct (f a); simpl; lia.
Qed.

(** X18.  The text handed to the vectoriser holds lower-case ASCII letters
    and white space only: upper-case letters are folded before the filter
    sees them, so its range [A-Z] never applies.  The text is no longer
    than the input, and cleaning it again changes nothing. *)
Theorem clean_text_lower_case_letters :
  forall text : string,
    Forall (fun c => is_lower_or_space c = true) (chars (clean_text text))
    /\ (String.length (clean_text text) <= String.length text)%nat
    /\ clean_text (clean_text text) = clean_text text.
Proof.
  intros text. unfold clean_text. rewrite !chars_str.
  pose proof (filter_map_kept (chars text)) as Hkept.
  split; [|split].
  - eapply List.Forall_impl; [|exact Hkept]. intros c H. apply H.
  - rewrite <- (str_chars text) at 2.
    assert (forall t, String.length (str t) = List.length t) as Hlen.
    { induction t as [|c t IH]; simpl; [reflexivity | now rewrite IH]. }
    rewrite !Hlen.
    etransitivity; [apply filter_length_le|]. now rewrite length_map.
  - f_equal.
    induction Hkept as [|c l (_ & Hc & Hk) _ IH]; [reflexivity|].
    cbn [map List.filter]. rewrite Hc, Hk. now rewrite IH.
Qed.

(** X19.  [transcribe_audio] returns None when the file cannot be opened or
    the service raises; otherwise a dictionary with exactly the keys
    [text], [segments] and [language], whose [text] is the string the
    service returned.  That dictionary counts as true even when the text is
    empty. *)
Theorem transcribe_audio_shape :
  forall (S : services) (audio_file_path : string) (σ : gmap string media),
    let result := transcribe_audio S audio_file_path σ in
    (result = PNone
     /\ (σ !! audio_file_path = None
         \/ exists m e, σ !! audio_file_path = Some m
                        /\ audio_transcriptions_create S m = Raise e))
    \/ (exists m response segments language,
          σ !! audio_file_path = Some m
          /\ audio_transcriptions_create S m = Ok response
          /\ result = PDict [("text", PStr (response_text response));
                             ("segments", segments);
                             ("language", language)]
          /\ truthy result = true
          /\ py_getitem result "text" = Ok (PStr (response_text response))).
Proof.
  intros S p σ. cbv zeta. unfold transcribe_audio.
  destruct (σ !! p) as [m|] eqn:Hfile; [|left; split; [reflexivity | now left]].
  cbn [mbind exn_bind].
  destruct (audio_transcriptions_create S m) as [response|e] eqn:Hresp.
  - right. exists m, response. do 2 eexists.
    split; [reflexivity|]. split; [exact Hresp|].
    split; [reflexivity|]. split; reflexivity.
  - left. split; [reflexivity|]. right. eauto.
Qed.

(** X20.  [identify_speakers] ignores its argument: with or without segment
    data, and for values that are no dictionary, the result is the canned
    one of a single speaker, no segments and confidence 0.1. *)
Theorem identify_speakers_ignores_input :
  forall transcription_data other : pyval,
    identify_speakers transcription_data = identify_speakers other
    /\ py_getitem (identify_speakers transcription_data) "estimated_speakers"
       = Ok (PInt 1)
    /\ py_getitem (identify_speakers transcription_data) "speaker_segments"
       = Ok (PList [])
    /\ py_getitem (identify_speakers transcription_data) "confidence"
       = Ok (PFloat 0.1).
Proof.
  intros d d'. rewrite !identify_speakers_constant.
  repeat split; reflexivity.
Qed.

End AnalysisMore.

(** ** The keywords of a topic *)

Section TopicKeywords.
Import AiAnalyzer.

(** The pairs of index and weight that [argsort] orders. *)
Definition indexed (row : list float) : list (nat * float) :=
  combine (seq 0 (List.length row)) row.

Definition sorted_pairs (row : list float) : list (nat * float) :=
  fold_right insert_sorted [] (indexed row).

Definition le_snd (a b : nat * float) : Prop :=
  (snd a <=? snd b)%float = true.

Lemma insert_sorted_perm (x : nat * float) (l : list (nat * float)) :
  Permutation (insert_sorted x l) (x :: l).
Proof.
  induction l as [|y l IH]; simpl; [reflexivity|].
  destruct (np_lt (snd y) (snd x)); [|reflexivity].
  rewrite IH. apply perm_swap.
Qed.

Lemma sorted_pairs_perm (row : list float) :
  Permutation (sorted_pairs row) (indexed row).
Proof.
  unfold sorted_pairs. induction (indexed row) as [|x l IH]; simpl;
    [reflexivity|].
  rewrite insert_sorted_perm. now constructor.
Qed.

Lemma np_lt_no_nan (a b : float) :
  PrimFloat.is_nan a = false -> PrimFloat.is_nan b = false ->
  np_lt a b = (a <? b)%float.
Proof.
  intros Ha Hb. unfold np_lt. rewrite Hb, andb_false_r. apply orb_false_r.
Qed.

Lemma insert_sorted_sorted (x : nat * float) (l : list (nat * float)) :
  PrimFloat.is_nan (snd x) = false ->
  Forall (fun y => PrimFloat.is_nan (snd y) = false) l ->
  StronglySorted le_snd l -> StronglySorted le_snd (insert_sorted x l).
Proof.
  intros Hx Hl Hs. induction Hs as [|y l Hs IH Hy]; simpl.
  - repeat constructor.
  - inversion Hl as [|? ? Hyn Hln]; subst.
    rewrite np_lt_no_nan by assumption.
    destruct (snd y <? snd x)%float eqn:E.
    + constructor; [now apply IH|].
      rewrite insert_sorted_perm. constructor; [|assumption].
      now apply float_ltb_leb.
    + assert (le_snd x y) as Hxy by now apply float_ltb_false_leb.
      constructor; [now constructor|].
      constructor; [assumption|].
      eapply List.Forall_impl; [|exact Hy].
      intros z Hz. now apply float_leb_trans with (y := snd y).
Qed.

Lemma in_combine_seq (row : list float) :
  forall (k i : nat) (x : float),
    In (i, x) (combine (seq k (List.length row)) row) ->
    (k <= i)%nat /\ nth_error row (i - k) = Some x.
Proof.
  induction row as [|y row IH]; intros k i x; simpl; [tauto|].
  intros [E | Hin].
  - injection E as <- <-. rewrite Nat.sub_diag. split; [lia | reflexivity].
  - destruct (IH _ _ _ Hin) as [Hk Hn]. split; [lia|].
    replace (i - k)%nat with (Datatypes.S (i - Datatypes.S k)) by lia.
    exact Hn.
Qed.

Lemma indexed_spec (row : list float) (i : nat) (x : float) :
  In (i, x) (indexed row) -> nth_error row i = Some x.
Proof.
  intros Hin. apply in_combine_seq in Hin as [_ Hn].
  now rewrite Nat.sub_0_r in Hn.
Qed.

Lemma indexed_fst (row : list float) :
  map fst (indexed row) = seq 0 (List.length row).
Proof.
  unfold indexed.
  assert (forall k, map fst (combine (seq k (List.length row)) row)
                    = seq k (List.length row)) as Hk; [|apply Hk].
  induction row as [|y row IH]; intros k; simpl; [reflexivity|].
  now rewrite IH.
Qed.

Lemma sorted_pairs_spec (row : list float) (i : nat) (x : float) :
  In (i, x) (sorted_pairs row) -> nth_error row i = Some x.
Proof.
  intros Hin. apply indexed_spec.
  now apply (Permutation_in _ (sorted_pairs_perm row)).
Qed.

Lemma no_nan_nth (row : list float) (i : nat) (x : float) :
  no_nan row = true -> nth_error row i = Some x ->
  PrimFloat.is_nan x = false.
Proof.
  intros Hrow Hn. apply nth_error_In in Hn. unfold no_nan in Hrow.
  rewrite forallb_forall in Hrow. apply negb_true_iff. now apply Hrow.
Qed.

Lemma sorted_pairs_sorted (row : list float) :
  no_nan row = true -> StronglySorted le_snd (sorted_pairs row).
Proof.
  intros Hrow. unfold sorted_pairs.
  assert (Forall (fun y => PrimFloat.is_nan (snd y) = false) (indexed row))
    as Hall.
  { apply List.Forall_forall. intros [i x] Hin.
    apply (no_nan_nth row i x Hrow). now apply indexed_spec. }
  induction Hall as [|y l Hy Hl IH]; simpl; [constructor|].
  apply insert_sorted_sorted; [assumption | | assumption].
  clear IH. induction Hl as [|z l Hz Hl IH]; simpl; [constructor|].
  rewrite insert_sorted_perm. now constructor.
Qed.

Lemma argsort_pairs (row : list float) :
  argsort row = map fst (sorted_pairs row).
Proof. reflexivity. Qed.

Lemma argsort_perm (row : list float) :
  Permutation (argsort row) (seq 0 (List.length row)).
Proof.
  rewrite argsort_pairs, <- indexed_fst.
  apply Permutation_map, sorted_pairs_perm.
Qed.

(** [a[-10:][::-1][:5]] is [a[-5:][::-1]]. *)
Lemma top_five {A} (a : list A) :
  firstn 5 (rev (py_suffix 10 a)) = rev (py_suffix 5 a).
Proof.
  unfold py_suffix. rewrite firstn_rev, skipn_skipn, length_skipn.
  do 2 f_equal. lia.
Qed.

Lemma Forall2_firstn {A B} (R : A -> B -> Prop) (n : nat) (l : list A)
    (l' : list B) :
  Forall2 R l l' -> Forall2 R (firstn n l) (firstn n l').
Proof.
  intros HR. revert n. induction HR as [|x y l l' Hxy HR IH]; intros [|n];
    simpl; constructor; auto.
Qed.

Lemma StronglySorted_app_inv {A} (R : A -> A -> Prop) (l1 l2 : list A) :
  StronglySorted R (l1 ++ l2)%list ->
  StronglySorted R l2
  /\ forall a b, In a l1 -> In b l2 -> R a b.
Proof.
  induction l1 as [|x l1 IH]; simpl; intros Hs.
  - split; [assumption | tauto].
  - inversion Hs as [|? ? Hs' Hx]; subst. destruct (IH Hs') as [H2 H12].
    split; [assumption|]. intros a b [<- | Ha] Hb; [|auto].
    rewrite List.Forall_forall in Hx. apply Hx, in_or_app. now right.
Qed.

Lemma StronglySorted_rev {A} (R : A -> A -> Prop) (l : list A) :
  StronglySorted R l -> StronglySorted (fun a b => R b a) (rev l).
Proof.
  induction 1 as [|x l Hs IH Hx]; simpl; [constructor|].
  assert (forall l', StronglySorted (fun a b => R b a) l' ->
                     Forall (fun a => R x a) l' ->
                     StronglySorted (fun a b => R b a) (l' ++ [x])%list)
    as Hsnoc.
  { induction 1 as [|y l' Hs' IH' Hy]; simpl; intros Hall.
    - repeat constructor.
    - inversion Hall; subst. constructor; [auto|].
      apply List.Forall_app. split; [assumption | repeat constructor; assumption]. }
  apply Hsnoc; [assumption|].
  apply List.Forall_forall. intros a Ha. apply in_rev in Ha.
  rewrite List.Forall_forall in Hx. auto.
Qed.

Lemma StronglySorted_map_fst {A B} (R : A * B -> A * B -> Prop)
    (R' : A -> A -> Prop) (l : list (A * B)) :
  (forall p q, In p l -> In q l -> R p q -> R' (fst p) (fst q)) ->
  StronglySorted R l -> StronglySorted R' (map fst l).
Proof.
  intros Himp Hs. induction Hs as [|x l Hs IH Hx]; simpl; [constructor|].
  constructor.
  - apply IH. intros p q Hp Hq. apply Himp; now right.
  - apply List.Forall_forall. intros a Ha. apply in_map_iff in Ha as (q & <- & Hq).
    rewrite List.Forall_forall in Hx. apply Himp; [now left | now right | auto].
Qed.

(** The weight of term [j] in [row] is at most that of term [i]. *)
Definition weight_le (row : list float) (j i : nat) : Prop :=
  exists x y, nth_error row j = Some x /\ nth_error row i = Some y
              /\ (x <=? y)%float = true.

(** The indices [topic.argsort()[-10:][::-1][:5]]. *)
Definition top_indices (row : list float) : list nat :=
  firstn 5 (rev (py_suffix 10 (argsort row))).

Lemma top_indices_pairs (row : list float) :
  top_indices row = map fst (rev (py_suffix 5 (sorted_pairs row))).
Proof.
  unfold top_indices. rewrite top_five, argsort_pairs.
  unfold py_suffix. now rewrite length_map, skipn_map, map_rev.
Qed.

Lemma top_indices_spec (row : list float) :
  List.NoDup (top_indices row)
  /\ List.length (top_indices row) = Nat.min 5 (List.length row)
  /\ (forall i, In i (top_indices row) -> (i < List.length row)%nat)
  /\ (no_nan row = true ->
      StronglySorted (fun i j => weight_le row j i) (top_indices row)
      /\ forall i j, In i (top_indices row) -> (j < List.length row)%nat ->
                     ~ In j (top_indices row) -> weight_le row j i).
Proof.
  pose proof (argsort_perm row) as Hperm.
  assert (List.length (sorted_pairs row) = List.length row) as Hlen.
  { rewrite (Permutation_length (sorted_pairs_perm row)). unfold indexed.
    rewrite length_combine, length_seq. lia. }
  assert (List.NoDup (argsort row)) as Hnd.
  { apply (Permutation_NoDup (Permutation_sym Hperm)), seq_NoDup. }
  set (s := sorted_pairs row) in *.
  set (pre := firstn (List.length s - 5) s).
  set (suf := py_suffix 5 s).
  assert (s = (pre ++ suf)%list) as Hs
    by (symmetry; apply firstn_skipn).
  assert (forall i, In i (top_indices row) <-> In i (map fst suf)) as Hin.
  { intros i. rewrite top_indices_pairs. fold s. fold suf.
    rewrite map_rev. symmetry. apply in_rev. }
  rewrite argsort_pairs in Hnd, Hperm. fold s in Hnd, Hperm.
  rewrite Hs, map_app in Hnd.
  split; [|split; [|split]].
  - rewrite top_indices_pairs. fold s. fold suf. rewrite map_rev.
    apply NoDup_rev. now apply NoDup_app_remove_l in Hnd.
  - rewrite top_indices_pairs. fold s. fold suf.
    rewrite length_map, length_rev. unfold suf, py_suffix.
    rewrite length_skipn. lia.
  - intros i Hi. apply Hin in Hi.
    assert (In i (map fst s)) as Hi'
      by (rewrite Hs, map_app; apply in_or_app; now right).
    apply (Permutation_in _ Hperm) in Hi'. apply in_seq in Hi'. lia.
  - intros Hrow. pose proof (sorted_pairs_sorted row Hrow) as Hsorted.
    fold s in Hsorted. rewrite Hs in Hsorted.
    apply StronglySorted_app_inv in Hsorted as [Hsuf Hcross].
    assert (forall p q, In p s -> In q s -> le_snd p q ->
                        weight_le row (fst p) (fst q)) as Hle.
    { intros [j x] [i y] Hp Hq Hpq. exists x, y.
      split; [now apply sorted_pairs_spec|].
      split; [now apply sorted_pairs_spec | exact Hpq]. }
    assert (forall p, In p suf -> In p s) as Hsub
      by (intros p Hp; rewrite Hs; apply in_or_app; now right).
    split.
    + rewrite top_indices_pairs. fold s. fold suf.
      apply (StronglySorted_map_fst (fun a b => le_snd b a)).
      * intros p q Hp Hq Hqp. apply in_rev in Hp, Hq. apply Hle; auto.
      * now apply StronglySorted_rev.
    + intros i j Hi Hj Hnj. apply Hin in Hi.
      apply in_map_iff in Hi as (q & <- & Hq).
      assert (In j (map fst s)) as Hj'.
      { apply (Permutation_in _ (Permutation_sym Hperm)), in_seq. lia. }
      rewrite Hs, map_app in Hj'. apply in_app_or in Hj' as [Hj' | Hj'].
      * apply in_map_iff in Hj' as (p & <- & Hp).
        apply Hle; [rewrite Hs; apply in_or_app; now left | auto | auto].
      * contradict Hnj. now apply Hin.
Qed.

Lemma topic_of_keywords (names : list string) (i : nat) (row : list float)
    (t : topic_entry) :
  topic_of names i row = Ok t ->
  Forall2 (fun j k => nth_error names j = Some k) (top_indices row)
          (keywords t).
Proof.
  unfold topic_of.
  destruct (mapE _ (rev (py_suffix 10 (argsort row)))) as [fs|] eqn:E; simpl;
    [|discriminate].
  destruct (np_max row) as [w|]; simpl; [|discriminate].
  intros Et. injection Et as <-. cbn [keywords].
  apply mapE_Forall2 in E. apply (Forall2_firstn _ 5) in E.
  eapply List.Forall2_impl; [|exact E].
  intros j k. cbv beta. destruct (nth_error names j); [|discriminate].
  intros Ek. now injection Ek as <-.
Qed.

Lemma topics_from_ids (names : list string) (comps : list (list float)) :
  forall (i : nat) (ts : list topic_entry),
    topics_from names i comps = Ok ts ->
    map topic_id ts = seq i (List.length comps).
Proof.
  induction comps as [|row comps IH]; intros i ts; simpl.
  - intros E. now injection E as <-.
  - destruct (topic_of names i row) as [t0|] eqn:E0; simpl; [|discriminate].
    destruct (topics_from names (Datatypes.S i) comps) as [ts0|] eqn:E1; simpl;
      [|discriminate].
    intros E. injection E as <-. simpl.
    destruct (topic_of_spec _ _ _ _ E0) as (-> & _). f_equal. now apply IH.
Qed.

(** X21.  The topics come out all or none: either the list is empty, or
    there is one topic for every component of the model, numbered 0, 1,
    2, ... in the order of the components. *)
Theorem extract_topics_all_or_none :
  forall (S : services) (text : string) (num_topics : Z),
    let topics := extract_topic_entries S text num_topics in
    map topic_id topics = seq 0 (List.length topics)
    /\ (topics = []
        \/ exists components,
             lda_components S (Z.min num_topics 5) (clean_text text)
             = Ok components
             /\ List.length topics = List.length components).
Proof.
  intros S text num_topics. cbv zeta. unfold extract_topic_entries.
  destruct (tfidf_feature_names S (clean_text text)) as [names|]; simpl;
    [|split; [reflexivity | now left]].
  destruct (lda_components S (Z.min num_topics 5) (clean_text text))
    as [comps|]; simpl; [|split; [reflexivity | now left]].
  destruct (topics_from names 0 comps) as [ts|] eqn:E; simpl;
    [|split; [reflexivity | now left]].
  pose proof (topics_from_ids _ _ _ _ E) as Hids.
  destruct (topics_from_spec _ _ _ _ E) as [Hlen _].
  split; [now rewrite Hlen|]. right. exists comps. split; [reflexivity | exact Hlen].
Qed.

(** X22.  The keywords of a topic are the feature names at the positions of
    the five largest weights of its component (all positions, when there
    are fewer than five): the positions are distinct, and when the
    component holds no NaN they come in the order of falling weight, and no
    position left out has a larger weight than one that was taken. *)
Theorem extract_topics_keywords_are_top_terms :
  forall (S : services) (text : string) (num_topics : Z) (t : topic_entry),
    In t (extract_topic_entries S text num_topics) ->
    exists names components row idxs,
      tfidf_feature_names S (clean_text text) = Ok names
      /\ lda_components S (Z.min num_topics 5) (clean_text text)
         = Ok components
      /\ nth_error components (topic_id t) = Some row
      /\ Forall2 (fun i k => nth_error names i = Some k) idxs (keywords t)
      /\ List.NoDup idxs
      /\ List.length idxs = Nat.min 5 (List.length row)
      /\ (forall i, In i idxs -> (i < List.length row)%nat)
      /\ (no_nan row = true ->
          StronglySorted (fun i j => weight_le row j i) idxs
          /\ forall i j, In i idxs -> (j < List.length row)%nat ->
                         ~ In j idxs -> weight_le row j i).
Proof.
  intros S text num_topics t. unfold extract_topic_entries.
  destruct (tfidf_feature_names S (clean_text text)) as [names|]; simpl;
    [|tauto].
  destruct (lda_components S (Z.min num_topics 5) (clean_text text))
    as [comps|]; simpl; [|tauto].
  destruct (topics_from names 0 comps) as [ts|] eqn:E; simpl; [|tauto].
  intros Ht. destruct (topics_from_spec _ _ _ _ E) as [_ Hall].
  destruct (Hall t Ht) as (row & Hnth & _ & Htopic).
  rewrite Nat.sub_0_r in Hnth.
  exists names, comps, row, (top_indices row).
  split; [reflexivity|]. split; [reflexivity|]. split; [exact Hnth|].
  split; [now apply (topic_of_keywords names (topic_id t))|].
  apply top_indices_spec.
Qed.

Lemma extract_topics_keywords_are_top_terms_witness :
  exists names components row idxs,
    tfidf_feature_names (services_answering (Ok None))
      (clean_text "We shipped the release.") = Ok names
    /\ lda_components (services_answering (Ok None)) (Z.min 2 5)
         (clean_text "We shipped the release.") = Ok components
    /\ nth_error components 1 = Some row
    /\ Forall2 (fun i k => nth_error names i = Some k) idxs
               ["release"; "shipped"]
    /\ List.NoDup idxs
    /\ List.length idxs = Nat.min 5 (List.length row)
    /\ (forall i, In i idxs -> (i < List.length row)%nat)
    /\ (no_nan row = true ->
        StronglySorted (fun i j => weight_le row j i) idxs
        /\ forall i j, In i idxs -> (j < List.length row)%nat ->
                       ~ In j idxs -> weight_le row j i).
Proof.
  apply (extract_topics_keywords_are_top_terms (services_answering (Ok None))
           "We shipped the release." 2
           {| topic_id := 1; keywords := ["release"; "shipped"];
              weight := 0.75 |}).
  right. left. vm_compute. reflexivity.
Defined.

End TopicKeywords.

(** * Further properties of the pipeline *)

Section PipelineMore.
Import AudioProcessor AiAnalyzer FileUpload.

Variable J : json_codec.
Variable S : services.
Variable H : host.
Variable now : string.
Variable db_fault : bool.

(** [process_audio_file] touches the two scratch names only. *)
Lemma process_audio_file_frame (up : uploaded_file) (σ : gmap string media)
    (q : string) :
  q <> temp_input_path_of H up ->
  q <> py_replace (temp_input_path_of H up)
         (split_dot_last (temp_input_path_of H up)) "wav" ->
  snd (process_audio_file H up σ) !! q = σ !! q.
Proof.
  set (inp := temp_input_path_of H up).
  set (out := py_replace inp (split_dot_last inp) "wav").
  intros Hinp Hout.
  unfold process_audio_file, process_audio_file_body.
  fold inp. fold out. unfold mbind, io_bind, mret, io_ret, raise.
  set (σ1 := <[inp := contents up]> σ).
  assert (σ1 !! q = σ !! q) as H1 by (apply lookup_insert_ne; congruence).
  assert (os_unlink inp σ1 = (Ok tt, delete inp σ1)) as Hunlink.
  { unfold os_unlink, σ1. now rewrite lookup_insert_eq. }
  assert (delete inp σ1 !! q = σ !! q) as Hdel
    by (rewrite lookup_delete_ne by congruence; exact H1).
  destruct (detect_file_type inp σ1) as [mime|];
    [|rewrite Hunlink; exact Hdel].
  destruct (String.eqb mime "" || negb (mem mime supported_types));
    [rewrite Hunlink; exact Hdel|].
  destruct (py_startswith mime "video/" || negb (String.eqb mime "audio/wav")).
  - destruct (convert_to_wav_outcome H inp out σ1)
      as [[Hf Hs] | (Hf & m & _ & Hs)];
      destruct (convert_to_wav H inp out σ1) as [ok σ2];
      cbn [fst snd] in Hf, Hs; subst ok; cbn [negb].
    + assert (σ2 !! q = σ !! q) as H2.
      { destruct Hs as [-> | [partial ->]]; [exact H1|].
        rewrite lookup_insert_ne by congruence. exact H1. }
      unfold os_unlink. destruct (σ2 !! inp); cbn [snd]; [|exact H2].
      rewrite lookup_delete_ne by congruence. exact H2.
    + assert (σ2 !! q = σ !! q) as H2.
      { rewrite Hs, lookup_insert_ne by congruence. exact H1. }
      destruct (String.eqb inp out); cbn [negb snd]; [exact H2|].
      unfold os_unlink. destruct (σ2 !! inp); cbn [snd]; [|exact H2].
      rewrite lookup_delete_ne by congruence. exact H2.
  - rewrite String.eqb_refl. cbn [negb snd]. exact H1.
Qed.

Lemma unlink_db (p : string) (w : world) : db (snd (unlink p w)) = db w.
Proof. unfold unlink. destruct (os_unlink p (files w)); reflexivity. Qed.

Lemma handler_db (p : string) (w : world) :
  db (if os_path_exists p (files w) then snd (unlink p w) else w) = db w.
Proof. destruct (os_path_exists p (files w)); [apply unlink_db | reflexivity]. Qed.

(** The database after the [try] block: as before, or after the one call
    of [save_meeting_data]. *)
Lemma after_normalization_db_cases (up : uploaded_file) (p : string)
    (w1 : world) :
  db (after_normalization J S now db_fault up p w1) = db w1
  \/ exists text,
       py_getitem (transcribe_audio S p (files w1)) "text" = Ok (PStr text)
       /\ truthy (generate_meeting_summary J S text) = true
       /\ db (after_normalization J S now db_fault up p w1)
          = snd (Database.save_meeting_data J db_fault now (name up)
                   (transcribe_audio S p (files w1))
                   (generate_meeting_summary J S text)
                   (analyze_sentiment J S text)
                   (extract_topics S text 5)
                   (identify_speakers (transcribe_audio S p (files w1)))
                   (generate_knowledge_connections J S
                      (generate_meeting_summary J S text)
                      (extract_topics S text 5))
                   (size up) (get_audio_duration p (files w1)) (db w1)).
Proof.
  unfold after_normalization, pipeline_body.
  unfold mbind, io_bind, mret, io_ret, lift.
  destruct (truthy (transcribe_audio S p (files w1))); cbn [negb].
  2:{ left. apply (after_unlink p w1). }
  destruct (py_getitem (transcribe_audio S p (files w1)) "text") as [v|e];
    cbn [exn_bind].
  2:{ left. apply handler_db. }
  destruct v as [| | | |text| |]; cbn [as_str];
    try (left; apply handler_db).
  destruct (truthy (generate_meeting_summary J S text)) eqn:Hsum; cbn [negb].
  2:{ left. apply (after_unlink p w1). }
  right. exists text. split; [reflexivity|]. split; [exact Hsum|].
  destruct (Database.save_meeting_data _ _ _ _ _ _ _ _ _ _ _ _ _)
    as [id db'].
  apply (after_unlink p {| files := files w1; db := db' |}).
Qed.

Lemma process_meeting_file_db_cases (up : uploaded_file) (w : world) :
  let σ1 := snd (process_audio_file H up (files w)) in
  db (process_meeting_file J S H now db_fault up w) = db w
  \/ exists p text,
       fst (process_audio_file H up (files w)) = Some p
       /\ py_getitem (transcribe_audio S p σ1) "text" = Ok (PStr text)
       /\ truthy (generate_meeting_summary J S text) = true
       /\ db (process_meeting_file J S H now db_fault up w)
          = snd (Database.save_meeting_data J db_fault now (name up)
                   (transcribe_audio S p σ1)
                   (generate_meeting_summary J S text)
                   (analyze_sentiment J S text)
                   (extract_topics S text 5)
                   (identify_speakers (transcribe_audio S p σ1))
                   (generate_knowledge_connections J S
                      (generate_meeting_summary J S text)
                      (extract_topics S text 5))
                   (size up) (get_audio_duration p σ1) (db w)).
Proof.
  cbv zeta. rewrite process_meeting_file_unfold. cbv zeta.
  destruct (fst (process_audio_file H up (files w))) as [p|] eqn:Hp;
    [|now left].
  destruct (String.eqb p ""); [now left|].
  destruct (after_normalization_db_cases up p
              {| files := snd (process_audio_file H up (files w));
                 db := db w |}) as [E | (text & Ht & Hs & E)];
    [now left|].
  right. exists p, text. cbn [files db] in *. auto.
Qed.

Lemma process_meeting_file_db_saved (up : uploaded_file) (w : world)
    (p text : string) :
  let σ1 := snd (process_audio_file H up (files w)) in
  fst (process_audio_file H up (files w)) = Some p ->
  py_getitem (transcribe_audio S p σ1) "text" = Ok (PStr text) ->
  truthy (generate_meeting_summary J S text) = true ->
  db (process_meeting_file J S H now db_fault up w)
  = snd (Database.save_meeting_data J db_fault now (name up)
           (transcribe_audio S p σ1)
           (generate_meeting_summary J S text)
           (analyze_sentiment J S text)
           (extract_topics S text 5)
           (identify_speakers (transcribe_audio S p σ1))
           (generate_knowledge_connections J S
              (generate_meeting_summary J S text)
              (extract_topics S text 5))
           (size up) (get_audio_duration p σ1) (db w)).
Proof.
  intros σ1 Hp Htext Hsum. rewrite process_meeting_file_unfold. cbv zeta.
  rewrite Hp.
  pose proof (normalized_path_nonempty H up (files w) p Hp) as Hne.
  apply String.eqb_neq in Hne. rewrite Hne.
  unfold after_normalization, pipeline_body.
  unfold mbind, io_bind, mret, io_ret, lift.
  cbn [files db]. fold σ1.
  assert (truthy (transcribe_audio S p σ1) = true) as Htr.
  { destruct (transcribe_audio S p σ1) as [| | | | | |[|kv d]];
      try discriminate. reflexivity. }
  rewrite Htr, Htext. cbn [negb exn_bind as_str]. rewrite Hsum. cbn [negb].
  destruct (Database.save_meeting_data _ _ _ _ _ _ _ _ _ _ _ _ _)
    as [id db'].
  apply (after_unlink p {| files := σ1; db := db' |}).
Qed.

End PipelineMore.

(** X23.  Whatever happens in a run of [process_meeting_file], no file
    other than the scratch copy of the upload and its WAV counterpart is
    created, changed or removed, and the database is either as before or
    has gained exactly one row, at the end, under the next rowid and with
    the name and size of the upload and the date of the call. *)
Theorem process_meeting_file_footprint :
  forall (J : json_codec) (S : AiAnalyzer.services) (H : AudioProcessor.host)
         (now : string) (db_fault : bool)
         (up : AudioProcessor.uploaded_file) (w : FileUpload.world),
    let w' := FileUpload.process_meeting_file J S H now db_fault up w in
    let inp := AudioProcessor.temp_input_path_of H up in
    (forall q,
        q <> inp -> q <> py_replace inp (split_dot_last inp) "wav" ->
        FileUpload.files w' !! q = FileUpload.files w !! q)
    /\ (FileUpload.db w' = FileUpload.db w
        \/ exists r,
             Database.rows (FileUpload.db w')
             = (Database.rows (FileUpload.db w) ++ [r])%list
             /\ Database.sqlite_sequence (FileUpload.db w')
                = Database.next_rowid (FileUpload.db w)
             /\ Database.r_id r = Database.next_rowid (FileUpload.db w)
             /\ Database.r_filename r = AudioProcessor.name up
             /\ Database.r_upload_date r = now
             /\ Database.r_file_size r = AudioProcessor.size up).
Proof.
  intros J S H now db_fault up w. cbv zeta. split.
  - intros q Hinp Hout. rewrite process_meeting_file_unfold. cbv zeta.
    pose proof (process_audio_file_frame H up (FileUpload.files w) q Hinp Hout)
      as Hframe.
    destruct (process_audio_file_outcome H up (FileUpload.files w))
      as [[Hr _] | [(Hr & _) | (mime & Hr & _)]]; rewrite Hr.
    + exact Hframe.
    + destruct (String.eqb _ ""); [exact Hframe|].
      rewrite after_normalization_files. cbn [FileUpload.files].
      rewrite lookup_delete_ne by congruence. exact Hframe.
    + destruct (String.eqb _ ""); [exact Hframe|].
      rewrite after_normalization_files. cbn [FileUpload.files].
      rewrite lookup_delete_ne by congruence. exact Hframe.
  - destruct (process_meeting_file_db_cases J S H now db_fault up w)
      as [E | (p & text & _ & _ & _ & E)]; [now left|].
    rewrite E.
    match goal with
    | |- context [Database.save_meeting_data ?J ?f ?n ?fn ?t ?s ?se ?tp ?sp ?kg ?fs ?d ?db] =>
        destruct (save_meeting_data_cases J f n fn t s se tp sp kg fs d db)
          as [[Es _] | (_ & ct & cs & cse & ctp & csp & ckg & _ & _ & _ & _ & _ & _ & Es)];
        cbv zeta in Es; rewrite Es; cbn [snd]
    end.
    + now left.
    + right. eexists. cbn [Database.rows Database.sqlite_sequence].
      split; [reflexivity|]. repeat split; reflexivity.
Qed.

(** X24.  A run whose transcription has a text and whose summary is not
    empty stores a row whatever the other stages return, provided the
    storage works and the results have a JSON form: each column holds what
    its stage returned, and a stage that returned nothing (a failed
    sentiment analysis, an empty topic list) leaves its column NULL
    instead of stopping the run.  The speaker column always holds the
    canned single-speaker result. *)
Theorem optional_stages_never_abort :
  forall (J : json_codec) (S : AiAnalyzer.services) (H : AudioProcessor.host)
         (now : string)
         (up : AudioProcessor.uploaded_file) (w : FileUpload.world)
         (p text : string),
    let σ1 := snd (AudioProcessor.process_audio_file H up (FileUpload.files w)) in
    fst (AudioProcessor.process_audio_file H up (FileUpload.files w)) = Some p ->
    py_getitem (AiAnalyzer.transcribe_audio S p σ1) "text" = Ok (PStr text) ->
    truthy (AiAnalyzer.generate_meeting_summary J S text) = true ->
    (forall v, exists s, json_dumps J v = Ok s) ->
    let w' := FileUpload.process_meeting_file J S H now false up w in
    exists r,
      Database.rows (FileUpload.db w')
      = (Database.rows (FileUpload.db w) ++ [r])%list
      /\ Database.r_id r = Database.next_rowid (FileUpload.db w)
      /\ Database.dump_field J (AiAnalyzer.analyze_sentiment J S text)
         = Ok (Database.r_sentiment r)
      /\ Database.dump_field J (AiAnalyzer.extract_topics S text 5)
         = Ok (Database.r_topics r)
      /\ Database.dump_field J AiAnalyzer.single_speaker
         = Ok (Database.r_speakers r)
      /\ (AiAnalyzer.analyze_sentiment J S text = PNone ->
          Database.r_sentiment r = None)
      /\ (AiAnalyzer.extract_topics S text 5 = PList [] ->
          Database.r_topics r = None)
      /\ Database.r_duration r = AudioProcessor.get_audio_duration p σ1.
Proof.
  intros J S H now up w p text σ1 Hp Htext Hsum Hjson. cbv zeta.
  rewrite (process_meeting_file_db_saved J S H now false up w p text Hp Htext Hsum).
  fold σ1. rewrite identify_speakers_constant.
  match goal with
  | |- context [Database.save_meeting_data ?J ?f ?n ?fn ?t ?s ?se ?tp ?sp ?kg ?fs ?d ?db] =>
      destruct (save_meeting_data_cases J f n fn t s se tp sp kg fs d db)
        as [[_ [Hf | (v & e & _ & _ & He)]]
           | (_ & ct & cs & cse & ctp & csp & ckg & _ & _ & Hse & Htp & Hsp & _ & Es)]
  end.
  + discriminate.
  + destruct (Hjson v) as [s Hs]. congruence.
  + cbv zeta in Es. rewrite Es. cbn [snd Database.rows].
    eexists. split; [reflexivity|].
    cbn [Database.r_id Database.r_sentiment Database.r_topics
         Database.r_speakers Database.r_duration].
    split; [reflexivity|]. split; [exact Hse|]. split; [exact Htp|].
    split; [exact Hsp|]. split; [|split; [|reflexivity]].
    * intros Hnone. rewrite Hnone in Hse. cbn in Hse. congruence.
    * intros Hnone. rewrite Hnone in Htp. cbn in Htp. congruence.
Qed.

(** The summary is answered, every other request to the model fails. *)
Definition summary_only_services : AiAnalyzer.services :=
  {| AiAnalyzer.groq_configured := false;
     AiAnalyzer.audio_transcriptions_create := fun _ =>
       Ok {| AiAnalyzer.response_text := "We shipped the release.";
             AiAnalyzer.response_segments := None;
             AiAnalyzer.response_language := None |};
     AiAnalyzer.chat_completions_create := fun _ _ prompt =>
       if py_startswith prompt "Analyze the following meeting transcription"
       then Ok (Some "1") else Raise (Exception "quota");
     AiAnalyzer.textblob_sentiment := fun _ => (0.5%float, 0.5%float);
     AiAnalyzer.tfidf_feature_names := fun _ => Raise ValueError;
     AiAnalyzer.lda_components := fun _ _ => Raise ValueError |}.

Lemma optional_stages_never_abort_witness :
  let w' := FileUpload.process_meeting_file opaque_codec summary_only_services
              demo_host "2024-05-04 10:00:00" false mp4_upload demo_world in
  exists r,
    Database.rows (FileUpload.db w') = (Database.rows demo_store ++ [r])%list
    /\ Database.r_id r = 4
    /\ Database.r_sentiment r = None
    /\ Database.r_topics r = None
    /\ Database.r_speakers r = Some "1".
Proof.
  cbv zeta.
  destruct (optional_stages_never_abort opaque_codec summary_only_services
              demo_host "2024-05-04 10:00:00" mp4_upload demo_world
              "/tmp/tmpa1b2c3d4.wav" "We shipped the release.")
    as (r & Hrows & Hid & _ & _ & Hsp & Hse & Htp & _).
  - reflexivity.
  - vm_compute. reflexivity.
  - vm_compute. reflexivity.
  - intros v. exists "1". reflexivity.
  - exists r. split; [exact Hrows|]. split; [exact Hid|].
    split; [apply Hse; vm_compute; reflexivity|].
    split; [apply Htp; vm_compute; reflexivity|].
    assert (Database.dump_field opaque_codec AiAnalyzer.single_speaker
            = Ok (Some "1")) as E by reflexivity.
    rewrite E in Hsp. now injection Hsp as <-.
Defined.

(** * meeting_history.py: the filters of the history page *)

Module MeetingHistory.
Import Database.

(** [str.isspace], for one character *)
Definition is_space (c : ascii) : bool :=
  let n := code c in
  ((9 <=? n) && (n <=? 13) || (28 <=? n) && (n <=? 32)
   || (n =? 133) || (n =? 160))%N.

Fixpoint skip_spaces (t : text) : text :=
  match t with
  | c :: t' => if is_space c then skip_spaces t' else t
  | [] => []
  end.

Fixpoint word (t : text) : text :=
  match t with
  | c :: t' => if is_space c then [] else c :: word t'
  | [] => []
  end.

(** [s.split()[0]] *)
Definition first_field (s : string) : exn string :=
  match skip_spaces (chars s) with
  | [] => Raise IndexError
  | t => Ok (str (word t))
  end.

(** What the date widget hands over: a list or tuple of dates, or a value
    that is neither (a single date, None).  A date is its ordinal. *)
Inductive date_input : Type :=
| NoSequence
| Sequence (dates : list Z).

(** [v.get(k)] *)
Definition py_get (v : pyval) (k : string) : exn pyval :=
  match v with
  | PDict d => Ok (default PNone (assoc k d))
  | _ => Raise (Exception "AttributeError")
  end.

(** [v in l] for a list of strings *)
Definition py_in (v : pyval) (l : list string) : bool :=
  match v with
  | PStr s => existsb (String.eqb s) l
  | _ => false
  end.

Section Filter.
(** [datetime.strptime(s, '%Y-%m-%d').date()] *)
Variable strptime_date : string -> exn Z.

Definition in_date_range (date_range : date_input) (m : meeting) : exn bool :=
  match date_range with
  | Sequence [lo; hi] =>
      day ← first_field (m_upload_date m);
      meeting_date ← strptime_date day;
      mret ((lo <=? meeting_date) && (meeting_date <=? hi))
  | _ => Ok true
  end.

Definition meeting_category (m : meeting) : exn pyval :=
  if truthy (m_summary m) then
    c ← py_get (m_summary m) "meeting_category";
    if truthy c then py_getitem (m_summary m) "meeting_category"
    else Ok PNone
  else Ok PNone.

Definition in_selected_categories (selected_categories : list string)
    (m : meeting) : exn bool :=
  match selected_categories with
  | [] => Ok true
  | _ => c ← meeting_category m; mret (py_in c selected_categories)
  end.

(** *** filter_meetings *)
Fixpoint filter_meetings (meetings : list meeting) (date_range : date_input)
    (selected_categories : list string) : exn (list meeting) :=
  match meetings with
  | [] => Ok []
  | m :: rest =>
      in_range ← in_date_range date_range m;
      keep ← (if in_range : bool
              then in_selected_categories selected_categories m
              else Ok false);
      filtered ← filter_meetings rest date_range selected_categories;
      mret (if keep : bool then m :: filtered else filtered)
  end.

End Filter.

End MeetingHistory.

(** * dashboard.py: the face next to the average sentiment *)

Module Dashboard.

Definition sentiment_emoji (avg_sentiment : float) : string :=
  if (0.1 <? avg_sentiment)%float then "😊"
  else if (-0.1 <? avg_sentiment)%float then "😐"
  else "😟".

End Dashboard.

(** ** Properties of the filters *)

Section FilterProperties.
Import Database MeetingHistory.

Variable strptime_date : string -> exn Z.

Lemma filter_meetings_step (m : meeting) (rest : list meeting)
    (date_range : date_input) (selected : list string) (l : list meeting) :
  filter_meetings strptime_date (m :: rest) date_range selected = Ok l ->
  exists in_range keep l',
    in_date_range strptime_date date_range m = Ok in_range
    /\ (if in_range then in_selected_categories selected m else Ok false)
       = Ok keep
    /\ filter_meetings strptime_date rest date_range selected = Ok l'
    /\ l = if keep then m :: l' else l'.
Proof.
  cbn [filter_meetings].
  destruct (in_date_range strptime_date date_range m) as [in_range|];
    cbn [mbind exn_bind]; [|discriminate].
  destruct (if in_range then in_selected_categories selected m else Ok false)
    as [keep|] eqn:Hkeep; cbn [mbind exn_bind]; [|discriminate].
  destruct (filter_meetings strptime_date rest date_range selected) as [l'|];
    cbn [mbind exn_bind mret exn_ret]; [|discriminate].
  intros E. injection E as <-. exists in_range, keep, l'.
  split; [reflexivity|]. split; [exact Hkeep|]. split; reflexivity.
Qed.

Lemma in_date_range_true (m : meeting) (lo hi : Z) :
  in_date_range strptime_date (Sequence [lo; hi]) m = Ok true ->
  exists day d, first_field (m_upload_date m) = Ok day
                /\ strptime_date day = Ok d /\ lo <= d <= hi.
Proof.
  cbn [in_date_range].
  destruct (first_field (m_upload_date m)) as [day|]; cbn [mbind exn_bind];
    [|discriminate].
  destruct (strptime_date day) as [d|] eqn:Ed; cbn [mbind exn_bind mret exn_ret];
    [|discriminate].
  intros E. injection E as E. apply andb_prop in E as [E1 E2].
  exists day, d. split; [reflexivity|]. split; [exact Ed | lia].
Qed.

Lemma in_selected_categories_true (m : meeting) (selected : list string) :
  selected <> [] ->
  in_selected_categories selected m = Ok true ->
  exists d c, m_summary m = PDict d
              /\ assoc "meeting_category" d = Some (PStr c)
              /\ In c selected.
Proof.
  intros Hne. unfold in_selected_categories.
  destruct selected as [|s0 selected]; [contradiction|].
  set (sel := s0 :: selected). unfold meeting_category.
  assert (forall v, py_in v sel = true -> exists c, v = PStr c /\ In c sel)
    as Hin.
  { intros [| | | |c| |]; cbn [py_in]; try discriminate.
    intros E. apply existsb_exists in E as (x & Hx & Ex).
    apply String.eqb_eq in Ex. subst x. eauto. }
  destruct (truthy (m_summary m)).
  2:{ cbn [mbind exn_bind mret exn_ret py_in]. discriminate. }
  destruct (m_summary m) as [| | | | | |d]; cbn [py_get mbind exn_bind];
    try discriminate.
  cbn [py_getitem].
  destruct (assoc "meeting_category" d) as [v|] eqn:Ea;
    cbn [default from_option id].
  2:{ cbn [truthy mbind exn_bind mret exn_ret py_in]. discriminate. }
  destruct (truthy v); cbn [mbind exn_bind mret exn_ret];
    [|cbn [py_in]; discriminate].
  unfold sel at 1. intros E.
  assert (py_in v sel = true) as E' by (injection E as E; exact E).
  clear E. rename E' into E. destruct (Hin v E) as (c & -> & Hc).
  exists d, c. split; [reflexivity|]. split; [exact Ea | exact Hc].
Qed.

Lemma keep_true (m : meeting) (date_range : date_input)
    (selected : list string) (in_range : bool) :
  in_date_range strptime_date date_range m = Ok in_range ->
  (if in_range then in_selected_categories selected m else Ok false)
  = Ok true ->
  in_range = true /\ in_selected_categories selected m = Ok true.
Proof. destruct in_range; [auto | discriminate]. Qed.

(** X25.  What [filter_meetings] returns is a selection of the meetings it
    was given, in their order.  With a range of two dates every meeting
    returned has a date that parses and lies within the range, both ends
    included; with categories selected every meeting returned has a summary
    whose category is a string among them, so a meeting without a category
    is left out.  Filtering the result again returns it unchanged. *)
Theorem filter_meetings_selects :
  forall (meetings : list meeting) (date_range : date_input)
         (selected_categories : list string) (filtered : list meeting),
    filter_meetings strptime_date meetings date_range selected_categories
    = Ok filtered ->
    sublist filtered meetings
    /\ (forall m, In m filtered ->
          (forall lo hi, date_range = Sequence [lo; hi] ->
             exists day d, first_field (m_upload_date m) = Ok day
                           /\ strptime_date day = Ok d /\ lo <= d <= hi)
          /\ (selected_categories <> [] ->
              exists d c, m_summary m = PDict d
                          /\ assoc "meeting_category" d = Some (PStr c)
                          /\ In c selected_categories))
    /\ filter_meetings strptime_date filtered date_range selected_categories
       = Ok filtered.
Proof.
  induction meetings as [|m rest IH]; intros date_range selected filtered E.
  - injection E as <-. split; [constructor|]. split; [intros m []|reflexivity].
  - apply filter_meetings_step in E
      as (in_range & keep & l' & Hrange & Hkeep & Hrest & ->).
    destruct (IH _ _ _ Hrest) as (Hsub & Hall & Hidem).
    destruct keep.
    + destruct (keep_true _ _ _ _ Hrange Hkeep) as [-> Hcat].
      split; [now constructor|]. split.
      * intros m' [<- | Hin]; [|now apply Hall].
        split.
        -- intros lo hi ->. now apply in_date_range_true.
        -- intros Hne. now apply in_selected_categories_true.
      * cbn [filter_meetings]. rewrite Hrange. cbn [mbind exn_bind].
        rewrite Hcat. cbn [mbind exn_bind]. rewrite Hidem. reflexivity.
    + split; [now constructor|]. split; assumption.
Qed.

(** X26.  Without a range of two dates and with no category selected,
    [filter_meetings] returns the meetings as they are; no date is parsed,
    so a date that would not parse does no harm. *)
Theorem filter_meetings_without_filters :
  forall (meetings : list meeting) (date_range : date_input),
    (forall lo hi, date_range <> Sequence [lo; hi]) ->
    filter_meetings strptime_date meetings date_range [] = Ok meetings.
Proof.
  intros meetings date_range Hno.
  assert (forall m, in_date_range strptime_date date_range m = Ok true) as Hr.
  { intros m. destruct date_range as [|[|lo [|hi [|x ds]]]]; try reflexivity.
    now destruct (Hno lo hi). }
  induction meetings as [|m rest IH]; [reflexivity|].
  cbn [filter_meetings]. rewrite Hr. cbn [mbind exn_bind in_selected_categories].
  now rewrite IH.
Qed.

(** X27.  With a range of two dates, one meeting whose date has no first
    field or does not parse makes [filter_meetings] raise: the function
    has no handler, and the meetings selected so far are lost. *)
Theorem filter_meetings_raises_on_bad_date :
  forall (meetings : list meeting) (lo hi : Z)
         (selected_categories : list string) (m : meeting) (e : pyexc),
    In m meetings ->
    (first_field (m_upload_date m) ≫= strptime_date) = Raise e ->
    exists e',
      filter_meetings strptime_date meetings (Sequence [lo; hi])
        selected_categories = Raise e'.
Proof.
  intros meetings lo hi selected m e Hin Hbad.
  assert (in_date_range strptime_date (Sequence [lo; hi]) m = Raise e) as Hr.
  { cbn [in_date_range].
    destruct (first_field (m_upload_date m)) as [day|]; cbn [mbind exn_bind] in *;
      [|now injection Hbad as ->].
    rewrite Hbad. reflexivity. }
  induction meetings as [|m0 rest IH]; [destruct Hin|].
  cbn [filter_meetings]. destruct Hin as [-> | Hin].
  - rewrite Hr. cbn [mbind exn_bind]. eauto.
  - destruct (in_date_range strptime_date (Sequence [lo; hi]) m0) as [r|];
      cbn [mbind exn_bind]; [|eauto].
    destruct (if r then in_selected_categories selected m0 else Ok false);
      cbn [mbind exn_bind]; [|eauto].
    destruct (IH Hin) as [e' ->]. cbn [mbind exn_bind]. eauto.
Qed.

End FilterProperties.

(** A parser for dates written as four, two and two digits, and three
    meetings, the second of which has a category. *)
Definition demo_strptime (s : string) : exn Z :=
  match chars s with
  | [y1; y2; y3; y4; "-"%char; m1; m2; "-"%char; d1; d2] =>
      match AudioProcessor.parse_decimal (str [y1; y2; y3; y4]),
            AudioProcessor.parse_decimal (str [m1; m2]),
            AudioProcessor.parse_decimal (str [d1; d2]) with
      | Some y, Some m, Some d => Ok (y * 10000 + m * 100 + d)
      | _, _, _ => Raise ValueError
      end
  | _ => Raise ValueError
  end.

Definition demo_meeting (id : Z) (filename date : string) (summary : pyval)
  : Database.meeting :=
  {| Database.m_id := id; Database.m_filename := filename;
     Database.m_upload_date := date;
     Database.m_transcription := PNone; Database.m_summary := summary;
     Database.m_sentiment := PNone; Database.m_topics := PNone;
     Database.m_speakers := PNone; Database.m_knowledge_graph := PNone;
     Database.m_file_size := 1024; Database.m_duration := 180%float |}.

Definition demo_meetings : list Database.meeting :=
  [demo_meeting 3 "retro.mp3" "2024-05-03 09:00:00" PNone;
   demo_meeting 2 "budget.wav" "2024-05-02 09:00:00"
     (PDict [("meeting_category", PStr "planning")]);
   demo_meeting 1 "standup.mp4" "yesterday" PNone].

Lemma filter_meetings_selects_witness :
  let kept := [demo_meeting 2 "budget.wav" "2024-05-02 09:00:00"
                 (PDict [("meeting_category", PStr "planning")])] in
  sublist kept (firstn 2 demo_meetings)
  /\ MeetingHistory.filter_meetings demo_strptime kept
       (MeetingHistory.Sequence [20240501; 20240531]) ["planning"]
     = Ok kept.
Proof.
  cbv zeta.
  destruct (filter_meetings_selects demo_strptime (firstn 2 demo_meetings)
              (MeetingHistory.Sequence [20240501; 20240531]) ["planning"]
              [demo_meeting 2 "budget.wav" "2024-05-02 09:00:00"
                 (PDict [("meeting_category", PStr "planning")])])
    as (Hsub & _ & Hagain).
  - vm_compute. reflexivity.
  - split; [exact Hsub | exact Hagain].
Defined.

Lemma filter_meetings_without_filters_witness :
  MeetingHistory.filter_meetings demo_strptime demo_meetings
    (MeetingHistory.Sequence [20240501]) []
  = Ok demo_meetings.
Proof.
  apply (filter_meetings_without_filters demo_strptime demo_meetings
           (MeetingHistory.Sequence [20240501])).
  intros lo hi. discriminate.
Defined.

Lemma filter_meetings_raises_on_bad_date_witness :
  exists e',
    MeetingHistory.filter_meetings demo_strptime demo_meetings
      (MeetingHistory.Sequence [20240501; 20240531]) []
    = Raise e'.
Proof.
  apply (filter_meetings_raises_on_bad_date demo_strptime demo_meetings
           20240501 20240531 []
           (demo_meeting 1 "standup.mp4" "yesterday" PNone) ValueError).
  - right. right. left. reflexivity.
  - vm_compute. reflexivity.
Defined.

(** ** The face and the label *)

Section Face.
Import AiAnalyzer Dashboard.

Lemma float_leb_not_ltb_eqb (a b : float) :
  (a <=? b)%float = true -> (a <? b)%float = false -> (a =? b)%float = true.
Proof.
  rewrite FloatAxioms.leb_spec, FloatAxioms.ltb_spec, FloatAxioms.eqb_spec.
  unfold SFleb, SFltb, SFeqb.
  destruct (SFcompare (Prim2SF a) (Prim2SF b)) as [[ | | ]|]; congruence.
Qed.

(** X28.  The face the dashboard shows for a polarity is the face of the
    label [analyze_sentiment] gives that polarity, for every polarity but
    two: at exactly -0.1 the label is Neutral and the face is the worried
    one, and so it is for NaN. *)
Theorem sentiment_emoji_follows_label :
  forall polarity : float,
    PrimFloat.is_nan polarity = false ->
    (polarity =? -0.1)%float = false ->
    sentiment_emoji polarity
    = (if String.eqb (sentiment_label polarity) "Positive" then "😊"
       else if String.eqb (sentiment_label polarity) "Neutral" then "😐"
       else "😟").
Proof.
  intros p Hnan Hne. unfold sentiment_emoji, sentiment_label.
  destruct (0.1 <? p)%float; [reflexivity|].
  destruct (p <? -0.1)%float eqn:Elow, (-0.1 <? p)%float eqn:Ehigh;
    try reflexivity.
  - apply float_ltb_leb, float_leb_not_ltb in Elow. congruence.
  - assert ((p <=? -0.1)%float = true) as Hle
      by (apply float_ltb_false_leb; [reflexivity | assumption | assumption]).
    rewrite (float_leb_not_ltb_eqb _ _ Hle Elow) in Hne. discriminate.
Qed.

Lemma sentiment_emoji_follows_label_witness :
  sentiment_emoji (-0.25) = "😟" /\ sentiment_label (-0.25) = "Negative".
Proof.
  split; [|reflexivity].
  rewrite (sentiment_emoji_follows_label (-0.25)); reflexivity.
Defined.

Example sentiment_emoji_at_the_threshold :
  sentiment_label (-0.1) = "Neutral" /\ sentiment_emoji (-0.1) = "😟"
  /\ sentiment_label nan = "Neutral" /\ sentiment_emoji nan = "😟".
Proof. repeat split. Qed.

End Face.
